(** * The request gatekeeper of the management service

    A shallow embedding of the Go sources

    - [pkg/ratelimiter]: the token-bucket limiter ([TokenBucket], [New],
      [Allow], [Reset], [cleanup_old_buckets], [Stats]);
    - [internal/clients/sso]: the identity client ([New], [ValidateJWT],
      [contextWithAccessToken]);
    - [internal/grpc]: the authentication interceptor ([extractAccessToken],
      [UnaryInterceptor], [StreamInterceptor], the context accessors);
    - [internal/app/gprc]: the chain builders ([chainUnaryInterceptors],
      [chainStreamInterceptors]) and the server application ([New]);
    - [internal/app]: the application ([New], [MustConnectSSO]);
    - [internal/domain/models], [internal/service/plan], [internal/grpc]
      and [internal/repository/postgres]: the plan handlers, the plan
      service and the plan repository;
    - [pkg/database/postgres] and [internal/config]: the configuration of
      the pool ([setDefaults], [DSN], [New], [ToPostgresConfig],
      [parseDuration]).

    Conventions.  A Go [int] is a [Z] with the 64-bit wrap-around written
    out ([wrap_int]).  A [time.Time] is its monotonic clock reading in
    nanoseconds, a [time.Duration] a number of nanoseconds.  The [float64]
    balance of a bucket is an exact rational: rounding of the binary64
    operations is not represented.  The mutex of the limiter makes every
    operation atomic, so an operation is a function from the limiter before
    it to the limiter after it.  What lies outside the sources (the
    identity service, the gRPC server, the pool and its driver, the
    parser of durations) answers as a parameter of the code that calls
    it, and the calls made to it are recorded as events. *)

From Stdlib Require Import ZArith QArith Qround Qminmax Lia Lqa.
From Stdlib Require Import String Ascii List.
From stdpp Require Import gmap strings list fin_maps pretty.

Local Open Scope Z_scope.

(** ** Go integers, durations and floats *)

Module GoNum.

Definition int_min : Z := - 2 ^ 63.
Definition int_max : Z := 2 ^ 63 - 1.

Definition valid_int (z : Z) : Prop := int_min <= z <= int_max.

(** Two's complement wrap-around of a 64-bit signed result. *)
Definition wrap_int (z : Z) : Z := (z + 2 ^ 63) mod 2 ^ 64 - 2 ^ 63.

(** [time.Time]: nanoseconds on the monotonic clock. *)
Definition Time : Type := Z.
(** [time.Duration]: nanoseconds. *)
Definition Duration : Type := Z.

Definition Second : Duration := 1000000000.
Definition Minute : Duration := 60 * Second.

(** [t.Sub(u)]: the difference, saturated to the range of a Duration. *)
Definition Sub (t u : Time) : Duration :=
  if t - u <? int_min then int_min
  else if int_max <? t - u then int_max
  else t - u.

(** [t.Add(d)]. *)
Definition Add (t : Time) (d : Duration) : Time := t + d.

(** [t.Before(u)]. *)
Definition Before (t u : Time) : bool := t <? u.

(** [d.Seconds()]. *)
Definition Seconds (d : Duration) : Q := Qmake d 1000000000.

(** [float64(n)] for an int [n]. *)
Definition float64 (n : Z) : Q := inject_Z n.

(** [int(x)] for a float [x]: truncation toward zero. *)
Definition int_of_float64 (x : Q) : Z := Z.quot (Qnum x) (Zpos (Qden x)).

(** [x > y] and [x >= y] on floats. *)
Definition Qgtb (x y : Q) : bool := negb (Qle_bool x y).
Definition Qgeb (x y : Q) : bool := Qle_bool y x.

End GoNum.

(** ** pkg/ratelimiter *)

Module ratelimiter.
Import GoNum.

Record bucket : Type := mkBucket {
  tokens : Q;
  lastUpdate : Time
}.

Record TokenBucket : Type := mkTokenBucket {
  buckets : gmap string bucket;
  rate : Z;
  capacity : Z;
  cleanup : Duration
}.

Record Config : Type := mkConfig {
  Rate : Z;
  Capacity : Z;
  CleanupInterval : Duration
}.

Definition DefaultConfig : Config :=
  {| Rate := 10; Capacity := 20; CleanupInterval := 5 * Minute |}.

Definition with_buckets (tb : TokenBucket) (m : gmap string bucket) : TokenBucket :=
  {| buckets := m; rate := rate tb; capacity := capacity tb; cleanup := cleanup tb |}.

(** [New]: the three defaults, then an empty map.  The background sweep
    it starts is the operation [cleanup_old_buckets] below, run at times
    of the scheduler's choosing. *)
Definition New (cfg : Config) : TokenBucket :=
  let r := if Rate cfg <=? 0 then 10 else Rate cfg in
  let c := if Capacity cfg <=? 0 then wrap_int (r * 2) else Capacity cfg in
  let i := if CleanupInterval cfg <=? 0 then 5 * Minute else CleanupInterval cfg in
  {| buckets := ∅; rate := r; capacity := c; cleanup := i |}.

(** [Allow], with [now] the reading [time.Now()] takes under the lock. *)
Definition Allow (tb : TokenBucket) (accessToken : string) (now : Time)
  : (bool * Z) * TokenBucket :=
  match buckets tb !! accessToken with
  | None =>
      let b := {| tokens := float64 (wrap_int (capacity tb - 1)); lastUpdate := now |} in
      ((true, wrap_int (capacity tb - 1)),
       with_buckets tb (<[accessToken := b]> (buckets tb)))
  | Some b =>
      let elapsed := Seconds (Sub now (lastUpdate b)) in
      let t1 := (tokens b + elapsed * float64 (rate tb))%Q in
      let t2 := if Qgtb t1 (float64 (capacity tb)) then float64 (capacity tb) else t1 in
      if Qgeb t2 1 then
        let t3 := (t2 - 1)%Q in
        ((true, int_of_float64 t3),
         with_buckets tb (<[accessToken := {| tokens := t3; lastUpdate := now |}]> (buckets tb)))
      else
        ((false, 0),
         with_buckets tb (<[accessToken := {| tokens := t2; lastUpdate := now |}]> (buckets tb)))
  end.

(** [Reset]. *)
Definition Reset (tb : TokenBucket) (accessToken : string) : TokenBucket :=
  with_buckets tb (delete accessToken (buckets tb)).

(** [cleanup_old_buckets], with [now] its reading of the clock. *)
Definition cleanup_old_buckets (tb : TokenBucket) (now : Time) : TokenBucket :=
  let threshold := Add now (- cleanup tb) in
  with_buckets tb
    (filter (fun kb : string * bucket => Before (lastUpdate kb.2) threshold = false)
            (buckets tb)).

(** [Stats]. *)
Definition Stats (tb : TokenBucket) : Z := Z.of_nat (size (buckets tb)).

End ratelimiter.

(** ** google.golang.org/grpc: codes, status errors, metadata, contexts

    Only what the gatekeeper touches of the transport library. *)

Module transport.
Import GoNum.

Inductive Code : Type :=
| OK | Canceled | Unknown | InvalidArgument | DeadlineExceeded | NotFound
| AlreadyExists | PermissionDenied | ResourceExhausted | FailedPrecondition
| Aborted | OutOfRange | Unimplemented | Internal | Unavailable | DataLoss
| Unauthenticated.

Definition Code_String (c : Code) : string :=
  match c with
  | OK => "OK" | Canceled => "Canceled" | Unknown => "Unknown"
  | InvalidArgument => "InvalidArgument" | DeadlineExceeded => "DeadlineExceeded"
  | NotFound => "NotFound" | AlreadyExists => "AlreadyExists"
  | PermissionDenied => "PermissionDenied" | ResourceExhausted => "ResourceExhausted"
  | FailedPrecondition => "FailedPrecondition" | Aborted => "Aborted"
  | OutOfRange => "OutOfRange" | Unimplemented => "Unimplemented"
  | Internal => "Internal" | Unavailable => "Unavailable" | DataLoss => "DataLoss"
  | Unauthenticated => "Unauthenticated"
  end.

(** A Go [error]: a status error [status.Error(code, msg)], or an error
    wrapped by [fmt.Errorf("<prefix>: %w", err)]. *)
Inductive error : Type :=
| StatusError (code : Code) (msg : string)
| Wrapped (prefix : string) (err : error).

(** [err.Error()]. *)
Fixpoint Error (e : error) : string :=
  match e with
  | StatusError c m => "rpc error: code = " ++ Code_String c ++ " desc = " ++ m
  | Wrapped p e' => p ++ ": " ++ Error e'
  end.

(** [status.Code(err)] of the error a server returns to its caller. *)
Definition status_Code (e : error) : Code :=
  match e with
  | StatusError c _ => c
  | Wrapped _ _ => Unknown
  end.

(** A Go result pair [(value, err)]: the value when [err == nil]. *)
Inductive Result (A : Type) : Type :=
| Ok (a : A)
| Err (e : error).
Arguments Ok {A} a.
Arguments Err {A} e.

(** [metadata.MD]: header name to its values, in order of arrival. *)
Abbreviation MD := (gmap string (list string)).

(** [md.Get(k)] for a lower-case [k]. *)
Definition MD_Get (md : MD) (k : string) : list string := default [] (md !! k).

(** The values a context carries under the keys of package [grpc]. *)
Record UserInfo : Type := mkUserInfo {
  UserID : Z;
  Username : string;
  Email : string;
  PhotoURL : string;
  Role : Z;
  AppID : Z;
  Balance : Z
}.

Inductive ctxValue : Type :=
| VUserInfo (u : UserInfo)
| VString (s : string).

(** [type contextKey string]. *)
Inductive contextKey : Type := mkContextKey (name : string).

#[global] Instance contextKey_eq_dec : EqDecision contextKey.
Proof. solve_decision. Defined.

(** [context.Context]: the incoming metadata (if any), the outgoing
    metadata appended so far, the deadline (if any) and the chain of
    [WithValue] bindings, innermost first. *)
Record Context : Type := mkContext {
  incoming : option MD;
  outgoing : list (string * string);
  deadline : option Time;
  values : list (contextKey * ctxValue)
}.

Definition Background : Context :=
  {| incoming := None; outgoing := []; deadline := None; values := [] |}.

(** [context.WithValue(ctx, k, v)]. *)
Definition WithValue (ctx : Context) (k : contextKey) (v : ctxValue) : Context :=
  {| incoming := incoming ctx; outgoing := outgoing ctx; deadline := deadline ctx;
     values := (k, v) :: values ctx |}.

(** [ctx.Value(k)]: the innermost binding of [k]. *)
Fixpoint lookup_value (k : contextKey) (l : list (contextKey * ctxValue)) : option ctxValue :=
  match l with
  | [] => None
  | (k', v) :: l' => if decide (k' = k) then Some v else lookup_value k l'
  end.

Definition Value (ctx : Context) (k : contextKey) : option ctxValue :=
  lookup_value k (values ctx).

(** [context.WithTimeout(ctx, d)] at clock reading [now]: the earlier of
    the parent's deadline and [now + d]. *)
Definition WithTimeout (ctx : Context) (d : Duration) (now : Time) : Context :=
  let dl := Add now d in
  {| incoming := incoming ctx; outgoing := outgoing ctx;
     deadline := match deadline ctx with
                 | Some p => if Before p dl then Some p else Some dl
                 | None => Some dl
                 end;
     values := values ctx |}.

(** [metadata.FromIncomingContext(ctx)]. *)
Definition FromIncomingContext (ctx : Context) : option MD := incoming ctx.

(** [metadata.AppendToOutgoingContext(ctx, k, v)]. *)
Definition AppendToOutgoingContext (ctx : Context) (k v : string) : Context :=
  {| incoming := incoming ctx; outgoing := outgoing ctx ++ [(k, v)];
     deadline := deadline ctx; values := values ctx |}.

(** [strings.HasPrefix] and [strings.TrimPrefix]. *)
Definition HasPrefix (s p : string) : bool := String.prefix p s.

Fixpoint string_drop (n : nat) (s : string) : string :=
  match n, s with
  | O, _ => s
  | S n', String _ s' => string_drop n' s'
  | S _, EmptyString => EmptyString
  end.

Definition TrimPrefix (s p : string) : string :=
  if HasPrefix s p then string_drop (String.length p) s else s.

End transport.

(** ** Effects

    What a call can touch: the limiter behind the interceptor's
    [rateLimiter] pointer (absent when the pointer is nil) and the clock.
    A computation also reports, in order, the calls it makes to its
    collaborators and the records it logs. *)

Module effects.
Import GoNum transport.

Inductive Level : Type := LevelDebug | LevelInfo | LevelWarn | LevelError.

(** [slog.String], [slog.Int] and [slog.Int64] attributes. *)
Inductive Attr : Type :=
| AttrString (key value : string)
| AttrInt (key : string) (value : Z).

Inductive Event : Type :=
| EvLog (level : Level) (msg : string) (attrs : list Attr)
| EvAllow (accessToken : string)
| EvValidateJWT (ctx : Context) (accessToken : string)
| EvDial (ctx : Context) (address : string).

Record Store : Type := mkStore {
  rateLimiter : option ratelimiter.TokenBucket;
  clock : Time
}.

Definition M (A : Type) : Type := Store -> (A * Store) * list Event.

Definition ret {A} (a : A) : M A := fun s => ((a, s), []).

Definition bind {A B} (m : M A) (f : A -> M B) : M B :=
  fun s =>
    let '((a, s1), t1) := m s in
    let '((b, s2), t2) := f a s1 in
    ((b, s2), t1 ++ t2).

Definition emit (e : Event) : M unit := fun s => ((tt, s), [e]).

Definition get_rateLimiter : M (option ratelimiter.TokenBucket) :=
  fun s => ((rateLimiter s, s), []).

(** [time.Now()]. *)
Definition time_Now : M Time := fun s => ((clock s, s), []).

(** [slog.Debug], [slog.Info], [slog.Warn], [slog.Error]. *)
Definition slog (l : Level) (msg : string) (attrs : list Attr) : M unit :=
  emit (EvLog l msg attrs).

(** A call [tb.Allow(accessToken)] on the limiter of the store; on a nil
    limiter the call is not made by any caller below. *)
Definition rateLimiter_Allow (accessToken : string) : M (bool * Z) :=
  fun s =>
    match rateLimiter s with
    | Some tb =>
        let '(r, tb') := ratelimiter.Allow tb accessToken (clock s) in
        ((r, {| rateLimiter := Some tb'; clock := clock s |}), [EvAllow accessToken])
    | None => (((false, 0), s), [EvAllow accessToken])
    end.

End effects.

Declare Scope go_scope.
Delimit Scope go_scope with go.
Notation "x <- m ;; k" := (effects.bind m (fun x => k))
  (at level 100, m at next level, k at level 200, right associativity, only parsing) : go_scope.
Notation "m ;; k" := (effects.bind m (fun _ => k))
  (at level 100, k at level 200, right associativity, only parsing) : go_scope.

(** ** internal/clients/sso *)

Module sso.
Import GoNum transport effects.
Local Open Scope go_scope.

Definition AuthorizationHeader : string := "authorization".
Definition BearerPrefix : string := "Bearer ".

(** [contextWithAccessToken]. *)
Definition contextWithAccessToken (ctx : Context) (accessToken : string) : Context :=
  AppendToOutgoingContext ctx AuthorizationHeader (BearerPrefix ++ accessToken).

(** [ssov1.ValidateJWTResponse]. *)
Record ValidateJWTResponse : Type := mkValidateJWTResponse {
  UserId : Z;
  RespUsername : string;
  RespEmail : string;
  PhotoUrl : string;
  RespRole : Z;
  AppId : Z;
  RespBalance : Z
}.

(** [*grpc.ClientConn]: the dialled target, and what the service at the
    other end answers to a [ValidateJWT] call carrying a given context. *)
Record ClientConn : Type := mkClientConn {
  target : string;
  invoke_ValidateJWT : Context -> Result ValidateJWTResponse
}.

(** The generated [ssov1.UserClient] stub. *)
Record UserClient : Type := mkUserClient {
  remote_ValidateJWT : Context -> Result ValidateJWTResponse
}.

Definition NewUserClient (cc : ClientConn) : UserClient :=
  {| remote_ValidateJWT := invoke_ValidateJWT cc |}.

Record Client : Type := mkClient {
  userClient : UserClient;
  conn : option ClientConn
}.

Record Config : Type := mkConfig {
  Address : string;
  Timeout : Duration;
  RetriesCount : Z;
  Insecure : bool
}.

Inductive DialOption : Type := WithInsecureTransportCredentials.

(** [grpc.DialContext], the library's connection attempt. *)
Definition Dialer : Type := Context -> string -> list DialOption -> Result ClientConn.

Definition DialContext (dial : Dialer) (ctx : Context) (address : string)
    (opts : list DialOption) : M (Result ClientConn) :=
  emit (EvDial ctx address) ;; ret (dial ctx address opts).

(** [sso.New]. *)
Definition New (dial : Dialer) (ctx : Context) (cfg : Config) : M (Result Client) :=
  let op := "clients.sso.New" in
  let opts := if Insecure cfg then [WithInsecureTransportCredentials] else [] in
  now <- time_Now ;;
  let dialCtx := WithTimeout ctx (Timeout cfg) now in
  r <- DialContext dial dialCtx (Address cfg) opts ;;
  match r with
  | Err err => ret (Err (Wrapped (op ++ ": failed to connect to SSO service") err))
  | Ok cc =>
      slog LevelInfo "SSO client connected" [AttrString "address" (Address cfg)] ;;
      ret (Ok {| userClient := NewUserClient cc; conn := Some cc |})
  end.

(** [Client.ValidateJWT]. *)
Definition ValidateJWT (c : Client) (ctx : Context) (accessToken : string)
  : M (Result ValidateJWTResponse) :=
  let op := "clients.sso.ValidateJWT" in
  emit (EvValidateJWT ctx accessToken) ;;
  let ctx' := contextWithAccessToken ctx accessToken in
  match remote_ValidateJWT (userClient c) ctx' with
  | Err err => ret (Err (Wrapped op err))
  | Ok resp => ret (Ok resp)
  end.

End sso.

(** ** internal/grpc: the authentication interceptor *)

Module grpcInt.
Import GoNum transport effects.
Local Open Scope go_scope.

Definition UserContextKey : contextKey := mkContextKey "user".
Definition AccessTokenContextKey : contextKey := mkContextKey "access_token".

(** [grpc.UnaryServerInfo] and [grpc.StreamServerInfo]: the method name is
    the one field the interceptor reads. *)
Record UnaryServerInfo : Type := mkUnaryServerInfo { FullMethod : string }.
Record StreamServerInfo : Type := mkStreamServerInfo { StreamFullMethod : string }.

(** The [rateLimiter] field is the limiter of the store (see [effects]). *)
Record AuthInterceptor : Type := mkAuthInterceptor {
  ssoClient : sso.Client;
  publicMethods : gmap string bool
}.

Definition NewAuthInterceptor (ssoClient : sso.Client) : AuthInterceptor :=
  {| ssoClient := ssoClient; publicMethods := ∅ |}.

Definition SetPublicMethods (i : AuthInterceptor) (methods : list string) : AuthInterceptor :=
  {| ssoClient := ssoClient i;
     publicMethods := fold_left (fun m method => <[method := true]> m) methods (publicMethods i) |}.

(** [i.publicMethods[method]]: false for a missing key. *)
Definition isPublic (i : AuthInterceptor) (method : string) : bool :=
  default false (publicMethods i !! method).

(** [extractAccessToken]. *)
Definition extractAccessToken (ctx : Context) : Result string :=
  match FromIncomingContext ctx with
  | None => Err (StatusError Unauthenticated "missing metadata")
  | Some md =>
      match MD_Get md "authorization" with
      | [] => Err (StatusError Unauthenticated "missing authorization header")
      | authHeader :: _ =>
          if negb (HasPrefix authHeader "Bearer ") then
            Err (StatusError Unauthenticated
                   "invalid authorization format, expected 'Bearer <token>'")
          else Ok (TrimPrefix authHeader "Bearer ")
      end
  end.

Definition userInfoOf (userResp : sso.ValidateJWTResponse) : UserInfo :=
  {| UserID := sso.UserId userResp;
     Username := sso.RespUsername userResp;
     Email := sso.RespEmail userResp;
     PhotoURL := sso.PhotoUrl userResp;
     Role := sso.RespRole userResp;
     AppID := sso.AppId userResp;
     Balance := sso.RespBalance userResp |}.

(** [grpc.ServerStream], and [wrappedServerStream] over it. *)
Inductive ServerStream (Raw : Type) : Type :=
| transportStream (ctx : Context) (raw : Raw)
| wrappedServerStream (inner : ServerStream Raw) (ctx : Context).
Arguments transportStream {Raw} ctx raw.
Arguments wrappedServerStream {Raw} inner ctx.

Definition stream_Context {Raw} (s : ServerStream Raw) : Context :=
  match s with
  | transportStream ctx _ => ctx
  | wrappedServerStream _ ctx => ctx
  end.

Section Interceptors.
Context {Req Resp Srv Raw : Type}.

Definition UnaryHandler : Type := Context -> Req -> M (Result Resp).
Definition UnaryServerInterceptor : Type :=
  Context -> Req -> UnaryServerInfo -> UnaryHandler -> M (Result Resp).

(** A stream handler returns its error, [None] for nil. *)
Definition StreamHandler : Type := Srv -> ServerStream Raw -> M (option error).
Definition StreamServerInterceptor : Type :=
  Srv -> ServerStream Raw -> StreamServerInfo -> StreamHandler -> M (option error).

(** [AuthInterceptor.UnaryInterceptor]. *)
Definition UnaryInterceptor (i : AuthInterceptor) : UnaryServerInterceptor :=
  fun ctx req info handler =>
    if isPublic i (FullMethod info) then handler ctx req
    else
      match extractAccessToken ctx with
      | Err err =>
          slog LevelWarn "failed to extract access token"
            [AttrString "method" (FullMethod info); AttrString "error" (Error err)] ;;
          ret (Err err)
      | Ok accessToken =>
          let validate : M (Result Resp) :=
            r <- sso.ValidateJWT (ssoClient i) ctx accessToken ;;
            match r with
            | Err err =>
                slog LevelWarn "JWT validation failed"
                  [AttrString "method" (FullMethod info); AttrString "error" (Error err)] ;;
                ret (Err (StatusError Unauthenticated "invalid or expired token"))
            | Ok userResp =>
                let userInfo := userInfoOf userResp in
                let ctx1 := WithValue ctx UserContextKey (VUserInfo userInfo) in
                let ctx2 := WithValue ctx1 AccessTokenContextKey (VString accessToken) in
                slog LevelDebug "user authenticated"
                  [AttrString "method" (FullMethod info);
                   AttrInt "user_id" (UserID userInfo);
                   AttrString "username" (Username userInfo)] ;;
                handler ctx2 req
            end in
          rl <- get_rateLimiter ;;
          match rl with
          | Some _ =>
              r <- rateLimiter_Allow accessToken ;;
              if negb (fst r) then
                slog LevelWarn "rate limit exceeded"
                  [AttrString "method" (FullMethod info)] ;;
                ret (Err (StatusError ResourceExhausted
                            "rate limit exceeded, please try again later"))
              else
                slog LevelDebug "rate limit check passed"
                  [AttrString "method" (FullMethod info); AttrInt "remaining" (snd r)] ;;
                validate
          | None => validate
          end
      end.

(** [AuthInterceptor.StreamInterceptor]. *)
Definition StreamInterceptor (i : AuthInterceptor) : StreamServerInterceptor :=
  fun srv stream info handler =>
    if isPublic i (StreamFullMethod info) then handler srv stream
    else
      let ctx := stream_Context stream in
      match extractAccessToken ctx with
      | Err err => ret (Some err)
      | Ok accessToken =>
          let validate : M (option error) :=
            r <- sso.ValidateJWT (ssoClient i) ctx accessToken ;;
            match r with
            | Err err => ret (Some (StatusError Unauthenticated "invalid or expired token"))
            | Ok userResp =>
                let userInfo := userInfoOf userResp in
                let wrappedStream :=
                  wrappedServerStream stream
                    (WithValue (WithValue ctx UserContextKey (VUserInfo userInfo))
                               AccessTokenContextKey (VString accessToken)) in
                handler srv wrappedStream
            end in
          rl <- get_rateLimiter ;;
          match rl with
          | Some _ =>
              r <- rateLimiter_Allow accessToken ;;
              if negb (fst r) then
                ret (Some (StatusError ResourceExhausted
                             "rate limit exceeded, please try again later"))
              else validate
          | None => validate
          end
      end.

End Interceptors.

(** [GetUserFromContext]. *)
Definition GetUserFromContext (ctx : Context) : option UserInfo :=
  match Value ctx UserContextKey with
  | Some (VUserInfo u) => Some u
  | _ => None
  end.

(** [GetAccessTokenFromContext]. *)
Definition GetAccessTokenFromContext (ctx : Context) : option string :=
  match Value ctx AccessTokenContextKey with
  | Some (VString s) => Some s
  | _ => None
  end.

End grpcInt.

(** ** internal/app/gprc: the chain builders *)

Module grpcapp.

Section Chain.
(** The builders never look inside a context, a request, a stream or a
    result, so the types of the transport library are left open; [R] is
    whatever a handler returns, effects included. *)
Context {Ctx Req Info Srv Stream R : Type}.

Definition UnaryHandler : Type := Ctx -> Req -> R.
Definition UnaryServerInterceptor : Type := Ctx -> Req -> Info -> UnaryHandler -> R.
Definition StreamHandler : Type := Srv -> Stream -> R.
Definition StreamServerInterceptor : Type := Srv -> Stream -> Info -> StreamHandler -> R.

(** The loop [for i := len(interceptors) - 1; i >= 0; i--], entered with
    [n = i + 1]; an index is always within the slice. *)
Fixpoint unaryLoop (interceptors : list UnaryServerInterceptor) (info : Info)
    (n : nat) (chainHandler : UnaryHandler) : UnaryHandler :=
  match n with
  | O => chainHandler
  | S i =>
      match interceptors !! i with
      | Some currentInterceptor =>
          let innerHandler := chainHandler in
          unaryLoop interceptors info i
            (fun currentCtx currentReq =>
               currentInterceptor currentCtx currentReq info innerHandler)
      | None => chainHandler
      end
  end.

(** [chainUnaryInterceptors]. *)
Definition chainUnaryInterceptors (interceptors : list UnaryServerInterceptor)
  : UnaryServerInterceptor :=
  fun ctx req info handler =>
    unaryLoop interceptors info (length interceptors) handler ctx req.

Fixpoint streamLoop (interceptors : list StreamServerInterceptor) (info : Info)
    (n : nat) (chainHandler : StreamHandler) : StreamHandler :=
  match n with
  | O => chainHandler
  | S i =>
      match interceptors !! i with
      | Some currentInterceptor =>
          let innerHandler := chainHandler in
          streamLoop interceptors info i
            (fun currentSrv currentStream =>
               currentInterceptor currentSrv currentStream info innerHandler)
      | None => chainHandler
      end
  end.

(** [chainStreamInterceptors]. *)
Definition chainStreamInterceptors (interceptors : list StreamServerInterceptor)
  : StreamServerInterceptor :=
  fun srv stream info handler =>
    streamLoop interceptors info (length interceptors) handler srv stream.

End Chain.

End grpcapp.

(** ** The limiter's contract, as the specification words it *)

Module contract.
Import GoNum ratelimiter.


(** Histories of a limiter: the calls made on it, each with the clock
    reading it takes under the lock; the sweep of the background task is
    one of them. *)
Inductive Op : Type :=
| OpAllow (credential : string)
| OpReset (credential : string)
| OpSweep.

Definition step (tb : TokenBucket) (c : Time * Op) : TokenBucket :=
  match c.2 with
  | OpAllow credential => (Allow tb credential c.1).2
  | OpReset credential => Reset tb credential
  | OpSweep => cleanup_old_buckets tb c.1
  end.

Definition run (tb : TokenBucket) (history : list (Time * Op)) : TokenBucket :=
  fold_left step history tb.




(** [n] calls of [Allow] in a row, all at clock reading [now]: the answers
    in order, and the limiter they leave. *)
Fixpoint Allow_burst (n : nat) (tb : TokenBucket) (credential : string) (now : Time)
  : list (bool * Z) * TokenBucket :=
  match n with
  | O => ([], tb)
  | S k =>
      let '(r, tb1) := Allow tb credential now in
      let '(rs, tb2) := Allow_burst k tb1 credential now in
      (r :: rs, tb2)
  end.

(** A limiter that has seen ["tok1"] once, at time 0, with the default
    configuration, and a short history on a fresh one. *)
Definition sample_limiter : TokenBucket := (Allow (New DefaultConfig) "tok1" 0).2.


End contract.

(** ** The chain builder's contract, as the specification words it

    [I1(ctx, req, info, I2(ctx, req, info, ... In(ctx, req, info, H) ...))]:
    the first interceptor of the list is outermost, every layer receives
    the same [info], and each layer's handler is the rest of the chain. *)

Module chain_contract.
Import grpcapp.

Section Nested.
Context {Ctx Req Info Srv Stream R : Type}.

Fixpoint nestedUnary (interceptors : list (@UnaryServerInterceptor Ctx Req Info R))
    (info : Info) (H : @UnaryHandler Ctx Req R) : @UnaryHandler Ctx Req R :=
  match interceptors with
  | [] => H
  | I1 :: rest => fun ctx req => I1 ctx req info (nestedUnary rest info H)
  end.

Fixpoint nestedStream (interceptors : list (@StreamServerInterceptor Info Srv Stream R))
    (info : Info) (H : @StreamHandler Srv Stream R) : @StreamHandler Srv Stream R :=
  match interceptors with
  | [] => H
  | I1 :: rest => fun srv stream => I1 srv stream info (nestedStream rest info H)
  end.

End Nested.

End chain_contract.

(** ** Observing an interceptor

    An interceptor applied to everything but its handler is a function
    [run] from handlers to computations.  It [rejects] when, whatever the
    handler, it ends with the same result, store and events: the handler
    is not invoked.  It [forwards] when, whatever the handler, it behaves
    as: report [ev], bring the store to [s1], then be the handler applied
    to [a] and [b]: the handler is invoked exactly once, last, on these
    arguments. *)

Module observe.
Import effects.

Definition rejects {A B R : Type} (run : (A -> B -> M R) -> M R) (s : Store)
    (r : R) (s1 : Store) (ev : list Event) : Prop :=
  forall handler, run handler s = ((r, s1), ev).

Definition forwards {A B R : Type} (run : (A -> B -> M R) -> M R) (s : Store)
    (a : A) (b : B) (s1 : Store) (ev : list Event) : Prop :=
  forall handler,
    run handler s = (((handler a b s1).1.1, (handler a b s1).1.2), ev ++ (handler a b s1).2).

(** The connection attempts among events. *)
Definition is_Dial (e : Event) : bool :=
  match e with EvDial _ _ => true | _ => false end.


(** What the rate-limit step of a call with credential [tok] does to a
    store: whether it lets the call through, and the store it leaves. *)
Definition admitted (s : Store) (tok : string) : bool :=
  match rateLimiter s with
  | Some tb => (ratelimiter.Allow tb tok (clock s)).1.1
  | None => true
  end.

Definition after_limiter (s : Store) (tok : string) : Store :=
  match rateLimiter s with
  | Some tb => {| rateLimiter := Some (ratelimiter.Allow tb tok (clock s)).2;
                  clock := clock s |}
  | None => s
  end.

(** The result and the events of a computation run from a store. *)
Definition result_of {A : Type} (m : M A) (s : Store) : A := (m s).1.1.
Definition events_of {A : Type} (m : M A) (s : Store) : list Event := (m s).2.

(** The context of an authenticated call: the identity, then the raw
    credential, bound over the incoming context. *)
Definition authenticated (ctx : transport.Context) (tok : string)
    (resp : sso.ValidateJWTResponse) : transport.Context :=
  transport.WithValue
    (transport.WithValue ctx grpcInt.UserContextKey
       (transport.VUserInfo (grpcInt.userInfoOf resp)))
    grpcInt.AccessTokenContextKey (transport.VString tok).

(** The events of the rate-limit step of an admitted unary call. *)
Definition unary_limiter_events (s : Store) (info : grpcInt.UnaryServerInfo) (tok : string)
  : list Event :=
  match rateLimiter s with
  | Some tb =>
      [EvAllow tok;
       EvLog LevelDebug "rate limit check passed"
         [AttrString "method" (grpcInt.FullMethod info);
          AttrInt "remaining" (ratelimiter.Allow tb tok (clock s)).1.2]]
  | None => []
  end.

Definition stream_limiter_events (s : Store) (tok : string) : list Event :=
  match rateLimiter s with
  | Some _ => [EvAllow tok]
  | None => []
  end.

(** The first collaborator a call with an extracted credential reaches. *)
Definition first_call (s : Store) (ctx : transport.Context) (tok : string) : Event :=
  match rateLimiter s with
  | Some _ => EvAllow tok
  | None => EvValidateJWT ctx tok
  end.

(** Identity validation succeeded for the call that arrives with [ctx] in
    store [s], and [c] is [ctx] with the identity and the credential
    bound: the credential was extracted, the rate-limit step let the call
    through, and [ValidateJWT] answered with a response. *)
Definition validated (i : grpcInt.AuthInterceptor) (ctx : transport.Context)
    (s : Store) (c : transport.Context) : Prop :=
  exists tok resp,
    grpcInt.extractAccessToken ctx = transport.Ok tok /\
    admitted s tok = true /\
    result_of (sso.ValidateJWT (grpcInt.ssoClient i) ctx tok) (after_limiter s tok)
      = transport.Ok resp /\
    c = authenticated ctx tok resp.

(** ** Sample data: an identity service that knows the credential
    ["good"], the interceptor as [grpcapp.New] configures it, and a few
    calls. *)

Definition sample_resp : sso.ValidateJWTResponse :=
  {| sso.UserId := 42; sso.RespUsername := "alice"; sso.RespEmail := "alice@example.org";
     sso.PhotoUrl := ""; sso.RespRole := 1; sso.AppId := 7; sso.RespBalance := 100 |}.

Definition sample_remote (ctx : transport.Context)
  : transport.Result sso.ValidateJWTResponse :=
  match last (transport.outgoing ctx) with
  | Some (_, v) =>
      if String.eqb v "Bearer good" then transport.Ok sample_resp
      else transport.Err (transport.StatusError transport.Unauthenticated "token is expired")
  | None => transport.Err (transport.StatusError transport.Unavailable "connection refused")
  end.

Definition sample_conn : sso.ClientConn :=
  {| sso.target := "sso:44044"; sso.invoke_ValidateJWT := sample_remote |}.

Definition sample_client : sso.Client :=
  {| sso.userClient := sso.NewUserClient sample_conn; sso.conn := Some sample_conn |}.

Definition CreatePlan : string := "/management.Management/CreatePlan".
Definition ListPlans : string := "/management.Management/ListPlans".
Definition GetPlan : string := "/management.Management/GetPlan".

Definition sample_interceptor : grpcInt.AuthInterceptor :=
  grpcInt.SetPublicMethods (grpcInt.NewAuthInterceptor sample_client) [ListPlans; GetPlan].

(** A call carrying the given [authorization] values. *)
Definition call_with (headers : list string) : transport.Context :=
  {| transport.incoming := Some {[ "authorization" := headers ]};
     transport.outgoing := []; transport.deadline := None; transport.values := [] |}.

Definition fresh_store : Store :=
  {| rateLimiter := Some (ratelimiter.New ratelimiter.DefaultConfig); clock := 0 |}.

(** A store whose limiter has no token left for ["good"]. *)
Definition exhausted_store : Store :=
  {| rateLimiter :=
       Some (ratelimiter.with_buckets (ratelimiter.New ratelimiter.DefaultConfig)
               {[ "good" := {| ratelimiter.tokens := 0; ratelimiter.lastUpdate := 0 |} ]});
     clock := 0 |}.

Definition no_limiter_store : Store := {| rateLimiter := None; clock := 0 |}.

(** A terminal handler that answers [tt] and reports nothing. *)
Definition unit_handler : transport.Context -> unit -> M (transport.Result unit) :=
  fun _ _ => ret (transport.Ok tt).

Definition unit_stream_handler
  : unit -> grpcInt.ServerStream unit -> M (option transport.error) :=
  fun _ _ => ret None.

End observe.

(** ** Histories of a limiter, observed

    What callers see of a history is the answers of its [Allow] calls. *)

Module histories.
Import GoNum ratelimiter contract.






(** A limiter whose sweep comes too early: one token a second, a burst of
    1000, and buckets dropped after five idle minutes. *)
Definition early_sweep_limiter : TokenBucket :=
  with_buckets (New {| Rate := 1; Capacity := 1000; CleanupInterval := 5 * Minute |})
    {[ "tok1" := {| tokens := 0; lastUpdate := 0 |} ]}.




End histories.

(** ** internal/grpc: the accessor that panics *)

Module grpcCtx.
Import transport grpcInt.

(** What a Go call does that may panic. *)
Inductive Outcome (A : Type) : Type :=
| Returns (a : A)
| Panics (msg : string).
Arguments Returns {A} a.
Arguments Panics {A} msg.

(** [MustGetUserFromContext]. *)
Definition MustGetUserFromContext (ctx : Context) : Outcome UserInfo :=
  match GetUserFromContext ctx with
  | Some user => Returns user
  | None => Panics "user not found in context"
  end.

End grpcCtx.

(** ** What a call leaves of the store *)

Module footprint.
Import GoNum effects.

(** The bucket a store holds for a credential, if it has a limiter. *)
Definition bucket_of (s : Store) (c : string) : option ratelimiter.bucket :=
  match rateLimiter s with
  | Some tb => ratelimiter.buckets tb !! c
  | None => None
  end.

(** [s1] is [s] but for the bucket of the credential [cred], if any: the
    same clock, a limiter when and only when there was one, with the same
    rate, capacity and sweep interval, and the same bucket for every other
    credential. *)
Definition differs_at_most_at (cred : option string) (s s1 : Store) : Prop :=
  clock s1 = clock s /\
  match rateLimiter s, rateLimiter s1 with
  | Some tb, Some tb1 =>
      ratelimiter.rate tb1 = ratelimiter.rate tb /\
      ratelimiter.capacity tb1 = ratelimiter.capacity tb /\
      ratelimiter.cleanup tb1 = ratelimiter.cleanup tb
  | None, None => True
  | _, _ => False
  end /\
  forall c, cred <> Some c -> bucket_of s1 c = bucket_of s c.

End footprint.

(** ** google.golang.org/grpc: a server and its interceptor options *)

Module grpcserver.
Import transport effects grpcInt grpcCtx.

Section Server.
Context {Req Resp Srv Raw : Type}.

(** What is registered on a server: [reflection.Register] and
    [managementv1.RegisterManagementServer]. *)
Inductive Registration : Type := reflection_Register | RegisterManagementServer.

(** [grpc.UnaryInterceptor(f)] and [grpc.StreamInterceptor(f)]. *)
Inductive ServerOption : Type :=
| UnaryInterceptorOption (f : @UnaryServerInterceptor Req Resp)
| StreamInterceptorOption (f : @StreamServerInterceptor Srv Raw).

(** [*grpc.Server]: the interceptor of each kind, if one was set, and the
    registrations made so far. *)
Record Server : Type := mkServer {
  unaryInt : option (@UnaryServerInterceptor Req Resp);
  streamInt : option (@StreamServerInterceptor Srv Raw);
  services : list Registration
}.

(** An option applied to the server under construction: an interceptor
    of a kind may be set once. *)
Definition apply_option (o : Outcome Server) (opt : ServerOption) : Outcome Server :=
  match o with
  | Panics msg => Panics msg
  | Returns srv =>
      match opt with
      | UnaryInterceptorOption f =>
          match unaryInt srv with
          | Some _ => Panics "The unary server interceptor was already set and may not be reset."
          | None => Returns {| unaryInt := Some f; streamInt := streamInt srv;
                               services := services srv |}
          end
      | StreamInterceptorOption f =>
          match streamInt srv with
          | Some _ => Panics "The stream server interceptor was already set and may not be reset."
          | None => Returns {| unaryInt := unaryInt srv; streamInt := Some f;
                               services := services srv |}
          end
      end
  end.

(** [grpc.NewServer(opts...)]. *)
Definition NewServer (opts : list ServerOption) : Outcome Server :=
  fold_left apply_option opts
    (Returns {| unaryInt := None; streamInt := None; services := [] |}).

(** A registration on the server. *)
Definition register (srv : Server) (r : Registration) : Server :=
  {| unaryInt := unaryInt srv; streamInt := streamInt srv;
     services := services srv ++ [r] |}.

(** How the server runs the method handler of a unary call, and the
    handler of a stream: through the interceptor when one is set. *)
Definition serveUnary (srv : Server) (ctx : Context) (req : Req) (info : UnaryServerInfo)
    (handler : @UnaryHandler Req Resp) : M (Result Resp) :=
  match unaryInt srv with
  | None => handler ctx req
  | Some interceptor => interceptor ctx req info handler
  end.

Definition serveStream (srv : Server) (server : Srv) (stream : ServerStream Raw)
    (info : StreamServerInfo) (handler : @StreamHandler Srv Raw) : M (option error) :=
  match streamInt srv with
  | None => handler server stream
  | Some interceptor => interceptor server stream info handler
  end.

End Server.

End grpcserver.

(** ** internal/app/gprc: the server application *)

Module grpcapp_server.
Import GoNum transport effects grpcInt grpcCtx grpcserver.
Local Open Scope go_scope.

Section App.
Context {Req Resp Srv Raw : Type}.

Record App : Type := mkApp {
  gRPCServer : @Server Req Resp Srv Raw;
  port : Z;
  authInterceptor : option AuthInterceptor
}.

(** [grpcapp.New], with the port of the configuration; the plan service
    it registers is behind the method handlers.  The limiter handed to
    the interceptor is the limiter of the store. *)
Definition New (cfg_GRPC_Port : Z) (ssoClient : option sso.Client) : M (Outcome App) :=
  r <- match ssoClient with
       | Some client =>
           let authInterceptor := NewAuthInterceptor client in
           let authInterceptor :=
             SetPublicMethods authInterceptor
               ["/management.Management/ListPlans"%string;
                "/management.Management/GetPlan"%string] in
           let opts := [UnaryInterceptorOption (UnaryInterceptor authInterceptor);
                        StreamInterceptorOption (StreamInterceptor authInterceptor)] in
           slog LevelInfo "auth interceptor enabled with rate limiting" [] ;;
           ret (opts, Some authInterceptor)
       | None =>
           slog LevelWarn "auth interceptor disabled - SSO client not available" [] ;;
           ret ([], None)
       end ;;
  match NewServer r.1 with
  | Panics msg => ret (Panics msg)
  | Returns gRPCServer =>
      let gRPCServer := register gRPCServer reflection_Register in
      let gRPCServer := register gRPCServer RegisterManagementServer in
      slog LevelInfo "management service registered" [] ;;
      ret (Returns {| gRPCServer := gRPCServer; port := cfg_GRPC_Port;
                      authInterceptor := r.2 |})
  end.

End App.

End grpcapp_server.

(** ** internal/app: the application and its connection to the identity service *)

Module app.
Import GoNum transport effects grpcInt grpcCtx grpcserver.
Local Open Scope go_scope.

(** [time.Sleep(d)]: the clock moves on by [d] and by whatever the
    scheduler adds, [late]; a duration that is not positive returns at
    once. *)
Definition time_Sleep (late : Time -> Duration -> N) (d : Duration) : M unit :=
  fun s =>
    if d <=? 0 then ((tt, s), [])
    else ((tt, {| rateLimiter := rateLimiter s;
                  clock := clock s + d + Z.of_N (late (clock s) d) |}), []).

(** The limiter [ratelimiter.New] returns, kept where the interceptor
    will find it. *)
Definition new_rateLimiter (cfg : ratelimiter.Config) : M unit :=
  fun s => ((tt, {| rateLimiter := Some (ratelimiter.New cfg); clock := clock s |}), []).

Section App.
Context {Req Resp Srv Raw : Type}.

Record App : Type := mkApp {
  GRPCSrv : @grpcapp_server.App Req Resp Srv Raw;
  SSOClient : option sso.Client
}.

(** The configuration [app.New] reads: the limiter's, the port, and what
    [cfg.SSO.ToSSOClientConfig()] returns. *)
Record Config : Type := mkConfig {
  RateLimiter : ratelimiter.Config;
  GRPC_Port : Z;
  SSO_address : string;
  SSO_timeout : Duration;
  SSO_insecure : bool
}.

Definition ssoConfig (cfg : Config) : sso.Config :=
  {| sso.Address := SSO_address cfg; sso.Timeout := SSO_timeout cfg;
     sso.RetriesCount := 0; sso.Insecure := SSO_insecure cfg |}.

(** [app.New]. *)
Definition New (dial : sso.Dialer) (cfg : Config) : M (Outcome App) :=
  let rateLimiterCfg := RateLimiter cfg in
  new_rateLimiter rateLimiterCfg ;;
  slog LevelInfo "rate limiter initialized"
    [AttrInt "rate" (ratelimiter.Rate rateLimiterCfg);
     AttrInt "capacity" (ratelimiter.Capacity rateLimiterCfg)] ;;
  r <- sso.New dial Background (ssoConfig cfg) ;;
  ssoClient <- match r with
               | Err err =>
                   slog LevelWarn "failed to connect to SSO service, continuing without SSO"
                     [AttrString "error" (Error err);
                      AttrString "address" (SSO_address cfg)] ;;
                   ret None
               | Ok client => ret (Some client)
               end ;;
  g <- grpcapp_server.New (GRPC_Port cfg) ssoClient ;;
  match g with
  | Panics msg => ret (Panics msg)
  | Returns grpcApp => ret (Returns {| GRPCSrv := grpcApp; SSOClient := ssoClient |})
  end.

(** The loop of [MustConnectSSO], entered with [n] iterations to go
    before [i] reaches [maxRetries]. *)
Fixpoint connectLoop (dial : sso.Dialer) (late : Time -> Duration -> N) (cfg : Config)
    (a : App) (maxRetries : Z) (n : nat) (i : Z) : M App :=
  match n with
  | O =>
      slog LevelError "failed to connect to SSO service after all retries" [] ;;
      ret a
  | S n' =>
      r <- sso.New dial Background (ssoConfig cfg) ;;
      match r with
      | Err err =>
          slog LevelWarn "SSO connection attempt failed"
            [AttrInt "attempt" (wrap_int (i + 1)); AttrInt "max_retries" maxRetries;
             AttrString "error" (Error err)] ;;
          time_Sleep late (wrap_int (Second * wrap_int (i + 1))) ;;
          connectLoop dial late cfg a maxRetries n' (i + 1)
      | Ok ssoClient =>
          slog LevelInfo "SSO client connected successfully" [] ;;
          ret {| GRPCSrv := GRPCSrv a; SSOClient := Some ssoClient |}
      end
  end.

(** [App.MustConnectSSO]. *)
Definition MustConnectSSO (dial : sso.Dialer) (late : Time -> Duration -> N)
    (a : App) (cfg : Config) (maxRetries : Z) : M App :=
  match SSOClient a with
  | Some _ => ret a
  | None => connectLoop dial late cfg a maxRetries (Z.to_nat maxRetries) 0
  end.

End App.

(** Diallers that never, and that always, reach the service. *)
Definition unreachable : sso.Dialer :=
  fun _ _ _ => Err (StatusError Unavailable "connection refused").

Definition reachable : sso.Dialer :=
  fun _ address _ => Ok {| sso.target := address; sso.invoke_ValidateJWT := observe.sample_remote |}.

(** A dialler that reaches the service in attempts made at [T] or later,
    for attempts given five seconds. *)
Definition comes_up_at (T : Time) : sso.Dialer :=
  fun ctx address _ =>
    match deadline ctx with
    | Some d =>
        if T + 5 * Second <=? d then
          Ok {| sso.target := address; sso.invoke_ValidateJWT := observe.sample_remote |}
        else Err (StatusError Unavailable "connection refused")
    | None => Err (StatusError Unavailable "connection refused")
    end.

Definition on_time : Time -> Duration -> N := fun _ _ => 0%N.

Definition sample_config : Config :=
  {| RateLimiter := ratelimiter.DefaultConfig; GRPC_Port := 50051;
     SSO_address := "sso:44044"; SSO_timeout := 5 * Second; SSO_insecure := true |}.

(** The application [New] builds while the service is unreachable. *)
Definition sample_unconnected : @App unit unit unit unit :=
  {| GRPCSrv :=
       {| grpcapp_server.gRPCServer :=
            {| unaryInt := None; streamInt := None;
               services := [reflection_Register; RegisterManagementServer] |};
          grpcapp_server.port := 50051;
          grpcapp_server.authInterceptor := None |};
     SSOClient := None |}.

End app.

(** ** Observing the application

    What a connection attempt made at a clock reading is handed and
    answers, the client built on a connection, and what a server does with
    the calls it receives. *)

Module appObserve.
Import GoNum transport effects grpcInt grpcserver observe app.

Definition store_of {A : Type} (m : M A) (s : Store) : Store := (m s).1.2.

Definition attempt_ctx (T : Duration) (now : Time) : Context :=
  WithTimeout Background T now.

Definition attempt_opts (insecure : bool) : list sso.DialOption :=
  if insecure then [sso.WithInsecureTransportCredentials] else [].

Definition attempt (dial : sso.Dialer) (cfg : Config) (now : Time) : Result sso.ClientConn :=
  dial (attempt_ctx (SSO_timeout cfg) now) (SSO_address cfg) (attempt_opts (SSO_insecure cfg)).

Definition client_of (cc : sso.ClientConn) : sso.Client :=
  {| sso.userClient := sso.NewUserClient cc; sso.conn := Some cc |}.

(** The store [time.Sleep(d)] leaves. *)
Definition after_Sleep (late : Time -> Duration -> N) (d : Duration) (s : Store) : Store :=
  store_of (time_Sleep late d) s.

(** The identity service answers no connection attempt, whenever made;
    and it answers every attempt made at [T] or later. *)
Definition never_up (dial : sso.Dialer) (cfg : Config) : Prop :=
  forall now, exists err, attempt dial cfg now = Err err.

Definition up_from (dial : sso.Dialer) (cfg : Config) (T : Time) : Prop :=
  forall now, T <= now -> exists cc, attempt dial cfg now = Ok cc.

(** The connection attempts among events, counted. *)
Definition dials (ev : list Event) : nat := length (List.filter is_Dial ev).

Section Serving.
Context {Req Resp Srv Raw : Type}.

(** The server runs every handler directly, on the call as it arrived:
    no credential is asked for and no limiter consulted. *)
Definition unprotected (srv : @Server Req Resp Srv Raw) : Prop :=
  (forall ctx req info handler, serveUnary srv ctx req info handler = handler ctx req) /\
  (forall server stream info handler,
     serveStream srv server stream info handler = handler server stream).

(** The server runs every handler through the interceptor [i]. *)
Definition protected_by (srv : @Server Req Resp Srv Raw) (i : AuthInterceptor) : Prop :=
  (forall ctx req info handler,
     serveUnary srv ctx req info handler = UnaryInterceptor i ctx req info handler) /\
  (forall server stream info handler,
     serveStream srv server stream info handler = StreamInterceptor i server stream info handler).

End Serving.

End appObserve.

(** ** internal/domain/models *)

Module models.
Import GoNum.

(** A [float64] as far as the plan layers look at one: they compare a
    price with zero and pass it on. *)
Inductive Float : Type := Finite (q : Q) | PosInf | NegInf | NaN.

(** [x < 0]. *)
Definition Float_ltz (x : Float) : bool :=
  match x with
  | Finite q => negb (Qle_bool 0 q)
  | NegInf => true
  | PosInf | NaN => false
  end.

Module Plan.
Record t : Type := mk {
  ID : Z;
  Name : string;
  CPU : Z;
  RAMMB : Z;
  DiskGB : Z;
  PriceMonth : Float;
  IsActive : bool;
  CreatedAt : Time
}.
End Plan.

Module CreatePlanRequest.
Record t : Type := mk {
  Name : string;
  CPU : Z;
  RAMMB : Z;
  DiskGB : Z;
  PriceMonth : Float
}.
End CreatePlanRequest.

(** The optional fields are pointers: [None] for nil. *)
Module UpdatePlanRequest.
Record t : Type := mk {
  ID : Z;
  Name : option string;
  CPU : option Z;
  RAMMB : option Z;
  DiskGB : option Z;
  PriceMonth : option Float;
  IsActive : option bool
}.
End UpdatePlanRequest.

End models.

(** ** Go errors as the plan layers make and test them *)

Module goerrors.

(** The sentinels the plan layers test for: [repository.ErrPlanNotFound]
    and [pgx.ErrNoRows]. *)
Inductive Sentinel : Type := ErrPlanNotFound | ErrNoRows.

#[global] Instance Sentinel_eq_dec : EqDecision Sentinel.
Proof. solve_decision. Defined.

(** An [error]: a sentinel, an error with a text of its own
    ([errors.New], [fmt.Errorf] without [%w], a driver's error), an error
    wrapped by [fmt.Errorf("%s: %w", prefix, err)], or a status error. *)
Inductive error : Type :=
| Sentinel_error (s : Sentinel)
| New (msg : string)
| Wrap (prefix : string) (err : error)
| Status (code : transport.Code) (msg : string).

(** [errors.Is(err, target)] for a sentinel [target]. *)
Fixpoint Is (err : error) (target : Sentinel) : bool :=
  match err with
  | Sentinel_error s => bool_decide (s = target)
  | Wrap _ inner => Is inner target
  | New _ | Status _ _ => false
  end.

Section Text.
(** The texts of the sentinels, declared outside this repository's
    sources. *)
Variable text : Sentinel -> string.

(** [err.Error()]. *)
Fixpoint Error (err : error) : string :=
  match err with
  | Sentinel_error s => text s
  | New msg => msg
  | Wrap prefix inner => prefix ++ ": " ++ Error inner
  | Status c msg => "rpc error: code = " ++ transport.Code_String c ++ " desc = " ++ msg
  end.

End Text.

(** A result pair [(value, err)]: the value when [err == nil]. *)
Inductive Result (A : Type) : Type :=
| Ok (a : A)
| Err (e : error).
Arguments Ok {A} a.
Arguments Err {A} e.

End goerrors.

(** ** Effects of the plan layers

    What a call on the plan layers can touch: the database behind the
    pool and the wall clock; and what it leaves behind: log records, the
    calls made through the repository interface, and the statements sent
    to the pool. *)

Module planM.
Import GoNum goerrors models.

(** [slog.String], [slog.Int], [slog.Bool]. *)
Inductive Attr : Type :=
| slog_String (key value : string)
| slog_Int (key : string) (value : Z)
| slog_Bool (key : string) (value : bool).

(** The methods of [repository.PlanRepository]. *)
Inductive Method : Type := RepoCreate | RepoGetByID | RepoUpdate | RepoDelete | RepoList.

(** The arguments of a statement. *)
Inductive Arg : Type :=
| ArgString (s : string)
| ArgInt32 (n : Z)
| ArgFloat (x : Float)
| ArgBool (b : bool)
| ArgTime (t : Time).

Inductive Event : Type :=
| EvLog (level : effects.Level) (msg : string) (attrs : list Attr)
| EvRepo (method : Method)
| EvQueryRow (sql : string) (args : list Arg)
| EvExec (sql : string) (args : list Arg)
| EvQuery (sql : string) (args : list Arg).

Section Monad.
Context {DB : Type}.

Record World : Type := mkWorld {
  db : DB;
  wall : Time
}.

Definition P (A : Type) : Type := World -> (A * World) * list Event.

Definition ret {A} (a : A) : P A := fun w => ((a, w), []).

Definition bind {A B} (m : P A) (f : A -> P B) : P B :=
  fun w =>
    let '((a, w1), t1) := m w in
    let '((b, w2), t2) := f a w1 in
    ((b, w2), t1 ++ t2).

Definition emit (e : Event) : P unit := fun w => ((tt, w), [e]).

(** [time.Now()]. *)
Definition time_Now : P Time := fun w => ((wall w, w), []).

(** A record written through a logger made by [log.With(with...)]. *)
Definition log_at (level : effects.Level) (with_attrs : list Attr) (msg : string)
    (attrs : list Attr) : P unit :=
  emit (EvLog level msg (with_attrs ++ attrs)).

End Monad.

Arguments World DB : clear implicits.
Arguments P DB A : clear implicits.

End planM.

Declare Scope plan_scope.
Delimit Scope plan_scope with plan.
Notation "x <- m ;; k" := (planM.bind m (fun x => k))
  (at level 100, m at next level, k at level 200, right associativity, only parsing) : plan_scope.
Notation "m ;; k" := (planM.bind m (fun _ => k))
  (at level 100, k at level 200, right associativity, only parsing) : plan_scope.

(** ** internal/repository and internal/service: the interfaces *)

Module repository.
Import GoNum goerrors models planM.

Section Interfaces.
Context {DB : Type}.

(** [repository.PlanRepository], as its users call it. *)
Record PlanRepository : Type := mkPlanRepository {
  repo_Create : transport.Context -> CreatePlanRequest.t -> P DB (Result Plan.t);
  repo_GetByID : transport.Context -> Z -> P DB (Result Plan.t);
  repo_Update : transport.Context -> UpdatePlanRequest.t -> P DB (Result Plan.t);
  repo_Delete : transport.Context -> Z -> P DB (option error);
  repo_List : transport.Context -> bool -> P DB (Result (list Plan.t))
}.

(** [service.PlanService], as the handlers call it. *)
Record PlanService : Type := mkPlanService {
  svc_Create : transport.Context -> CreatePlanRequest.t -> P DB (Result Plan.t);
  svc_GetByID : transport.Context -> Z -> P DB (Result Plan.t);
  svc_Update : transport.Context -> UpdatePlanRequest.t -> P DB (Result Plan.t);
  svc_Delete : transport.Context -> Z -> P DB (option error);
  svc_List : transport.Context -> bool -> P DB (Result (list Plan.t))
}.

End Interfaces.

Arguments PlanRepository DB : clear implicits.
Arguments PlanService DB : clear implicits.

End repository.

(** ** internal/repository/postgres: the plan repository over a pool *)

Module postgresPlans.
Import GoNum goerrors models planM repository.
Local Open Scope plan_scope.

Definition nl : string := String (ascii_of_nat 10) EmptyString.
Definition tab : string := String (ascii_of_nat 9) EmptyString.

(** What iterating over [pgx.Rows] gives: the outcome of [Scan] on each
    row [Next] delivers, and what [Err] reports at the end. *)
Record Rows : Type := mkRows {
  scans : list (Result Plan.t);
  rows_Err : option error
}.

Section Repository.
Context {DB : Type}.

(** [pgxpool.Pool]: [QueryRow(...).Scan(...)] into a plan, [Exec] with
    the number of rows affected, [Query]. *)
Record Pool : Type := mkPool {
  pool_QueryRow : transport.Context -> string -> list Arg -> DB -> Result Plan.t * DB;
  pool_Exec : transport.Context -> string -> list Arg -> DB -> Result Z * DB;
  pool_Query : transport.Context -> string -> list Arg -> DB -> Result Rows * DB
}.

Definition QueryRow (pool : Pool) (ctx : transport.Context) (sql : string) (args : list Arg)
  : P DB (Result Plan.t) :=
  fun w =>
    let '(r, d) := pool_QueryRow pool ctx sql args (db w) in
    ((r, {| db := d; wall := wall w |}), [EvQueryRow sql args]).

Definition Exec (pool : Pool) (ctx : transport.Context) (sql : string) (args : list Arg)
  : P DB (Result Z) :=
  fun w =>
    let '(r, d) := pool_Exec pool ctx sql args (db w) in
    ((r, {| db := d; wall := wall w |}), [EvExec sql args]).

Definition Query (pool : Pool) (ctx : transport.Context) (sql : string) (args : list Arg)
  : P DB (Result Rows) :=
  fun w =>
    let '(r, d) := pool_Query pool ctx sql args (db w) in
    ((r, {| db := d; wall := wall w |}), [EvQuery sql args]).

Definition columns : string :=
  "id, name, cpu, ram_mb, disk_gb, price_month, is_active, created_at".

(** [PlanRepository.Create]. *)
Definition Create (pool : Pool) (ctx : transport.Context) (req : CreatePlanRequest.t)
  : P DB (Result Plan.t) :=
  let op := "repository.postgres.PlanRepository.Create" in
  let query : string :=
    (nl ++ tab ++ tab
    ++ "INSERT INTO plans (name, cpu, ram_mb, disk_gb, price_month, is_active, created_at)"
    ++ nl ++ tab ++ tab ++ "VALUES ($1, $2, $3, $4, $5, true, $6)"
    ++ nl ++ tab ++ tab ++ "RETURNING " ++ columns
    ++ nl ++ tab)%string in
  now <- time_Now ;;
  r <- QueryRow pool ctx query
         [ArgString (CreatePlanRequest.Name req);
          ArgInt32 (CreatePlanRequest.CPU req);
          ArgInt32 (CreatePlanRequest.RAMMB req);
          ArgInt32 (CreatePlanRequest.DiskGB req);
          ArgFloat (CreatePlanRequest.PriceMonth req);
          ArgTime now] ;;
  match r with
  | Err err => ret (Err (Wrap op err))
  | Ok plan => ret (Ok plan)
  end.

(** [PlanRepository.GetByID]. *)
Definition GetByID (pool : Pool) (ctx : transport.Context) (id : Z) : P DB (Result Plan.t) :=
  let op := "repository.postgres.PlanRepository.GetByID" in
  let query : string :=
    (nl ++ tab ++ tab ++ "SELECT " ++ columns
    ++ nl ++ tab ++ tab ++ "FROM plans"
    ++ nl ++ tab ++ tab ++ "WHERE id = $1"
    ++ nl ++ tab)%string in
  r <- QueryRow pool ctx query [ArgInt32 id] ;;
  match r with
  | Err err =>
      if Is err ErrNoRows then ret (Err (Sentinel_error ErrPlanNotFound))
      else ret (Err (Wrap op err))
  | Ok plan => ret (Ok plan)
  end.

(** The three variables the clauses of [Update] are collected in. *)
Record Building : Type := mkBuilding {
  setClauses : list string;
  args : list Arg;
  argIndex : Z
}.

(** One [if req.Field != nil { ... }] of [Update], for the column
    [column]. *)
Definition add_clause (column : string) (field : option Arg) (b : Building) : Building :=
  match field with
  | Some v =>
      {| setClauses := setClauses b ++ [(column ++ " = $" ++ pretty (argIndex b))%string];
         args := args b ++ [v];
         argIndex := argIndex b + 1 |}
  | None => b
  end.

Definition build (req : UpdatePlanRequest.t) : Building :=
  let b := {| setClauses := []; args := []; argIndex := 1 |} in
  let b := add_clause "name" (ArgString <$> UpdatePlanRequest.Name req) b in
  let b := add_clause "cpu" (ArgInt32 <$> UpdatePlanRequest.CPU req) b in
  let b := add_clause "ram_mb" (ArgInt32 <$> UpdatePlanRequest.RAMMB req) b in
  let b := add_clause "disk_gb" (ArgInt32 <$> UpdatePlanRequest.DiskGB req) b in
  let b := add_clause "price_month" (ArgFloat <$> UpdatePlanRequest.PriceMonth req) b in
  add_clause "is_active" (ArgBool <$> UpdatePlanRequest.IsActive req) b.

(** [strings.Join(elems, sep)]. *)
Fixpoint Join (elems : list string) (sep : string) : string :=
  match elems with
  | [] => ""
  | [e] => e
  | e :: rest => e ++ sep ++ Join rest sep
  end.

(** [PlanRepository.Update]. *)
Definition Update (pool : Pool) (ctx : transport.Context) (req : UpdatePlanRequest.t)
  : P DB (Result Plan.t) :=
  let op := "repository.postgres.PlanRepository.Update" in
  let b := build req in
  if (length (setClauses b) =? 0)%nat then GetByID pool ctx (UpdatePlanRequest.ID req)
  else
    let args := args b ++ [ArgInt32 (UpdatePlanRequest.ID req)] in
    let query : string :=
    (nl ++ tab ++ tab ++ "UPDATE plans"
      ++ nl ++ tab ++ tab ++ "SET " ++ Join (setClauses b) ", "
      ++ nl ++ tab ++ tab ++ "WHERE id = $" ++ pretty (argIndex b)
      ++ nl ++ tab ++ tab ++ "RETURNING " ++ columns
      ++ nl ++ tab)%string in
    r <- QueryRow pool ctx query args ;;
    match r with
    | Err err =>
        if Is err ErrNoRows then ret (Err (Sentinel_error ErrPlanNotFound))
        else ret (Err (Wrap op err))
    | Ok plan => ret (Ok plan)
    end.

(** [PlanRepository.Delete]. *)
Definition Delete (pool : Pool) (ctx : transport.Context) (id : Z) : P DB (option error) :=
  let op := "repository.postgres.PlanRepository.Delete" in
  let query := "DELETE FROM plans WHERE id = $1" in
  r <- Exec pool ctx query [ArgInt32 id] ;;
  match r with
  | Err err => ret (Some (Wrap op err))
  | Ok rowsAffected =>
      if rowsAffected =? 0 then ret (Some (Sentinel_error ErrPlanNotFound))
      else ret None
  end.

(** The loop [for rows.Next() { ... }] of [List]: the plans scanned so
    far, or the first error of a [Scan]. *)
Fixpoint scan_all (op : string) (scans : list (Result Plan.t)) (plans : list Plan.t)
  : Result (list Plan.t) :=
  match scans with
  | [] => Ok plans
  | Err err :: _ => Err (Wrap op err)
  | Ok plan :: rest => scan_all op rest (plans ++ [plan])
  end.

(** [PlanRepository.List]. *)
Definition List (pool : Pool) (ctx : transport.Context) (activeOnly : bool)
  : P DB (Result (list Plan.t)) :=
  let op := "repository.postgres.PlanRepository.List" in
  let query : string :=
    (if activeOnly then
      nl ++ tab ++ tab ++ tab ++ "SELECT " ++ columns
      ++ nl ++ tab ++ tab ++ tab ++ "FROM plans"
      ++ nl ++ tab ++ tab ++ tab ++ "WHERE is_active = true"
      ++ nl ++ tab ++ tab ++ tab ++ "ORDER BY id"
      ++ nl ++ tab ++ tab
    else
      nl ++ tab ++ tab ++ tab ++ "SELECT " ++ columns
      ++ nl ++ tab ++ tab ++ tab ++ "FROM plans"
      ++ nl ++ tab ++ tab ++ tab ++ "ORDER BY id"
      ++ nl ++ tab ++ tab)%string in
  r <- Query pool ctx query [] ;;
  match r with
  | Err err => ret (Err (Wrap op err))
  | Ok rows =>
      match scan_all op (scans rows) [] with
      | Err err => ret (Err err)
      | Ok plans =>
          match rows_Err rows with
          | Some err => ret (Err (Wrap op err))
          | None => ret (Ok plans)
          end
      end
  end.

(** [NewPlanRepository], seen through the interface. *)
Definition NewPlanRepository (pool : Pool) : PlanRepository DB :=
  {| repo_Create := Create pool;
     repo_GetByID := GetByID pool;
     repo_Update := Update pool;
     repo_Delete := Delete pool;
     repo_List := List pool |}.

End Repository.

Arguments Pool DB : clear implicits.

End postgresPlans.

(** ** internal/service/plan *)

Module planService.
Import GoNum goerrors models planM repository.
Import effects(LevelDebug, LevelInfo, LevelWarn, LevelError).
Local Open Scope plan_scope.

Section Service.
Context {DB : Type}.
Variable text : Sentinel -> string.

(** A call through the repository interface. *)
Definition through {A : Type} (method : Method) (call : P DB A) : P DB A :=
  emit (EvRepo method) ;; call.

(** [Service.Create]. *)
Definition Create (planRepo : PlanRepository DB) (ctx : transport.Context)
    (req : CreatePlanRequest.t) : P DB (Result Plan.t) :=
  let op := "service.plan.Create" in
  let log := [slog_String "op" op; slog_String "name" (CreatePlanRequest.Name req)] in
  log_at LevelInfo log "creating new plan" [] ;;
  if String.eqb (CreatePlanRequest.Name req) "" then
    ret (Err (New (op ++ ": name is required")))
  else if CreatePlanRequest.CPU req <=? 0 then
    ret (Err (New (op ++ ": cpu must be positive")))
  else if CreatePlanRequest.RAMMB req <=? 0 then
    ret (Err (New (op ++ ": ram_mb must be positive")))
  else if CreatePlanRequest.DiskGB req <=? 0 then
    ret (Err (New (op ++ ": disk_gb must be positive")))
  else if Float_ltz (CreatePlanRequest.PriceMonth req) then
    ret (Err (New (op ++ ": price_month must be non-negative")))
  else
    r <- through RepoCreate (repo_Create planRepo ctx req) ;;
    match r with
    | Err err =>
        log_at LevelError log "failed to create plan" [slog_String "error" (Error text err)] ;;
        ret (Err (Wrap op err))
    | Ok plan =>
        log_at LevelInfo log "plan created successfully" [slog_Int "id" (Plan.ID plan)] ;;
        ret (Ok plan)
    end.

(** [Service.GetByID]. *)
Definition GetByID (planRepo : PlanRepository DB) (ctx : transport.Context) (id : Z)
  : P DB (Result Plan.t) :=
  let op := "service.plan.GetByID" in
  let log := [slog_String "op" op; slog_Int "id" id] in
  log_at LevelDebug log "getting plan by id" [] ;;
  r <- through RepoGetByID (repo_GetByID planRepo ctx id) ;;
  match r with
  | Err err =>
      if Is err ErrPlanNotFound then
        log_at LevelWarn log "plan not found" [] ;;
        ret (Err (Sentinel_error ErrPlanNotFound))
      else
        log_at LevelError log "failed to get plan" [slog_String "error" (Error text err)] ;;
        ret (Err (Wrap op err))
  | Ok plan => ret (Ok plan)
  end.

(** [p != nil && bad(v)], for the value [v] that [p] points to. *)
Definition present_and {A : Type} (p : option A) (bad : A -> bool) : bool :=
  match p with
  | Some v => bad v
  | None => false
  end.

(** [Service.Update]. *)
Definition Update (planRepo : PlanRepository DB) (ctx : transport.Context)
    (req : UpdatePlanRequest.t) : P DB (Result Plan.t) :=
  let op := "service.plan.Update" in
  let log := [slog_String "op" op; slog_Int "id" (UpdatePlanRequest.ID req)] in
  log_at LevelInfo log "updating plan" [] ;;
  if UpdatePlanRequest.ID req <=? 0 then
    ret (Err (New (op ++ ": invalid plan id")))
  else if present_and (UpdatePlanRequest.Name req) (fun v => String.eqb v "") then
    ret (Err (New (op ++ ": name cannot be empty")))
  else if present_and (UpdatePlanRequest.CPU req) (fun v => v <=? 0) then
    ret (Err (New (op ++ ": cpu must be positive")))
  else if present_and (UpdatePlanRequest.RAMMB req) (fun v => v <=? 0) then
    ret (Err (New (op ++ ": ram_mb must be positive")))
  else if present_and (UpdatePlanRequest.DiskGB req) (fun v => v <=? 0) then
    ret (Err (New (op ++ ": disk_gb must be positive")))
  else if present_and (UpdatePlanRequest.PriceMonth req) Float_ltz then
    ret (Err (New (op ++ ": price_month must be non-negative")))
  else
    r <- through RepoUpdate (repo_Update planRepo ctx req) ;;
    match r with
    | Err err =>
        if Is err ErrPlanNotFound then
          log_at LevelWarn log "plan not found for update" [] ;;
          ret (Err (Sentinel_error ErrPlanNotFound))
        else
          log_at LevelError log "failed to update plan"
            [slog_String "error" (Error text err)] ;;
          ret (Err (Wrap op err))
    | Ok plan =>
        log_at LevelInfo log "plan updated successfully" [] ;;
        ret (Ok plan)
    end.

(** [Service.Delete]. *)
Definition Delete (planRepo : PlanRepository DB) (ctx : transport.Context) (id : Z)
  : P DB (option error) :=
  let op := "service.plan.Delete" in
  let log := [slog_String "op" op; slog_Int "id" id] in
  log_at LevelInfo log "deleting plan" [] ;;
  if id <=? 0 then ret (Some (New (op ++ ": invalid plan id")))
  else
    r <- through RepoDelete (repo_Delete planRepo ctx id) ;;
    match r with
    | Some err =>
        if Is err ErrPlanNotFound then
          log_at LevelWarn log "plan not found for deletion" [] ;;
          ret (Some (Sentinel_error ErrPlanNotFound))
        else
          log_at LevelError log "failed to delete plan"
            [slog_String "error" (Error text err)] ;;
          ret (Some (Wrap op err))
    | None =>
        log_at LevelInfo log "plan deleted successfully" [] ;;
        ret None
    end.

(** [Service.List]. *)
Definition List (planRepo : PlanRepository DB) (ctx : transport.Context) (activeOnly : bool)
  : P DB (Result (list Plan.t)) :=
  let op := "service.plan.List" in
  let log := [slog_String "op" op; slog_Bool "activeOnly" activeOnly] in
  log_at LevelDebug log "listing plans" [] ;;
  r <- through RepoList (repo_List planRepo ctx activeOnly) ;;
  match r with
  | Err err =>
      log_at LevelError log "failed to list plans" [slog_String "error" (Error text err)] ;;
      ret (Err (Wrap op err))
  | Ok plans =>
      log_at LevelDebug log "plans listed successfully"
        [slog_Int "count" (Z.of_nat (length plans))] ;;
      ret (Ok plans)
  end.

(** [plan.New], seen through the interface. *)
Definition New (planRepo : PlanRepository DB) : PlanService DB :=
  {| svc_Create := Create planRepo;
     svc_GetByID := GetByID planRepo;
     svc_Update := Update planRepo;
     svc_Delete := Delete planRepo;
     svc_List := List planRepo |}.

End Service.

End planService.

(** ** The messages of [managementv1] the plan handlers read and write *)

Module managementv1.
Import GoNum models.

(** [timestamppb.Timestamp]. *)
Record Timestamp : Type := mkTimestamp {
  Seconds : Z;
  Nanos : Z
}.

Module Plan.
Record t : Type := mk {
  Id : Z;
  Name : string;
  Cpu : Z;
  RamMb : Z;
  DiskGb : Z;
  PriceMonth : Float;
  IsActive : bool;
  CreatedAt : Timestamp
}.
End Plan.

Module CreatePlanRequest.
Record t : Type := mk {
  Name : string;
  Cpu : Z;
  RamMb : Z;
  DiskGb : Z;
  PriceMonth : Float
}.
End CreatePlanRequest.

Module UpdatePlanRequest.
Record t : Type := mk {
  Id : Z;
  Name : option string;
  Cpu : option Z;
  RamMb : option Z;
  DiskGb : option Z;
  PriceMonth : option Float;
  IsActive : option bool
}.
End UpdatePlanRequest.

Record GetPlanRequest : Type := mkGetPlanRequest { Id : Z }.
Record ListPlansRequest : Type := mkListPlansRequest { ActiveOnly : bool }.
Record ListPlansResponse : Type := mkListPlansResponse { Plans : list Plan.t }.

(** [emptypb.Empty]. *)
Inductive Empty : Type := mkEmpty.

End managementv1.

(** ** internal/grpc: the plan handlers *)

Module planAPI.
Import GoNum goerrors models planM repository.
Import effects(LevelDebug, LevelInfo, LevelWarn, LevelError).
Import transport(Internal, NotFound).
Local Open Scope plan_scope.

(** [timestamppb.New(t)] for a time [t] in nanoseconds since the epoch. *)
Definition timestamppb_New (t : Time) : managementv1.Timestamp :=
  {| managementv1.Seconds := t / 1000000000; managementv1.Nanos := t mod 1000000000 |}.

(** [planToProto]. *)
Definition planToProto (plan : Plan.t) : managementv1.Plan.t :=
  {| managementv1.Plan.Id := Plan.ID plan;
     managementv1.Plan.Name := Plan.Name plan;
     managementv1.Plan.Cpu := Plan.CPU plan;
     managementv1.Plan.RamMb := Plan.RAMMB plan;
     managementv1.Plan.DiskGb := Plan.DiskGB plan;
     managementv1.Plan.PriceMonth := Plan.PriceMonth plan;
     managementv1.Plan.IsActive := Plan.IsActive plan;
     managementv1.Plan.CreatedAt := timestamppb_New (Plan.CreatedAt plan) |}.

Section Handlers.
Context {DB : Type}.
Variable text : Sentinel -> string.

(** [ServerAPI.CreatePlan]. *)
Definition CreatePlan (planService : PlanService DB) (ctx : transport.Context)
    (req : managementv1.CreatePlanRequest.t) : P DB (Result managementv1.Plan.t) :=
  let domainReq :=
    {| CreatePlanRequest.Name := managementv1.CreatePlanRequest.Name req;
       CreatePlanRequest.CPU := managementv1.CreatePlanRequest.Cpu req;
       CreatePlanRequest.RAMMB := managementv1.CreatePlanRequest.RamMb req;
       CreatePlanRequest.DiskGB := managementv1.CreatePlanRequest.DiskGb req;
       CreatePlanRequest.PriceMonth := managementv1.CreatePlanRequest.PriceMonth req |} in
  r <- svc_Create planService ctx domainReq ;;
  match r with
  | Err err => ret (Err (Status Internal ("failed to create plan: " ++ Error text err)))
  | Ok plan => ret (Ok (planToProto plan))
  end.

(** [if p != nil { field = p }] on a field that starts nil. *)
Definition copy_if_set {A : Type} (p : option A) : option A :=
  match p with
  | Some v => Some v
  | None => None
  end.

(** [ServerAPI.UpdatePlan]. *)
Definition UpdatePlan (planService : PlanService DB) (ctx : transport.Context)
    (req : managementv1.UpdatePlanRequest.t) : P DB (Result managementv1.Plan.t) :=
  let domainReq :=
    {| UpdatePlanRequest.ID := managementv1.UpdatePlanRequest.Id req;
       UpdatePlanRequest.Name := copy_if_set (managementv1.UpdatePlanRequest.Name req);
       UpdatePlanRequest.CPU := copy_if_set (managementv1.UpdatePlanRequest.Cpu req);
       UpdatePlanRequest.RAMMB := copy_if_set (managementv1.UpdatePlanRequest.RamMb req);
       UpdatePlanRequest.DiskGB := copy_if_set (managementv1.UpdatePlanRequest.DiskGb req);
       UpdatePlanRequest.PriceMonth :=
         copy_if_set (managementv1.UpdatePlanRequest.PriceMonth req);
       UpdatePlanRequest.IsActive :=
         copy_if_set (managementv1.UpdatePlanRequest.IsActive req) |} in
  r <- svc_Update planService ctx domainReq ;;
  match r with
  | Err err =>
      if Is err ErrPlanNotFound then ret (Err (Status NotFound "plan not found"))
      else ret (Err (Status Internal ("failed to update plan: " ++ Error text err)))
  | Ok plan => ret (Ok (planToProto plan))
  end.

(** [ServerAPI.DeletePlan]. *)
Definition DeletePlan (planService : PlanService DB) (ctx : transport.Context)
    (req : managementv1.GetPlanRequest) : P DB (Result managementv1.Empty) :=
  r <- svc_Delete planService ctx (managementv1.Id req) ;;
  match r with
  | Some err =>
      if Is err ErrPlanNotFound then ret (Err (Status NotFound "plan not found"))
      else ret (Err (Status Internal ("failed to delete plan: " ++ Error text err)))
  | None => ret (Ok managementv1.mkEmpty)
  end.

(** [ServerAPI.GetPlan]. *)
Definition GetPlan (planService : PlanService DB) (ctx : transport.Context)
    (req : managementv1.GetPlanRequest) : P DB (Result managementv1.Plan.t) :=
  r <- svc_GetByID planService ctx (managementv1.Id req) ;;
  match r with
  | Err err =>
      if Is err ErrPlanNotFound then ret (Err (Status NotFound "plan not found"))
      else ret (Err (Status Internal ("failed to get plan: " ++ Error text err)))
  | Ok plan => ret (Ok (planToProto plan))
  end.

(** [ServerAPI.ListPlans]. *)
Definition ListPlans (planService : PlanService DB) (ctx : transport.Context)
    (req : managementv1.ListPlansRequest) : P DB (Result managementv1.ListPlansResponse) :=
  log_at LevelInfo [] "ListPlans called"
    [slog_Bool "active_only" (managementv1.ActiveOnly req)] ;;
  r <- svc_List planService ctx (managementv1.ActiveOnly req) ;;
  match r with
  | Err err => ret (Err (Status Internal ("failed to list plans: " ++ Error text err)))
  | Ok plans => ret (Ok {| managementv1.Plans := map planToProto plans |})
  end.

End Handlers.

End planAPI.

(** ** Observing the plan layers *)

Module planObserve.
Import goerrors planM.

(** The calls made through the repository interface, in order. *)
Definition repo_calls (ev : list Event) : list Method :=
  omap (fun e => match e with EvRepo m => Some m | _ => None end) ev.

(** The statements sent to the pool. *)
Definition is_statement (e : Event) : bool :=
  match e with
  | EvQueryRow _ _ | EvExec _ _ | EvQuery _ _ => true
  | _ => false
  end.

Definition statements (ev : list Event) : list Event := List.filter is_statement ev.

(** The error of a result pair, [None] for nil. *)
Definition error_of {A : Type} (r : Result A) : option error :=
  match r with
  | Ok _ => None
  | Err e => Some e
  end.

(** A status error with one of the given codes. *)
Definition is_status (codes : list transport.Code) (e : error) : Prop :=
  exists c msg, e = Status c msg /\ c ∈ codes.

(** The code of a status error. *)
Definition status_code (e : error) : option transport.Code :=
  match e with
  | Status c _ => Some c
  | _ => None
  end.

(** Events that are neither a repository call nor a statement. *)
Definition quiet (ev : list Event) : Prop := repo_calls ev = [] /\ statements ev = [].

(** What a service method does around the one call it makes through the
    repository interface: [back] is the run of that call, [result] what
    the method makes of its answer. *)
Definition around {DB A B : Type} (method : Method) (back : (A * World DB) * list Event)
    (result : B) (out : (B * World DB) * list Event) : Prop :=
  exists before after,
    out = ((result, back.1.2), before ++ EvRepo method :: back.2 ++ after) /\
    quiet before /\ quiet after.

(** The requests that pass the checks of [Create] and of [Update]. *)
Definition valid_create (req : models.CreatePlanRequest.t) : Prop :=
  models.CreatePlanRequest.Name req <> "" /\
  0 < models.CreatePlanRequest.CPU req /\
  0 < models.CreatePlanRequest.RAMMB req /\
  0 < models.CreatePlanRequest.DiskGB req /\
  models.Float_ltz (models.CreatePlanRequest.PriceMonth req) = false.

Definition valid_update (req : models.UpdatePlanRequest.t) : Prop :=
  0 < models.UpdatePlanRequest.ID req /\
  (forall v, models.UpdatePlanRequest.Name req = Some v -> v <> "") /\
  (forall v, models.UpdatePlanRequest.CPU req = Some v -> 0 < v) /\
  (forall v, models.UpdatePlanRequest.RAMMB req = Some v -> 0 < v) /\
  (forall v, models.UpdatePlanRequest.DiskGB req = Some v -> 0 < v) /\
  (forall v, models.UpdatePlanRequest.PriceMonth req = Some v -> models.Float_ltz v = false).

(** The error a method returns for the error [e0] of the repository:
    the bare sentinel when [e0] is a not-found, [e0] wrapped otherwise. *)
Definition normalised (op : string) (e0 : error) : error :=
  if Is e0 ErrPlanNotFound then Sentinel_error ErrPlanNotFound else Wrap op e0.

(** The requests the handlers hand to the service. *)
Definition domain_create (req : managementv1.CreatePlanRequest.t) : models.CreatePlanRequest.t :=
  {| models.CreatePlanRequest.Name := managementv1.CreatePlanRequest.Name req;
     models.CreatePlanRequest.CPU := managementv1.CreatePlanRequest.Cpu req;
     models.CreatePlanRequest.RAMMB := managementv1.CreatePlanRequest.RamMb req;
     models.CreatePlanRequest.DiskGB := managementv1.CreatePlanRequest.DiskGb req;
     models.CreatePlanRequest.PriceMonth := managementv1.CreatePlanRequest.PriceMonth req |}.

Definition domain_update (req : managementv1.UpdatePlanRequest.t) : models.UpdatePlanRequest.t :=
  {| models.UpdatePlanRequest.ID := managementv1.UpdatePlanRequest.Id req;
     models.UpdatePlanRequest.Name := managementv1.UpdatePlanRequest.Name req;
     models.UpdatePlanRequest.CPU := managementv1.UpdatePlanRequest.Cpu req;
     models.UpdatePlanRequest.RAMMB := managementv1.UpdatePlanRequest.RamMb req;
     models.UpdatePlanRequest.DiskGB := managementv1.UpdatePlanRequest.DiskGb req;
     models.UpdatePlanRequest.PriceMonth := managementv1.UpdatePlanRequest.PriceMonth req;
     models.UpdatePlanRequest.IsActive := managementv1.UpdatePlanRequest.IsActive req |}.

(** The code a handler that tells not-found apart gives an error. *)
Definition code_for (e : error) : transport.Code :=
  if Is e ErrPlanNotFound then transport.NotFound else transport.Internal.

(** The value a request carries for a column of the plans table. *)
Definition field_of (req : models.UpdatePlanRequest.t) (column : string) : option Arg :=
  if String.eqb column "name" then ArgString <$> models.UpdatePlanRequest.Name req
  else if String.eqb column "cpu" then ArgInt32 <$> models.UpdatePlanRequest.CPU req
  else if String.eqb column "ram_mb" then ArgInt32 <$> models.UpdatePlanRequest.RAMMB req
  else if String.eqb column "disk_gb" then ArgInt32 <$> models.UpdatePlanRequest.DiskGB req
  else if String.eqb column "price_month" then
    ArgFloat <$> models.UpdatePlanRequest.PriceMonth req
  else if String.eqb column "is_active" then ArgBool <$> models.UpdatePlanRequest.IsActive req
  else None.

(** What the clauses collected so far satisfy. *)
Definition lined_up (req : models.UpdatePlanRequest.t) (n : nat) (b : postgresPlans.Building)
  : Prop :=
  length (postgresPlans.setClauses b) = length (postgresPlans.args b) /\
  (length (postgresPlans.args b) <= n)%nat /\
  postgresPlans.argIndex b = Z.of_nat (length (postgresPlans.args b)) + 1 /\
  forall k clause,
    postgresPlans.setClauses b !! k = Some clause ->
    exists column v,
      clause = (column ++ " = $" ++ pretty (Z.of_nat k + 1))%string /\
      postgresPlans.args b !! k = Some v /\
      field_of req column = Some v.

(** No field of the request is set. *)
Definition nothing_to_update (req : models.UpdatePlanRequest.t) : Prop :=
  models.UpdatePlanRequest.Name req = None /\
  models.UpdatePlanRequest.CPU req = None /\
  models.UpdatePlanRequest.RAMMB req = None /\
  models.UpdatePlanRequest.DiskGB req = None /\
  models.UpdatePlanRequest.PriceMonth req = None /\
  models.UpdatePlanRequest.IsActive req = None.

(** Sentinel texts, for the examples. *)
Definition sample_text (s : Sentinel) : string :=
  match s with
  | ErrPlanNotFound => "plan not found"
  | ErrNoRows => "no rows in result set"
  end.

End planObserve.

(** ** pkg/database/postgres: the configuration of the pool *)

Module pgconfig.
Import GoNum.

Definition Hour : Duration := 60 * Minute.

Definition defaultMaxConns : Z := 25.
Definition defaultMinConns : Z := 5.
Definition defaultMaxConnLifetime : Duration := Hour.
Definition defaultMaxConnIdleTime : Duration := Minute * 30.
Definition defaultHealthCheckPeriod : Duration := Minute.
Definition defaultConnectTimeout : Duration := Second * 5.

Record Config : Type := mkConfig {
  Host : string;
  Port : string;
  User : string;
  Password : string;
  DBName : string;
  SSLMode : string;
  MaxConns : Z;
  MinConns : Z;
  MaxConnLifetime : Duration;
  MaxConnIdleTime : Duration;
  HealthCheckPeriod : Duration;
  ConnectTimeout : Duration
}.

(** [Config.DSN]. *)
Definition DSN (c : Config) : string :=
  "postgres://" ++ User c ++ ":" ++ Password c ++ "@" ++ Host c ++ ":" ++ Port c
  ++ "/" ++ DBName c ++ "?sslmode=" ++ SSLMode c.

(** [Config.setDefaults]: each test reads and writes its own field only,
    so the seven assignments are written as one record. *)
Definition setDefaults (c : Config) : Config :=
  {| Host := Host c;
     Port := Port c;
     User := User c;
     Password := Password c;
     DBName := DBName c;
     SSLMode := if String.eqb (SSLMode c) "" then "disable" else SSLMode c;
     MaxConns := if MaxConns c =? 0 then defaultMaxConns else MaxConns c;
     MinConns := if MinConns c =? 0 then defaultMinConns else MinConns c;
     MaxConnLifetime :=
       if MaxConnLifetime c =? 0 then defaultMaxConnLifetime else MaxConnLifetime c;
     MaxConnIdleTime :=
       if MaxConnIdleTime c =? 0 then defaultMaxConnIdleTime else MaxConnIdleTime c;
     HealthCheckPeriod :=
       if HealthCheckPeriod c =? 0 then defaultHealthCheckPeriod else HealthCheckPeriod c;
     ConnectTimeout :=
       if ConnectTimeout c =? 0 then defaultConnectTimeout else ConnectTimeout c |}.

End pgconfig.

(** ** pkg/database/postgres: connecting

    The pool library is a driver that answers three calls; what [New]
    asks of it, and the records it logs, are events. *)

Module pgpool.
Import GoNum goerrors pgconfig.

Inductive Event : Type :=
| EvParseConfig (dsn : string)
| EvNewWithConfig (settings : Config)
| EvPing
| EvPoolClose
| EvLog (level : effects.Level) (msg : string) (attrs : list planM.Attr).

(** [pgxpool.ParseConfig], [pgxpool.NewWithConfig] and [Pool.Ping]: the
    error each returns, [None] for nil. *)
Record Driver : Type := mkDriver {
  ParseConfig : string -> option error;
  NewWithConfig : transport.Context -> Config -> option error;
  Ping : transport.Context -> option error
}.

(** [Database]: the pool, created with the settings of [cfg]. *)
Record Database : Type := mkDatabase { cfg : Config }.

(** [New]: the result, the configuration the caller's pointer holds
    afterwards, and the events. *)
Definition New (driver : Driver) (ctx : transport.Context) (cfg : Config)
  : (Result Database * Config) * list Event :=
  let cfg := setDefaults cfg in
  match ParseConfig driver (DSN cfg) with
  | Some err =>
      ((Err (Wrap "postgres: failed to parse config" err), cfg), [EvParseConfig (DSN cfg)])
  | None =>
      match NewWithConfig driver ctx cfg with
      | Some err =>
          ((Err (Wrap "postgres: failed to create pool" err), cfg),
           [EvParseConfig (DSN cfg); EvNewWithConfig cfg])
      | None =>
          let db := {| cfg := cfg |} in
          match Ping driver ctx with
          | Some err =>
              ((Err (Wrap "postgres: failed to ping" err), cfg),
               [EvParseConfig (DSN cfg); EvNewWithConfig cfg; EvPing; EvPoolClose])
          | None =>
              ((Ok db, cfg),
               [EvParseConfig (DSN cfg); EvNewWithConfig cfg; EvPing;
                EvLog effects.LevelInfo "postgres: connected successfully"
                  [planM.slog_String "host" (Host cfg);
                   planM.slog_String "port" (Port cfg);
                   planM.slog_String "database" (DBName cfg)]])
          end
      end
  end.

(** The pools an event sequence leaves open: those created by a
    [NewWithConfig] that returned no error, less those closed. *)
Definition pools_created (driver : Driver) (ctx : transport.Context) (ev : list Event) : nat :=
  length (List.filter (fun e => match e with
                                | EvNewWithConfig c =>
                                    match NewWithConfig driver ctx c with
                                    | None => true
                                    | Some _ => false
                                    end
                                | _ => false
                                end) ev).

Definition pools_closed (ev : list Event) : nat :=
  length (List.filter (fun e => match e with EvPoolClose => true | _ => false end) ev).

End pgpool.

(** ** internal/config: the database section *)

Module config.
Import GoNum.

Record DatabaseConfig : Type := mkDatabaseConfig {
  Host : string;
  Port : string;
  User : string;
  Password : string;
  DBName : string;
  SSLMode : string;
  MaxConns : Z;
  MinConns : Z;
  MaxConnLifetime : string;
  MaxConnIdleTime : string;
  HealthCheckPeriod : string;
  ConnectTimeout : string
}.

Section Parse.
(** [time.ParseDuration]: the duration, or [None] for an error. *)
Variable ParseDuration : string -> option Duration.

(** [parseDuration]. *)
Definition parseDuration (s : string) (defaultVal : Duration) : Duration :=
  if String.eqb s "" then defaultVal
  else
    match ParseDuration s with
    | None => defaultVal
    | Some d => d
    end.

(** [DatabaseConfig.ToPostgresConfig]. *)
Definition ToPostgresConfig (c : DatabaseConfig) : pgconfig.Config :=
  {| pgconfig.Host := Host c;
     pgconfig.Port := Port c;
     pgconfig.User := User c;
     pgconfig.Password := Password c;
     pgconfig.DBName := DBName c;
     pgconfig.SSLMode := SSLMode c;
     pgconfig.MaxConns := MaxConns c;
     pgconfig.MinConns := MinConns c;
     pgconfig.MaxConnLifetime := parseDuration (MaxConnLifetime c) pgconfig.Hour;
     pgconfig.MaxConnIdleTime := parseDuration (MaxConnIdleTime c) (Minute * 30);
     pgconfig.HealthCheckPeriod := parseDuration (HealthCheckPeriod c) Minute;
     pgconfig.ConnectTimeout := parseDuration (ConnectTimeout c) (Second * 5) |}.

(** The configuration [postgres.New] works with when [main] hands it
    [cfg.Database.ToPostgresConfig()]: the defaults are set first. *)
Definition effective (c : DatabaseConfig) : pgconfig.Config :=
  pgconfig.setDefaults (ToPostgresConfig c).

(** What a duration setting comes to: the parsed duration if there is
    one and it is not zero. *)
Definition configured (s : string) : option Duration :=
  if String.eqb s "" then None
  else
    match ParseDuration s with
    | Some d => if d =? 0 then None else Some d
    | None => None
    end.

End Parse.

End config.

(** * Properties of the limiter *)

Module LimiterFacts.
Import GoNum ratelimiter contract.

(** The scenario of the specification: with rate 10 and capacity 20, of
    25 calls in a row the first 20 are admitted, leaving 19, 18, ..., 0
    tokens, and the last 5 are rejected; one second later a call is
    admitted again and 9 tokens remain. *)
Example burst_of_25 :
  (Allow_burst 25 (New DefaultConfig) "tok1" 0).1
  = map (fun k => (true, k)) (rev (seqZ 0 20)) ++ replicate 5 (false, 0).
Proof. vm_compute. reflexivity. Qed.

Example one_second_after_burst :
  (Allow (Allow_burst 25 (New DefaultConfig) "tok1" 0).2 "tok1" Second).1 = (true, 9).
Proof. vm_compute. reflexivity. Qed.

(** A capacity that the doubling of the rate overflows. *)
Example New_capacity_overflow :
  capacity (New {| Rate := 2 ^ 62; Capacity := 0; CleanupInterval := 0 |}) = int_min.
Proof. vm_compute. reflexivity. Qed.

Lemma wrap_int_id z : valid_int z -> wrap_int z = z.
Proof.
  unfold valid_int, wrap_int, int_min, int_max. intros H.
  rewrite Z.mod_small; lia.
Qed.

























End LimiterFacts.

(** * Properties of the interceptor *)

Module InterceptorFacts.
Import GoNum transport effects grpcInt observe.

(** ** Prefixes *)

Lemma append_String (a : ascii) (p t : string) :
  (String a p ++ t)%string = String a (p ++ t)%string.
Proof. reflexivity. Qed.

Lemma HasPrefix_spec (s p : string) :
  HasPrefix s p = true <-> exists t, s = (p ++ t)%string.
Proof.
  unfold HasPrefix. revert s. induction p as [| a p IH]; intros s.
  - split; [intros _; exists s; reflexivity | intros _; now destruct s].
  - destruct s as [| b s]; simpl.
    + split; [discriminate | intros [t Ht]; rewrite append_String in Ht; discriminate].
    + destruct (Ascii.ascii_dec a b) as [-> | Hne].
      * rewrite IH. split; intros [t Ht]; exists t; rewrite append_String in *; congruence.
      * split; [discriminate | intros [t Ht]; rewrite append_String in Ht; congruence].
Qed.

Lemma string_drop_app (p t : string) : string_drop (String.length p) (p ++ t) = t.
Proof.
  induction p as [| a p IH]; [now destruct t |].
  rewrite append_String. exact IH.
Qed.

Lemma TrimPrefix_app (p t : string) : TrimPrefix (p ++ t) p = t.
Proof.
  unfold TrimPrefix.
  assert (H : HasPrefix (p ++ t) p = true) by (apply HasPrefix_spec; eauto).
  rewrite H. apply string_drop_app.
Qed.

(** ** Generic facts on [rejects] and [forwards] *)

Lemma rejects_not_forwards {A B R : Type} (run : (A -> B -> M R) -> M R)
    (s : Store) (r : R) (s1 : Store) (ev : list Event)
    (a : A) (b : B) (s1' : Store) (ev' : list Event) :
  rejects run s r s1 ev -> forwards run s a b s1' ev' -> False.
Proof.
  intros Hrej Hfwd.
  pose proof (Hfwd (fun _ _ s0 => ((r, s0), []))) as H1.
  pose proof (Hfwd (fun _ _ s0 => ((r, s0), [EvAllow ""]))) as H2.
  rewrite Hrej in H1, H2. simpl in H1, H2.
  assert (Heq : ev' ++ [] = ev' ++ [EvAllow ""]) by congruence.
  apply app_inv_head in Heq. discriminate.
Qed.

Lemma rejects_events {A B R : Type} (run : (A -> B -> M R) -> M R)
    (s : Store) (r : R) (s1 : Store) (ev : list Event) (h : A -> B -> M R) :
  rejects run s r s1 ev -> events_of (run h) s = ev /\ result_of (run h) s = r.
Proof. intros H. unfold events_of, result_of. now rewrite H. Qed.

Lemma forwards_events {A B R : Type} (run : (A -> B -> M R) -> M R)
    (s : Store) (a : A) (b : B) (s1 : Store) (ev : list Event) (h : A -> B -> M R) :
  forwards run s a b s1 ev -> events_of (run h) s = ev ++ events_of (h a b) s1.
Proof. intros H. unfold events_of. now rewrite H. Qed.

(** A forwarding interceptor hands on one context only. *)
Lemma forwards_one_context {B R : Type} (run : (Context -> B -> M R) -> M R)
    (s : Store) (c c' : Context) (b b' : B) (s1 s1' : Store) (ev ev' : list Event) (r0 : R) :
  forwards run s c b s1 ev -> forwards run s c' b' s1' ev' -> c = c'.
Proof.
  intros H1 H2.
  specialize (H1 (fun c0 _ s0 => ((r0, s0), [EvValidateJWT c0 ""]))).
  specialize (H2 (fun c0 _ s0 => ((r0, s0), [EvValidateJWT c0 ""]))).
  rewrite H1 in H2. simpl in H2.
  assert (Heq : ev ++ [EvValidateJWT c ""] = ev' ++ [EvValidateJWT c' ""]) by congruence.
  apply app_inj_tail in Heq as [_ Heq]. congruence.
Qed.


Lemma not_admitted (s : Store) (tok : string) :
  admitted s tok = false ->
  exists tb, rateLimiter s = Some tb /\ (ratelimiter.Allow tb tok (clock s)).1.1 = false.
Proof.
  unfold admitted. destruct (rateLimiter s) as [tb |]; [eauto | discriminate].
Qed.


(** One step of a computation: unfold the monad and reduce the pairs. *)
Ltac exec :=
  unfold bind, ret, emit, slog, get_rateLimiter, rateLimiter_Allow;
  cbv beta iota zeta.

Section Execution.
Context {Req Resp Srv Raw : Type}.

Abbreviation Unary := (@UnaryInterceptor Req Resp).
Abbreviation Stream := (@StreamInterceptor Srv Raw).

(** The identity client's answer to a call: it does not depend on the store. *)
Lemma ValidateJWT_run (c : sso.Client) (ctx : Context) (tok : string) (s : Store) :
  sso.ValidateJWT c ctx tok s =
    ((match sso.remote_ValidateJWT (sso.userClient c) (sso.contextWithAccessToken ctx tok) with
      | Err err => Err (Wrapped "clients.sso.ValidateJWT" err)
      | Ok resp => Ok resp
      end, s), [EvValidateJWT ctx tok]).
Proof.
  unfold sso.ValidateJWT, bind, emit, ret. simpl.
  destruct (sso.remote_ValidateJWT _ _); reflexivity.
Qed.

Lemma unary_public (i : AuthInterceptor) ctx (req : Req) info handler s :
  isPublic i (FullMethod info) = true ->
  Unary i ctx req info handler s = handler ctx req s.
Proof. intros H. unfold UnaryInterceptor. now rewrite H. Qed.

Lemma unary_extract_fails (i : AuthInterceptor) ctx (req : Req) info s err :
  isPublic i (FullMethod info) = false ->
  extractAccessToken ctx = Err err ->
  rejects (Unary i ctx req info) s (Err err) s
    [EvLog LevelWarn "failed to extract access token"
       [AttrString "method" (FullMethod info); AttrString "error" (Error err)]].
Proof.
  intros Hpub Hext handler. unfold UnaryInterceptor. rewrite Hpub, Hext. reflexivity.
Qed.

Lemma unary_rate_limited (i : AuthInterceptor) ctx (req : Req) info s tok tb :
  isPublic i (FullMethod info) = false ->
  extractAccessToken ctx = Ok tok ->
  rateLimiter s = Some tb ->
  (ratelimiter.Allow tb tok (clock s)).1.1 = false ->
  rejects (Unary i ctx req info) s
    (Err (StatusError ResourceExhausted "rate limit exceeded, please try again later"))
    (after_limiter s tok)
    [EvAllow tok;
     EvLog LevelWarn "rate limit exceeded" [AttrString "method" (FullMethod info)]].
Proof.
  intros Hpub Hext Hrl Hdeny handler.
  unfold UnaryInterceptor, after_limiter. rewrite Hpub, Hext.
  exec. rewrite Hrl. exec. rewrite Hrl.
  destruct (ratelimiter.Allow tb tok (clock s)) as [[allowed remaining] tb'].
  simpl in Hdeny. subst allowed. reflexivity.
Qed.

Lemma unary_validation_fails (i : AuthInterceptor) ctx (req : Req) info s tok err :
  isPublic i (FullMethod info) = false ->
  extractAccessToken ctx = Ok tok ->
  admitted s tok = true ->
  result_of (sso.ValidateJWT (ssoClient i) ctx tok) (after_limiter s tok) = Err err ->
  rejects (Unary i ctx req info) s
    (Err (StatusError Unauthenticated "invalid or expired token"))
    (after_limiter s tok)
    (unary_limiter_events s info tok ++
     [EvValidateJWT ctx tok;
      EvLog LevelWarn "JWT validation failed"
        [AttrString "method" (FullMethod info); AttrString "error" (Error err)]]).
Proof.
  intros Hpub Hext Hadm Hval handler.
  unfold UnaryInterceptor, admitted, after_limiter, unary_limiter_events, result_of in *.
  rewrite Hpub, Hext. rewrite ValidateJWT_run in Hval. simpl in Hval.
  exec. destruct (rateLimiter s) as [tb |] eqn:Hrl.
  - exec. rewrite Hrl.
    destruct (ratelimiter.Allow tb tok (clock s)) as [[allowed remaining] tb'].
    simpl in Hadm. subst allowed. cbn [negb fst snd]. exec. rewrite ValidateJWT_run.
    exec. rewrite Hval. reflexivity.
  - exec. rewrite ValidateJWT_run. exec. rewrite Hval. reflexivity.
Qed.

Lemma unary_validated (i : AuthInterceptor) ctx (req : Req) info s tok resp :
  isPublic i (FullMethod info) = false ->
  extractAccessToken ctx = Ok tok ->
  admitted s tok = true ->
  result_of (sso.ValidateJWT (ssoClient i) ctx tok) (after_limiter s tok) = Ok resp ->
  forwards (Unary i ctx req info) s (authenticated ctx tok resp) req
    (after_limiter s tok)
    (unary_limiter_events s info tok ++
     [EvValidateJWT ctx tok;
      EvLog LevelDebug "user authenticated"
        [AttrString "method" (FullMethod info);
         AttrInt "user_id" (sso.UserId resp);
         AttrString "username" (sso.RespUsername resp)]]).
Proof.
  intros Hpub Hext Hadm Hval handler.
  unfold UnaryInterceptor, admitted, after_limiter, unary_limiter_events, result_of,
    authenticated in *.
  rewrite Hpub, Hext. rewrite ValidateJWT_run in Hval. simpl in Hval.
  exec. destruct (rateLimiter s) as [tb |] eqn:Hrl.
  - exec. rewrite Hrl.
    destruct (ratelimiter.Allow tb tok (clock s)) as [[allowed remaining] tb'].
    simpl in Hadm. subst allowed. cbn [negb fst snd]. exec. rewrite ValidateJWT_run.
    exec. rewrite Hval. exec.
    destruct (handler _ req _) as [[r s2] ev2]. reflexivity.
  - exec. rewrite ValidateJWT_run. exec. rewrite Hval. exec.
    destruct (handler _ req _) as [[r s2] ev2]. reflexivity.
Qed.

Lemma stream_public (i : AuthInterceptor) (srv : Srv) (stream : ServerStream Raw)
    info handler s :
  isPublic i (StreamFullMethod info) = true ->
  Stream i srv stream info handler s = handler srv stream s.
Proof. intros H. unfold StreamInterceptor. now rewrite H. Qed.

Lemma stream_extract_fails (i : AuthInterceptor) (srv : Srv) (stream : ServerStream Raw)
    info s err :
  isPublic i (StreamFullMethod info) = false ->
  extractAccessToken (stream_Context stream) = Err err ->
  rejects (Stream i srv stream info) s (Some err) s [].
Proof.
  intros Hpub Hext handler. unfold StreamInterceptor. rewrite Hpub, Hext. reflexivity.
Qed.

Lemma stream_rate_limited (i : AuthInterceptor) (srv : Srv) (stream : ServerStream Raw)
    info s tok tb :
  isPublic i (StreamFullMethod info) = false ->
  extractAccessToken (stream_Context stream) = Ok tok ->
  rateLimiter s = Some tb ->
  (ratelimiter.Allow tb tok (clock s)).1.1 = false ->
  rejects (Stream i srv stream info) s
    (Some (StatusError ResourceExhausted "rate limit exceeded, please try again later"))
    (after_limiter s tok) [EvAllow tok].
Proof.
  intros Hpub Hext Hrl Hdeny handler.
  unfold StreamInterceptor, after_limiter. rewrite Hpub, Hext.
  exec. rewrite Hrl. exec. rewrite Hrl.
  destruct (ratelimiter.Allow tb tok (clock s)) as [[allowed remaining] tb'].
  simpl in Hdeny. subst allowed. reflexivity.
Qed.

Lemma stream_validation_fails (i : AuthInterceptor) (srv : Srv)
    (stream : ServerStream Raw) info s tok err :
  isPublic i (StreamFullMethod info) = false ->
  extractAccessToken (stream_Context stream) = Ok tok ->
  admitted s tok = true ->
  result_of (sso.ValidateJWT (ssoClient i) (stream_Context stream) tok)
    (after_limiter s tok) = Err err ->
  rejects (Stream i srv stream info) s
    (Some (StatusError Unauthenticated "invalid or expired token"))
    (after_limiter s tok)
    (stream_limiter_events s tok ++ [EvValidateJWT (stream_Context stream) tok]).
Proof.
  intros Hpub Hext Hadm Hval handler.
  unfold StreamInterceptor, admitted, after_limiter, stream_limiter_events, result_of in *.
  rewrite Hpub, Hext. rewrite ValidateJWT_run in Hval. simpl in Hval.
  exec. destruct (rateLimiter s) as [tb |] eqn:Hrl.
  - exec. rewrite Hrl.
    destruct (ratelimiter.Allow tb tok (clock s)) as [[allowed remaining] tb'].
    simpl in Hadm. subst allowed. cbn [negb fst snd]. exec. rewrite ValidateJWT_run.
    exec. rewrite Hval. reflexivity.
  - exec. rewrite ValidateJWT_run. exec. rewrite Hval. reflexivity.
Qed.

Lemma stream_validated (i : AuthInterceptor) (srv : Srv) (stream : ServerStream Raw)
    info s tok resp :
  isPublic i (StreamFullMethod info) = false ->
  extractAccessToken (stream_Context stream) = Ok tok ->
  admitted s tok = true ->
  result_of (sso.ValidateJWT (ssoClient i) (stream_Context stream) tok)
    (after_limiter s tok) = Ok resp ->
  forwards (Stream i srv stream info) s srv
    (wrappedServerStream stream (authenticated (stream_Context stream) tok resp))
    (after_limiter s tok)
    (stream_limiter_events s tok ++ [EvValidateJWT (stream_Context stream) tok]).
Proof.
  intros Hpub Hext Hadm Hval handler.
  unfold StreamInterceptor, admitted, after_limiter, stream_limiter_events, result_of,
    authenticated in *.
  rewrite Hpub, Hext. rewrite ValidateJWT_run in Hval. simpl in Hval.
  exec. destruct (rateLimiter s) as [tb |] eqn:Hrl.
  - exec. rewrite Hrl.
    destruct (ratelimiter.Allow tb tok (clock s)) as [[allowed remaining] tb'].
    simpl in Hadm. subst allowed. cbn [negb fst snd]. exec. rewrite ValidateJWT_run.
    exec. rewrite Hval. exec.
    destruct (handler _ _ _) as [[r s2] ev2]. reflexivity.
  - exec. rewrite ValidateJWT_run. exec. rewrite Hval. exec.
    destruct (handler _ _ _) as [[r s2] ev2]. reflexivity.
Qed.

Lemma unary_first_event (i : AuthInterceptor) ctx (req : Req) info s tok handler :
  isPublic i (FullMethod info) = false ->
  extractAccessToken ctx = Ok tok ->
  exists ev, events_of (Unary i ctx req info handler) s = first_call s ctx tok :: ev.
Proof.
  intros Hpub Hext. destruct (admitted s tok) eqn:Hadm.
  - destruct (result_of (sso.ValidateJWT (ssoClient i) ctx tok) (after_limiter s tok))
      as [resp | err] eqn:Hval.
    + rewrite (forwards_events _ _ _ _ _ _ handler
                 (unary_validated i ctx req info s tok resp Hpub Hext Hadm Hval)).
      unfold unary_limiter_events, first_call.
      destruct (rateLimiter s); simpl; eauto.
    + rewrite (proj1 (rejects_events _ _ _ _ _ handler
                 (unary_validation_fails i ctx req info s tok err Hpub Hext Hadm Hval))).
      unfold unary_limiter_events, first_call.
      destruct (rateLimiter s); simpl; eauto.
  - destruct (not_admitted _ _ Hadm) as (tb & Hrl & Hdeny).
    rewrite (proj1 (rejects_events _ _ _ _ _ handler
               (unary_rate_limited i ctx req info s tok tb Hpub Hext Hrl Hdeny))).
    unfold first_call. rewrite Hrl. eauto.
Qed.

Lemma stream_first_event (i : AuthInterceptor) (srv : Srv) (stream : ServerStream Raw)
    info s tok handler :
  isPublic i (StreamFullMethod info) = false ->
  extractAccessToken (stream_Context stream) = Ok tok ->
  exists ev, events_of (Stream i srv stream info handler) s
             = first_call s (stream_Context stream) tok :: ev.
Proof.
  intros Hpub Hext. destruct (admitted s tok) eqn:Hadm.
  - destruct (result_of (sso.ValidateJWT (ssoClient i) (stream_Context stream) tok)
                (after_limiter s tok)) as [resp | err] eqn:Hval.
    + rewrite (forwards_events _ _ _ _ _ _ handler
                 (stream_validated i srv stream info s tok resp Hpub Hext Hadm Hval)).
      unfold stream_limiter_events, first_call.
      destruct (rateLimiter s); simpl; eauto.
    + rewrite (proj1 (rejects_events _ _ _ _ _ handler
                 (stream_validation_fails i srv stream info s tok err Hpub Hext Hadm Hval))).
      unfold stream_limiter_events, first_call.
      destruct (rateLimiter s); simpl; eauto.
  - destruct (not_admitted _ _ Hadm) as (tb & Hrl & Hdeny).
    rewrite (proj1 (rejects_events _ _ _ _ _ handler
               (stream_rate_limited i srv stream info s tok tb Hpub Hext Hrl Hdeny))).
    unfold first_call. rewrite Hrl. eauto.
Qed.

Lemma unary_validate_event (i : AuthInterceptor) ctx (req : Req) info s tok handler :
  isPublic i (FullMethod info) = false ->
  extractAccessToken ctx = Ok tok ->
  admitted s tok = true ->
  EvValidateJWT ctx tok ∈ events_of (Unary i ctx req info handler) s.
Proof.
  intros Hpub Hext Hadm.
  destruct (result_of (sso.ValidateJWT (ssoClient i) ctx tok) (after_limiter s tok))
    as [resp | err] eqn:Hval.
  - rewrite (forwards_events _ _ _ _ _ _ handler
               (unary_validated i ctx req info s tok resp Hpub Hext Hadm Hval)).
    rewrite !elem_of_app. left. right. apply list_elem_of_here.
  - rewrite (proj1 (rejects_events _ _ _ _ _ handler
               (unary_validation_fails i ctx req info s tok err Hpub Hext Hadm Hval))).
    rewrite !elem_of_app. right. apply list_elem_of_here.
Qed.

(** A non-public unary call is forwarded exactly when it is validated. *)
Lemma unary_forwards_iff (i : AuthInterceptor) ctx (req : Req) info s c :
  isPublic i (FullMethod info) = false ->
  (exists s1 ev, forwards (Unary i ctx req info) s c req s1 ev) <-> validated i ctx s c.
Proof.
  intros Hpub. split.
  - intros (s1 & ev & Hfwd).
    destruct (extractAccessToken ctx) as [tok | err] eqn:Hext.
    2: { destruct (rejects_not_forwards _ _ _ _ _ _ _ _ _
                     (unary_extract_fails i ctx req info s err Hpub Hext) Hfwd). }
    destruct (admitted s tok) eqn:Hadm.
    2: { destruct (not_admitted _ _ Hadm) as (tb & Hrl & Hdeny).
         destruct (rejects_not_forwards _ _ _ _ _ _ _ _ _
                     (unary_rate_limited i ctx req info s tok tb Hpub Hext Hrl Hdeny) Hfwd). }
    destruct (result_of (sso.ValidateJWT (ssoClient i) ctx tok) (after_limiter s tok))
      as [resp | err] eqn:Hval.
    2: { destruct (rejects_not_forwards _ _ _ _ _ _ _ _ _
                     (unary_validation_fails i ctx req info s tok err Hpub Hext Hadm Hval)
                     Hfwd). }
    exists tok, resp. repeat (split; [assumption |]).
    exact (forwards_one_context _ _ _ _ _ _ _ _ _ _ (Err (StatusError OK ""))
             Hfwd (unary_validated i ctx req info s tok resp Hpub Hext Hadm Hval)).
  - intros (tok & resp & Hext & Hadm & Hval & ->).
    eexists _, _. exact (unary_validated i ctx req info s tok resp Hpub Hext Hadm Hval).
Qed.


End Execution.

(** ** The claims on the interceptor *)

Section Claims.
Context {Req Resp Srv Raw : Type}.

Abbreviation Unary := (@UnaryInterceptor Req Resp).
Abbreviation Stream := (@StreamInterceptor Srv Raw).

(** C5. A call to a method of the Public-Method Set goes straight to the
    next stage: for a method [m] that [publicMethods] maps to true, the
    unary interceptor applied to a handler is that handler applied to the
    original context and request, run from the original store, and the
    stream interceptor is the handler applied to the original server and
    stream.  Nothing happens before the handler runs: no credential is
    extracted, no event is reported (no [Allow], no [ValidateJWT], no
    log), and the limiter the handler finds is the one of the store. *)
Theorem public_call_is_forwarded_untouched (i : AuthInterceptor) (m : string) :
  isPublic i m = true ->
  (forall ctx (req : Req) handler s,
     Unary i ctx req (mkUnaryServerInfo m) handler s = handler ctx req s) /\
  (forall (srv : Srv) (stream : ServerStream Raw) handler s,
     Stream i srv stream (mkStreamServerInfo m) handler s = handler srv stream s) /\
  (forall ctx (req : Req) s,
     forwards (Unary i ctx req (mkUnaryServerInfo m)) s ctx req s []) /\
  (forall (srv : Srv) (stream : ServerStream Raw) s,
     forwards (Stream i srv stream (mkStreamServerInfo m)) s srv stream s []).
Proof.
  intros Hpub. repeat split.
  - intros. now apply unary_public.
  - intros. now apply stream_public.
  - intros ctx req s handler. rewrite unary_public by exact Hpub.
    now destruct (handler ctx req s) as [[r s2] ev2].
  - intros srv stream s handler. rewrite stream_public by exact Hpub.
    now destruct (handler srv stream s) as [[r s2] ev2].
Qed.

(** C4. A call without a well-formed bearer credential is rejected as
    unauthenticated before anything else happens.  For a method [m]
    outside the Public-Method Set: extraction fails with a status error of
    its own message when the metadata is missing, when the
    [authorization] header has no value, and when its first value does
    not start with the exact characters of ["Bearer "]; it yields what
    follows the prefix otherwise.  When extraction fails, the error has
    code [Unauthenticated], the unary interceptor returns it having only
    logged a warning, the stream interceptor returns it having done
    nothing, the store (the limiter in it) is unchanged, and no [Allow]
    or [ValidateJWT] event is reported. *)
Theorem malformed_credential_is_unauthenticated (i : AuthInterceptor) (m : string)
    (ctx : Context) (req : Req) (srv : Srv) (stream : ServerStream Raw) (s : Store) :
  isPublic i m = false ->
  stream_Context stream = ctx ->
  (incoming ctx = None ->
     extractAccessToken ctx = Err (StatusError Unauthenticated "missing metadata")) /\
  (forall md, incoming ctx = Some md -> MD_Get md "authorization" = [] ->
     extractAccessToken ctx =
       Err (StatusError Unauthenticated "missing authorization header")) /\
  (forall md v rest, incoming ctx = Some md -> MD_Get md "authorization" = v :: rest ->
     (forall t, v <> ("Bearer " ++ t)%string) ->
     extractAccessToken ctx =
       Err (StatusError Unauthenticated
              "invalid authorization format, expected 'Bearer <token>'")) /\
  (forall md t rest, incoming ctx = Some md ->
     MD_Get md "authorization" = ("Bearer " ++ t)%string :: rest ->
     extractAccessToken ctx = Ok t) /\
  (forall err, extractAccessToken ctx = Err err ->
     status_Code err = Unauthenticated /\
     rejects (Unary i ctx req (mkUnaryServerInfo m)) s (Err err) s
       [EvLog LevelWarn "failed to extract access token"
          [AttrString "method" m; AttrString "error" (Error err)]] /\
     rejects (Stream i srv stream (mkStreamServerInfo m)) s (Some err) s []).
Proof.
  intros Hpub Hctx. unfold extractAccessToken, FromIncomingContext.
  split; [intros ->; reflexivity |].
  split; [intros md -> ->; reflexivity |].
  split.
  { intros md v rest -> -> Hno.
    destruct (HasPrefix v "Bearer ") eqn:Hp; [| reflexivity].
    apply HasPrefix_spec in Hp as [t Ht]. now destruct (Hno t). }
  split.
  { intros md t rest -> ->.
    assert (Hp : HasPrefix ("Bearer " ++ t) "Bearer " = true)
      by (apply HasPrefix_spec; eauto).
    rewrite Hp. simpl negb. cbv iota. now rewrite TrimPrefix_app. }
  intros err Herr. split; [| split].
  - destruct (incoming ctx) as [md |]; [| now injection Herr as <-].
    destruct (MD_Get md "authorization") as [| v rest]; [now injection Herr as <- |].
    destruct (negb (HasPrefix v "Bearer ")); [now injection Herr as <- | discriminate].
  - now apply unary_extract_fails.
  - apply stream_extract_fails; [exact Hpub | now rewrite Hctx].
Qed.

(** C3. The rate-limit check comes before identity validation.  For a
    method [m] outside the Public-Method Set and a call whose credential
    [tok] was extracted: when a limiter is configured its [Allow] is the
    first thing the interceptor calls; if it does not admit the call, the
    interceptor returns [ResourceExhausted] whatever the handler, the
    events of the call are the [Allow] (and, for a unary call, one
    warning), so [ValidateJWT] is not invoked, and the store is the old
    one with the limiter as [Allow] left it.  When no limiter is
    configured the first thing the interceptor calls is [ValidateJWT]. *)
Theorem rate_limit_precedes_validation (i : AuthInterceptor) (m : string)
    (ctx : Context) (req : Req) (srv : Srv) (stream : ServerStream Raw) (s : Store)
    (tok : string) :
  isPublic i m = false ->
  stream_Context stream = ctx ->
  extractAccessToken ctx = Ok tok ->
  (forall tb, rateLimiter s = Some tb ->
     (forall uh sh,
        (exists ev, events_of (Unary i ctx req (mkUnaryServerInfo m) uh) s = EvAllow tok :: ev) /\
        (exists ev, events_of (Stream i srv stream (mkStreamServerInfo m) sh) s = EvAllow tok :: ev)) /\
     ((ratelimiter.Allow tb tok (clock s)).1.1 = false ->
      rejects (Unary i ctx req (mkUnaryServerInfo m)) s
        (Err (StatusError ResourceExhausted "rate limit exceeded, please try again later"))
        {| rateLimiter := Some (ratelimiter.Allow tb tok (clock s)).2; clock := clock s |}
        [EvAllow tok; EvLog LevelWarn "rate limit exceeded" [AttrString "method" m]] /\
      rejects (Stream i srv stream (mkStreamServerInfo m)) s
        (Some (StatusError ResourceExhausted "rate limit exceeded, please try again later"))
        {| rateLimiter := Some (ratelimiter.Allow tb tok (clock s)).2; clock := clock s |}
        [EvAllow tok])) /\
  (rateLimiter s = None ->
     forall uh sh,
       (exists ev, events_of (Unary i ctx req (mkUnaryServerInfo m) uh) s
                   = EvValidateJWT ctx tok :: ev) /\
       (exists ev, events_of (Stream i srv stream (mkStreamServerInfo m) sh) s
                   = EvValidateJWT ctx tok :: ev)).
Proof.
  intros Hpub Hctx Hext. subst ctx.
  split.
  - intros tb Hrl. split.
    + intros uh sh.
      destruct (unary_first_event i (stream_Context stream) req (mkUnaryServerInfo m)
                  s tok uh Hpub Hext) as [ev1 H1].
      destruct (stream_first_event i srv stream (mkStreamServerInfo m)
                  s tok sh Hpub Hext) as [ev2 H2].
      unfold first_call in *. rewrite Hrl in *. eauto.
    + intros Hdeny. split.
      * pose proof (unary_rate_limited (Resp:=Resp) i (stream_Context stream) req (mkUnaryServerInfo m)
                      s tok tb Hpub Hext Hrl Hdeny) as H.
        unfold after_limiter in H. now rewrite Hrl in H.
      * pose proof (stream_rate_limited i srv stream (mkStreamServerInfo m) s tok tb
                      Hpub Hext Hrl Hdeny) as H.
        unfold after_limiter in H. now rewrite Hrl in H.
  - intros Hrl uh sh.
    destruct (unary_first_event i (stream_Context stream) req (mkUnaryServerInfo m)
                s tok uh Hpub Hext) as [ev1 H1].
    destruct (stream_first_event i srv stream (mkStreamServerInfo m)
                s tok sh Hpub Hext) as [ev2 H2].
    unfold first_call in *. rewrite Hrl in *. eauto.
Qed.


(** C10. A bare ["Bearer "] header carries the empty credential.  When
    the first [authorization] value of a call is exactly ["Bearer "],
    extraction succeeds with the empty string; for a method [m] outside
    the Public-Method Set the call then goes on, keyed on the empty
    string: with a limiter configured the first call made is
    [Allow("")], without one it is [ValidateJWT] on the empty credential,
    and whenever the rate-limit step lets the call through [ValidateJWT]
    is invoked with the incoming context and the empty credential.
    Moreover two calls whose [authorization] headers start with the same
    value extract the same result, whatever values follow. *)
Theorem bare_bearer_is_the_empty_credential (i : AuthInterceptor) (m : string)
    (ctx : Context) (req : Req) (s : Store) (md : MD) (rest : list string) :
  incoming ctx = Some md ->
  MD_Get md "authorization" = "Bearer "%string :: rest ->
  extractAccessToken ctx = Ok ""%string /\
  (isPublic i m = false ->
   forall handler,
     (forall tb, rateLimiter s = Some tb ->
      exists ev, events_of (Unary i ctx req (mkUnaryServerInfo m) handler) s
                 = EvAllow "" :: ev) /\
     (rateLimiter s = None ->
      exists ev, events_of (Unary i ctx req (mkUnaryServerInfo m) handler) s
                 = EvValidateJWT ctx "" :: ev) /\
     (admitted s "" = true ->
      EvValidateJWT ctx "" ∈ events_of (Unary i ctx req (mkUnaryServerInfo m) handler) s)) /\
  (forall ctx1 ctx2 md1 md2 v rest1 rest2,
     incoming ctx1 = Some md1 -> MD_Get md1 "authorization" = v :: rest1 ->
     incoming ctx2 = Some md2 -> MD_Get md2 "authorization" = v :: rest2 ->
     extractAccessToken ctx1 = extractAccessToken ctx2).
Proof.
  intros Hmd Hget.
  assert (Hext : extractAccessToken ctx = Ok ""%string).
  { unfold extractAccessToken, FromIncomingContext. rewrite Hmd, Hget. reflexivity. }
  split; [exact Hext |]. split.
  - intros Hpub handler.
    destruct (unary_first_event i ctx req (mkUnaryServerInfo m) s "" handler Hpub Hext)
      as [ev Hev].
    unfold first_call in Hev. split; [| split].
    + intros tb Hrl. rewrite Hrl in Hev. eauto.
    + intros Hrl. rewrite Hrl in Hev. eauto.
    + intros Hadm. now apply unary_validate_event.
  - intros ctx1 ctx2 md1 md2 v rest1 rest2 H1 G1 H2 G2.
    unfold extractAccessToken, FromIncomingContext. now rewrite H1, G1, H2, G2.
Qed.

End Claims.

(** ** The claims at sample calls *)

(** An authenticated unary call, from extraction to the handler. *)
Example authenticated_call :
  UnaryInterceptor sample_interceptor (call_with ["Bearer good"%string]) tt
    (mkUnaryServerInfo CreatePlan)
    (fun ctx _ => ret (Ok (GetUserFromContext ctx, GetAccessTokenFromContext ctx)))
    no_limiter_store
  = ((Ok (Some (userInfoOf sample_resp), Some "good"%string), no_limiter_store),
     [EvValidateJWT (call_with ["Bearer good"%string]) "good";
      EvLog LevelDebug "user authenticated"
        [AttrString "method" CreatePlan; AttrInt "user_id" 42;
         AttrString "username" "alice"]]).
Proof. vm_compute. reflexivity. Qed.

(** A stream call with a rejected credential, after the limiter admitted it. *)
Example rejected_stream :
  (StreamInterceptor sample_interceptor tt
     (transportStream (call_with ["Bearer bad"%string]) tt)
     (mkStreamServerInfo CreatePlan) unit_stream_handler fresh_store).1.1
  = Some (StatusError Unauthenticated "invalid or expired token") /\
  events_of (StreamInterceptor sample_interceptor tt
     (transportStream (call_with ["Bearer bad"%string]) tt)
     (mkStreamServerInfo CreatePlan) unit_stream_handler) fresh_store
  = [EvAllow "bad"; EvValidateJWT (call_with ["Bearer bad"%string]) "bad"].
Proof. split; vm_compute; reflexivity. Qed.

(** The prefix is matched character by character: another case, a missing
    space or another scheme is malformed, and a second space belongs to
    the credential. *)
Example prefix_is_exact :
  extractAccessToken (call_with ["bearer abc"%string])
    = extractAccessToken (call_with ["Token abc"%string]) /\
  extractAccessToken (call_with ["Bearer"%string])
    = extractAccessToken (call_with ["Token abc"%string]) /\
  extractAccessToken (call_with ["Bearer  abc"%string]) = Ok " abc"%string /\
  extractAccessToken (call_with []) =
    Err (StatusError Unauthenticated "missing authorization header").
Proof. repeat split; vm_compute; reflexivity. Qed.

Lemma CreatePlan_not_public : isPublic sample_interceptor CreatePlan = false.
Proof. vm_compute. reflexivity. Qed.

Lemma public_call_is_forwarded_untouched_witness :
  isPublic sample_interceptor ListPlans = true /\
  UnaryInterceptor sample_interceptor (call_with []) tt (mkUnaryServerInfo ListPlans)
    unit_handler exhausted_store
  = ((Ok tt, exhausted_store), []).
Proof.
  assert (H : isPublic sample_interceptor ListPlans = true) by (vm_compute; reflexivity).
  split; [exact H |].
  rewrite (proj1 (public_call_is_forwarded_untouched
                    (Req:=unit) (Resp:=unit) (Srv:=unit) (Raw:=unit)
                    sample_interceptor ListPlans H)).
  reflexivity.
Defined.

Lemma malformed_credential_is_unauthenticated_witness :
  let err := StatusError Unauthenticated
               "invalid authorization format, expected 'Bearer <token>'" in
  extractAccessToken (call_with ["Token abc"%string]) = Err err /\
  UnaryInterceptor sample_interceptor (call_with ["Token abc"%string]) tt
    (mkUnaryServerInfo CreatePlan) unit_handler fresh_store
  = ((Err err, fresh_store),
     [EvLog LevelWarn "failed to extract access token"
        [AttrString "method" CreatePlan; AttrString "error" (Error err)]]).
Proof.
  intros err.
  assert (Hext : extractAccessToken (call_with ["Token abc"%string]) = Err err)
    by (vm_compute; reflexivity).
  split; [exact Hext |].
  destruct (malformed_credential_is_unauthenticated
              (Req:=unit) (Resp:=unit) (Srv:=unit) (Raw:=unit)
              sample_interceptor CreatePlan (call_with ["Token abc"%string]) tt tt
              (transportStream (call_with ["Token abc"%string]) tt) fresh_store
              CreatePlan_not_public eq_refl) as (_ & _ & _ & _ & H).
  destruct (H err Hext) as (_ & Hrej & _).
  exact (Hrej unit_handler).
Defined.

Lemma rate_limit_precedes_validation_witness :
  result_of (UnaryInterceptor sample_interceptor (call_with ["Bearer good"%string]) tt
               (mkUnaryServerInfo CreatePlan) unit_handler) exhausted_store
  = Err (StatusError ResourceExhausted "rate limit exceeded, please try again later") /\
  events_of (UnaryInterceptor sample_interceptor (call_with ["Bearer good"%string]) tt
               (mkUnaryServerInfo CreatePlan) unit_handler) exhausted_store
  = [EvAllow "good";
     EvLog LevelWarn "rate limit exceeded" [AttrString "method" CreatePlan]].
Proof.
  assert (Hext : extractAccessToken (call_with ["Bearer good"%string]) = Ok "good"%string)
    by (vm_compute; reflexivity).
  destruct (rate_limit_precedes_validation
              (Req:=unit) (Resp:=unit) (Srv:=unit) (Raw:=unit)
              sample_interceptor CreatePlan (call_with ["Bearer good"%string]) tt tt
              (transportStream (call_with ["Bearer good"%string]) tt) exhausted_store
              "good" CreatePlan_not_public eq_refl Hext) as (H & _).
  destruct (H _ eq_refl) as (_ & Hdeny).
  destruct Hdeny as (Hrej & _); [vm_compute; reflexivity |].
  destruct (rejects_events _ _ _ _ _ unit_handler Hrej) as [Hev Hres].
  split; [exact Hres | exact Hev].
Defined.


Lemma bare_bearer_is_the_empty_credential_witness :
  extractAccessToken (call_with ["Bearer "%string; "Bearer good"%string]) = Ok ""%string /\
  exists ev,
    events_of (UnaryInterceptor sample_interceptor
                 (call_with ["Bearer "%string; "Bearer good"%string]) tt
                 (mkUnaryServerInfo CreatePlan) unit_handler) fresh_store
    = EvAllow "" :: ev.
Proof.
  destruct (bare_bearer_is_the_empty_credential
              (Req:=unit) (Resp:=unit)
              sample_interceptor CreatePlan
              (call_with ["Bearer "%string; "Bearer good"%string]) tt fresh_store
              {[ "authorization"%string := ["Bearer "%string; "Bearer good"%string] ]}
              ["Bearer good"%string] eq_refl eq_refl) as (Hext & Hrun & _).
  split; [exact Hext |].
  destruct (Hrun CreatePlan_not_public unit_handler) as (Hallow & _).
  exact (Hallow _ eq_refl).
Defined.

End InterceptorFacts.

(** * Properties of the chain builders *)

Module ChainFacts.
Import grpcapp chain_contract.

Section Chain.
Context {Ctx Req Info Srv Stream R : Type}.

Lemma nestedUnary_app (l1 l2 : list (@UnaryServerInterceptor Ctx Req Info R))
    (info : Info) (H : UnaryHandler) :
  nestedUnary (l1 ++ l2) info H = nestedUnary l1 info (nestedUnary l2 info H).
Proof. induction l1 as [| I1 l1 IH]; simpl; [reflexivity | now rewrite IH]. Qed.

Lemma nestedStream_app (l1 l2 : list (@StreamServerInterceptor Info Srv Stream R))
    (info : Info) (H : StreamHandler) :
  nestedStream (l1 ++ l2) info H = nestedStream l1 info (nestedStream l2 info H).
Proof. induction l1 as [| I1 l1 IH]; simpl; [reflexivity | now rewrite IH]. Qed.

(** After the iterations for the indices [n-1 .. 0] the handler is the
    nesting of the first [n] interceptors around the handler the loop
    was entered with. *)
Lemma unaryLoop_nested (l : list (@UnaryServerInterceptor Ctx Req Info R)) (info : Info) :
  forall (n : nat) (h : UnaryHandler),
    (n <= length l)%nat -> unaryLoop l info n h = nestedUnary (take n l) info h.
Proof.
  induction n as [| k IH]; intros h Hn.
  - reflexivity.
  - cbn [unaryLoop]. destruct (l !! k) as [x |] eqn:Hx.
    + rewrite IH by lia.
      rewrite (take_S_r l k x Hx), nestedUnary_app. reflexivity.
    + apply lookup_ge_None in Hx.
      unfold UnaryServerInterceptor, StreamServerInterceptor, UnaryHandler, StreamHandler in *.
      lia.
Qed.

Lemma streamLoop_nested (l : list (@StreamServerInterceptor Info Srv Stream R)) (info : Info) :
  forall (n : nat) (h : StreamHandler),
    (n <= length l)%nat -> streamLoop l info n h = nestedStream (take n l) info h.
Proof.
  induction n as [| k IH]; intros h Hn.
  - reflexivity.
  - cbn [streamLoop]. destruct (l !! k) as [x |] eqn:Hx.
    + rewrite IH by lia.
      rewrite (take_S_r l k x Hx), nestedStream_app. reflexivity.
    + apply lookup_ge_None in Hx.
      unfold UnaryServerInterceptor, StreamServerInterceptor, UnaryHandler, StreamHandler in *.
      lia.
Qed.

(** C8. The composed entry point is the nested application: for every
    list of interceptors, handler, info and call, the interceptor built
    by [chainUnaryInterceptors] returns what
    [I1(ctx, req, info, I2(..., In(..., H)))] returns, the first
    interceptor outermost and the same [info] at every layer; and
    likewise [chainStreamInterceptors] over servers and streams. *)
Theorem chain_is_nested_application :
  (forall (interceptors : list (@UnaryServerInterceptor Ctx Req Info R))
          (ctx : Ctx) (req : Req) (info : Info) (H : UnaryHandler),
     chainUnaryInterceptors interceptors ctx req info H
     = nestedUnary interceptors info H ctx req) /\
  (forall (interceptors : list (@StreamServerInterceptor Info Srv Stream R))
          (srv : Srv) (stream : Stream) (info : Info) (H : StreamHandler),
     chainStreamInterceptors interceptors srv stream info H
     = nestedStream interceptors info H srv stream).
Proof.
  split.
  - intros l ctx req info H. unfold chainUnaryInterceptors.
    rewrite unaryLoop_nested by lia. now rewrite firstn_all.
  - intros l srv stream info H. unfold chainStreamInterceptors.
    rewrite streamLoop_nested by lia. now rewrite firstn_all.
Qed.

End Chain.

End ChainFacts.

(** * Properties of the identity client *)

Module IdentityClientFacts.
Import GoNum transport effects observe.


End IdentityClientFacts.

(** * More on the limiter: construction, isolation, bursts, refills, the sweep *)

Module LimiterMore.
Import GoNum ratelimiter contract histories LimiterFacts.

(** X1. [New] repairs a configuration: whatever the three fields, the
    limiter starts with no bucket, a rate and a sweep interval of at
    least 1, and keeps every field that was positive; when the rate is a
    Go int that can be doubled without overflow and the capacity is a Go
    int, the capacity is at least 1 too, and a capacity that was not
    positive is twice the rate. *)
Theorem New_repairs_configuration (cfg : Config) :
  Stats (New cfg) = 0 /\
  1 <= rate (New cfg) /\
  1 <= cleanup (New cfg) /\
  (0 < Rate cfg -> rate (New cfg) = Rate cfg) /\
  (0 < Capacity cfg -> capacity (New cfg) = Capacity cfg) /\
  (0 < CleanupInterval cfg -> cleanup (New cfg) = CleanupInterval cfg) /\
  (Rate cfg <= 2 ^ 62 - 1 -> Capacity cfg <= int_max ->
   1 <= capacity (New cfg) <= int_max /\
   (Capacity cfg <= 0 -> capacity (New cfg) = 2 * rate (New cfg))).
Proof.
  unfold New, Stats, Minute, Second, int_max; simpl.
  destruct (Z.leb_spec (Rate cfg) 0) as [Hr | Hr];
    destruct (Z.leb_spec (Capacity cfg) 0) as [Hc | Hc];
    destruct (Z.leb_spec (CleanupInterval cfg) 0) as [Hi | Hi];
    repeat split; try lia; try reflexivity; intros;
    try (rewrite wrap_int_id by (unfold valid_int, int_min, int_max; lia); lia).
Qed.

(** X2. Credentials are isolated: two [Allow] calls on different
    credentials can be made in either order, each at its own clock
    reading, with the same two answers and the same limiter afterwards. *)
Theorem Allow_of_different_credentials_commute (tb : TokenBucket)
    (c1 c2 : string) (t1 t2 : Time) :
  c1 <> c2 ->
  (Allow (Allow tb c1 t1).2 c2 t2).1 = (Allow tb c2 t2).1 /\
  (Allow (Allow tb c2 t2).2 c1 t1).1 = (Allow tb c1 t1).1 /\
  (Allow (Allow tb c1 t1).2 c2 t2).2 = (Allow (Allow tb c2 t2).2 c1 t1).2.
Proof.
  intros Hne.
  assert (Hframe : forall c c' t, c <> c' ->
            buckets (Allow tb c t).2 !! c' = buckets tb !! c' /\
            rate (Allow tb c t).2 = rate tb /\
            capacity (Allow tb c t).2 = capacity tb /\
            cleanup (Allow tb c t).2 = cleanup tb).
  { intros c c' t Hc. unfold Allow.
    destruct (buckets tb !! c) as [b |]; [destruct (Qgeb _ 1) |];
      unfold with_buckets; simpl; rewrite lookup_insert_ne by exact Hc; auto. }
  destruct (Hframe c1 c2 t1 Hne) as (L1 & R1 & C1 & K1).
  destruct (Hframe c2 c1 t2 (not_eq_sym Hne)) as (L2 & R2 & C2 & K2).
  assert (Hfst : forall tb' c t,
            buckets tb' !! c = buckets tb !! c -> rate tb' = rate tb ->
            capacity tb' = capacity tb ->
            (Allow tb' c t).1 = (Allow tb c t).1 /\
            buckets (Allow tb' c t).2 !! c = buckets (Allow tb c t).2 !! c).
  { intros tb' c t Hl Hr Hc. unfold Allow. rewrite Hl, Hr, Hc.
    destruct (buckets tb !! c) as [b |]; [destruct (Qgeb _ 1) |];
      unfold with_buckets; simpl; rewrite !lookup_insert_eq; auto. }
  destruct (Hfst _ c2 t2 L1 R1 C1) as [A1 B1].
  destruct (Hfst _ c1 t1 L2 R2 C2) as [A2 B2].
  split; [exact A1 |]. split; [exact A2 |].
  assert (Hcfg : forall tb' c t,
            rate (Allow tb' c t).2 = rate tb' /\ capacity (Allow tb' c t).2 = capacity tb' /\
            cleanup (Allow tb' c t).2 = cleanup tb').
  { intros tb' c t. unfold Allow.
    destruct (buckets tb' !! c) as [b |]; [destruct (Qgeb _ 1) |]; auto. }
  assert (Hother : forall tb' c c' t, c <> c' ->
            buckets (Allow tb' c t).2 !! c' = buckets tb' !! c').
  { intros tb' c c' t Hc. unfold Allow.
    destruct (buckets tb' !! c) as [b |]; [destruct (Qgeb _ 1) |];
      unfold with_buckets; simpl; rewrite lookup_insert_ne by exact Hc; auto. }
  pose proof (Hcfg (Allow tb c1 t1).2 c2 t2) as (Ha & Hb & Hc).
  pose proof (Hcfg (Allow tb c2 t2).2 c1 t1) as (Ha' & Hb' & Hc').
  assert (Hmap : buckets (Allow (Allow tb c1 t1).2 c2 t2).2
                 = buckets (Allow (Allow tb c2 t2).2 c1 t1).2).
  { apply map_eq. intros k.
    destruct (decide (k = c1)) as [-> | N1]; [| destruct (decide (k = c2)) as [-> | N2]].
    - rewrite (Hother (Allow tb c1 t1).2 c2 c1 t2) by (now apply not_eq_sym). congruence.
    - rewrite (Hother (Allow tb c2 t2).2 c1 c2 t1) by exact Hne. congruence.
    - rewrite (Hother (Allow tb c1 t1).2 c2 k t2), (Hother (Allow tb c2 t2).2 c1 k t1),
        (Hother tb c1 k t1), (Hother tb c2 k t2) by (now apply not_eq_sym).
      reflexivity. }
  destruct (Allow (Allow tb c1 t1).2 c2 t2).2 as [m1 r1 k1 i1].
  destruct (Allow (Allow tb c2 t2).2 c1 t1).2 as [m2 r2 k2 i2].
  simpl in *. f_equal; congruence.
Qed.

Lemma Allow_of_different_credentials_commute_witness :
  (Allow (Allow sample_limiter "tok1" 5).2 "tok2" 7).2
  = (Allow (Allow sample_limiter "tok2" 7).2 "tok1" 5).2.
Proof.
  assert (Hne : "tok1"%string <> "tok2"%string) by discriminate.
  exact (proj2 (proj2 (Allow_of_different_credentials_commute
                         sample_limiter "tok1" "tok2" 5 7 Hne))).
Defined.

(** ** Balances up to the fraction that writes them *)

















Lemma cleanup_lookup (tb : TokenBucket) (now : Time) (c : string) (b : bucket) :
  buckets (cleanup_old_buckets tb now) !! c = Some b <->
  buckets tb !! c = Some b /\ now - cleanup tb <= lastUpdate b.
Proof.
  unfold cleanup_old_buckets, with_buckets, Add, Before; simpl.
  rewrite map_lookup_filter_Some. simpl.
  rewrite Z.ltb_ge. split; intros [H1 H2]; (split; [exact H1 | lia]).
Qed.

(** X5. The sweep keeps exactly the buckets refilled within the last
    [cleanup] interval: a credential has a bucket after the sweep at
    [now] if and only if it had that bucket before and the bucket's refill
    time is not before [now - cleanup].  So the sweep never adds or
    changes a bucket, [Stats] cannot grow, a second sweep at the same
    clock reading removes nothing, and the configuration is untouched. *)
Theorem sweep_keeps_recent_buckets (tb : TokenBucket) (now : Time) :
  (forall c b, buckets (cleanup_old_buckets tb now) !! c = Some b <->
               buckets tb !! c = Some b /\ now - cleanup tb <= lastUpdate b) /\
  Stats (cleanup_old_buckets tb now) <= Stats tb /\
  cleanup_old_buckets (cleanup_old_buckets tb now) now = cleanup_old_buckets tb now /\
  rate (cleanup_old_buckets tb now) = rate tb /\
  capacity (cleanup_old_buckets tb now) = capacity tb /\
  cleanup (cleanup_old_buckets tb now) = cleanup tb.
Proof.
  split; [apply cleanup_lookup |]. split; [| split; [| auto]].
  - unfold Stats, cleanup_old_buckets, with_buckets; simpl.
    apply Nat2Z.inj_le, map_subseteq_size, map_filter_subseteq.
  - pose proof (cleanup_lookup tb now) as Hchar.
    unfold cleanup_old_buckets at 1. unfold with_buckets.
    destruct (cleanup_old_buckets tb now) as [m r k i] eqn:E. simpl.
    assert (Hi : i = cleanup tb) by (unfold cleanup_old_buckets, with_buckets in E; congruence).
    f_equal. apply map_eq. intros c. apply option_eq. intros b.
    rewrite map_lookup_filter_Some. simpl.
    pose proof (Hchar c b) as Hc. simpl in Hc.
    unfold Add, Before. rewrite Z.ltb_ge, Hi. split.
    + now intros [H _].
    + intros H. split; [exact H |]. apply Hc in H. lia.
Qed.

(** X6. [Stats] counts credentials: [Allow] adds one bucket exactly when
    the credential had none, [Reset] removes one exactly when it had one,
    and neither changes the count otherwise. *)
Theorem Stats_counts_credentials (tb : TokenBucket) (c : string) (now : Time) :
  Stats (Allow tb c now).2
    = (if buckets tb !! c is Some _ then Stats tb else Stats tb + 1) /\
  Stats (Reset tb c)
    = (if buckets tb !! c is Some _ then Stats tb - 1 else Stats tb) /\
  Stats (Reset (Allow tb c now).2 c) = Stats (Reset tb c).
Proof.
  unfold Stats.
  assert (HA : size (buckets (Allow tb c now).2)
               = if buckets tb !! c is Some _ then size (buckets tb) else S (size (buckets tb))).
  { unfold Allow. destruct (buckets tb !! c) as [b |] eqn:Hb.
    - destruct (Qgeb _ 1); unfold with_buckets; simpl;
        rewrite map_size_insert, Hb; reflexivity.
    - unfold with_buckets; simpl. now rewrite map_size_insert_None. }
  assert (HR : forall tb', size (buckets (Reset tb' c))
               = if buckets tb' !! c is Some _ then pred (size (buckets tb')) else size (buckets tb')).
  { intros tb'. unfold Reset, with_buckets; simpl.
    rewrite map_size_delete. destruct (buckets tb' !! c); reflexivity. }
  assert (Hpos : forall b, buckets tb !! c = Some b -> size (buckets tb) <> 0%nat).
  { intros b Hb. apply (map_size_ne_0_lookup_2 _ c). eauto. }
  split; [| split].
  - rewrite HA. destruct (buckets tb !! c); lia.
  - rewrite HR. destruct (buckets tb !! c) as [b |] eqn:Hb; [| reflexivity].
    pose proof (Hpos b eq_refl). lia.
  - rewrite !HR.
    assert (Hs : is_Some (buckets (Allow tb c now).2 !! c)).
    { unfold Allow. destruct (buckets tb !! c); [destruct (Qgeb _ 1) |];
        unfold with_buckets; simpl; rewrite lookup_insert_eq; eauto. }
    destruct Hs as [b' Hb']. rewrite Hb', HA.
    destruct (buckets tb !! c) as [b |] eqn:Hb; simpl; lia.
Qed.

(** ** The sweep, seen from the callers *)












(** When the sweep comes too early it shows: an exhausted bucket that
    was dropped after 301 idle seconds is back at the full burst of 1000,
    where the refill alone had made 301 tokens. *)
Example early_sweep_is_observable :
  (Allow (cleanup_old_buckets early_sweep_limiter (301 * Second)) "tok1" (301 * Second)).1
    = (true, 999) /\
  (Allow early_sweep_limiter "tok1" (301 * Second)).1 = (true, 300).
Proof. split; vm_compute; reflexivity. Qed.

End LimiterMore.

(** * More on the interceptor *)

Module InterceptorMore.
Import GoNum transport effects grpcInt grpcCtx observe footprint InterceptorFacts.

(** X8. [SetPublicMethods] adds and never revokes: afterwards a method is
    public if and only if it is one of the listed methods or was public
    before; the identity client of the interceptor is unchanged. *)
Theorem SetPublicMethods_adds_exactly (i : AuthInterceptor) (methods : list string)
    (m : string) :
  (isPublic (SetPublicMethods i methods) m = true <->
   m ∈ methods \/ isPublic i m = true) /\
  ssoClient (SetPublicMethods i methods) = ssoClient i.
Proof.
  split; [| reflexivity].
  unfold isPublic, SetPublicMethods; simpl.
  generalize (publicMethods i) as mp.
  induction methods as [| x methods IH]; intros mp; simpl.
  - split; [auto | intros [H | H]; [now apply elem_of_nil in H | exact H]].
  - rewrite IH, elem_of_cons. destruct (decide (x = m)) as [-> | Hne].
    + rewrite lookup_insert_eq. simpl. tauto.
    + rewrite lookup_insert_ne by exact Hne. split.
      * intros [H | H]; auto.
      * intros [[H | H] | H]; auto; congruence.
Qed.

Lemma after_limiter_footprint (s : Store) (tok : string) :
  differs_at_most_at (Some tok) s (after_limiter s tok).
Proof.
  unfold differs_at_most_at, after_limiter, bucket_of.
  destruct (rateLimiter s) as [tb |] eqn:Hrl; simpl.
  - split; [reflexivity |]. split.
    + unfold ratelimiter.Allow.
      destruct (ratelimiter.buckets tb !! tok) as [b |]; [destruct (Qgeb _ 1) |]; auto.
    + intros c Hc. unfold ratelimiter.Allow.
      destruct (ratelimiter.buckets tb !! tok) as [b |]; [destruct (Qgeb _ 1) |];
        unfold ratelimiter.with_buckets; simpl; apply lookup_insert_ne; congruence.
  - rewrite Hrl. auto.
Qed.

Lemma same_store_footprint (cred : option string) (s : Store) :
  differs_at_most_at cred s s.
Proof.
  unfold differs_at_most_at. split; [reflexivity |]. split; [| reflexivity].
  destruct (rateLimiter s); auto.
Qed.

Section Agreement.
Context {Req Resp Srv Raw : Type}.

(** X9. The two interceptors decide alike and leave the same store.  For
    a method outside the Public-Method Set and a stream whose context is
    the unary call's context: either both reject, whatever their
    handlers, with the same status error, or both forward, the unary one
    with a context [c] and the stream one with the stream wrapped around
    that same [c].  In both cases the two leave the same store, which is
    the old one but for the bucket of the call's own credential (the old
    one unchanged when no credential could be extracted): no other
    credential's bucket, and nothing of the limiter's configuration,
    is touched. *)
Theorem unary_and_stream_decide_alike (i : AuthInterceptor) (m : string)
    (ctx : Context) (req : Req) (srv : Srv) (stream : ServerStream Raw) (s : Store) :
  isPublic i m = false ->
  stream_Context stream = ctx ->
  exists s1 cred,
    differs_at_most_at cred s s1 /\
    (cred = None -> s1 = s) /\
    (forall tok, cred = Some tok -> extractAccessToken ctx = Ok tok) /\
    ((exists e ev sev,
        rejects (@UnaryInterceptor Req Resp i ctx req (mkUnaryServerInfo m)) s (Err e) s1 ev /\
        rejects (@StreamInterceptor Srv Raw i srv stream (mkStreamServerInfo m)) s
          (Some e) s1 sev) \/
     (exists c ev sev,
        forwards (@UnaryInterceptor Req Resp i ctx req (mkUnaryServerInfo m)) s c req s1 ev /\
        forwards (@StreamInterceptor Srv Raw i srv stream (mkStreamServerInfo m)) s
          srv (wrappedServerStream stream c) s1 sev)).
Proof.
  intros Hpub Hctx. subst ctx.
  destruct (extractAccessToken (stream_Context stream)) as [tok | err] eqn:Hext.
  2: { exists s, None. split; [apply same_store_footprint |].
       split; [reflexivity |]. split; [discriminate |]. left.
       eexists err, _, _. split.
       - exact (unary_extract_fails i _ req (mkUnaryServerInfo m) s err Hpub Hext).
       - exact (stream_extract_fails i srv stream (mkStreamServerInfo m) s err Hpub Hext). }
  exists (after_limiter s tok), (Some tok).
  split; [apply after_limiter_footprint |]. split; [discriminate |].
  split; [now intros tok' [= <-] |].
  destruct (admitted s tok) eqn:Hadm.
  2: { destruct (not_admitted _ _ Hadm) as (tb & Hrl & Hdeny). left.
       eexists _, _, _. split.
       - exact (unary_rate_limited i _ req (mkUnaryServerInfo m) s tok tb Hpub Hext Hrl Hdeny).
       - exact (stream_rate_limited i srv stream (mkStreamServerInfo m) s tok tb
                  Hpub Hext Hrl Hdeny). }
  destruct (result_of (sso.ValidateJWT (ssoClient i) (stream_Context stream) tok)
              (after_limiter s tok)) as [resp | err] eqn:Hval.
  - right. eexists _, _, _. split.
    + exact (unary_validated i _ req (mkUnaryServerInfo m) s tok resp Hpub Hext Hadm Hval).
    + exact (stream_validated i srv stream (mkStreamServerInfo m) s tok resp
               Hpub Hext Hadm Hval).
  - left. eexists _, _, _. split.
    + exact (unary_validation_fails i _ req (mkUnaryServerInfo m) s tok err
               Hpub Hext Hadm Hval).
    + exact (stream_validation_fails i srv stream (mkStreamServerInfo m) s tok err
               Hpub Hext Hadm Hval).
Qed.

(** X10. Behind the interceptor [MustGetUserFromContext] cannot panic:
    for a method outside the Public-Method Set, whenever the unary
    interceptor hands a call on, the accessor returns on the context the
    handler receives, and the credential can be read from it as well; for
    a public method the handler receives the incoming context as it is,
    so the accessor panics there exactly when no identity was bound
    upstream. *)
Theorem handler_finds_the_identity (i : AuthInterceptor) (m : string)
    (ctx : Context) (req : Req) (s : Store) :
  (isPublic i m = false ->
   forall c s1 ev,
     forwards (@UnaryInterceptor Req Resp i ctx req (mkUnaryServerInfo m)) s c req s1 ev ->
     (exists u, MustGetUserFromContext c = Returns u) /\
     (exists tok, GetAccessTokenFromContext c = Some tok /\
                  extractAccessToken ctx = Ok tok)) /\
  (isPublic i m = true ->
   forwards (@UnaryInterceptor Req Resp i ctx req (mkUnaryServerInfo m)) s ctx req s [] /\
   (MustGetUserFromContext ctx = Panics "user not found in context" <->
    GetUserFromContext ctx = None)).
Proof.
  split.
  - intros Hpub c s1 ev Hfwd.
    assert (Hv : validated i ctx s c)
      by (apply (unary_forwards_iff (Resp:=Resp) i ctx req (mkUnaryServerInfo m) s c Hpub); eauto).
    destruct Hv as (tok & resp & Hext & _ & _ & ->). split.
    + exists (userInfoOf resp). reflexivity.
    + exists tok. split; [reflexivity | exact Hext].
  - intros Hpub. split.
    + intros handler. rewrite unary_public by exact Hpub.
      now destruct (handler ctx req s) as [[r s2] ev2].
    + unfold MustGetUserFromContext. destruct (GetUserFromContext ctx); split;
        congruence.
Qed.

End Agreement.

Lemma unary_and_stream_decide_alike_witness :
  exists s1 cred,
    differs_at_most_at cred fresh_store s1 /\
    (cred = None -> s1 = fresh_store) /\
    (forall tok, cred = Some tok ->
       extractAccessToken (call_with ["Bearer good"%string]) = Ok tok) /\
    ((exists e ev sev,
        rejects (@UnaryInterceptor unit unit sample_interceptor (call_with ["Bearer good"%string])
                   tt (mkUnaryServerInfo CreatePlan)) fresh_store (Err e) s1 ev /\
        rejects (@StreamInterceptor unit unit sample_interceptor tt
                   (transportStream (call_with ["Bearer good"%string]) tt)
                   (mkStreamServerInfo CreatePlan)) fresh_store (Some e) s1 sev) \/
     (exists c ev sev,
        forwards (@UnaryInterceptor unit unit sample_interceptor (call_with ["Bearer good"%string])
                    tt (mkUnaryServerInfo CreatePlan)) fresh_store c tt s1 ev /\
        forwards (@StreamInterceptor unit unit sample_interceptor tt
                    (transportStream (call_with ["Bearer good"%string]) tt)
                    (mkStreamServerInfo CreatePlan)) fresh_store
          tt (wrappedServerStream (transportStream (call_with ["Bearer good"%string]) tt) c)
          s1 sev)).
Proof.
  exact (unary_and_stream_decide_alike (Req:=unit) (Resp:=unit) (Srv:=unit) (Raw:=unit)
           sample_interceptor CreatePlan (call_with ["Bearer good"%string]) tt tt
           (transportStream (call_with ["Bearer good"%string]) tt) fresh_store
           CreatePlan_not_public eq_refl).
Defined.

(** X11. The header the identity client writes is the header the
    interceptor reads: [contextWithAccessToken] appends one pair to the
    outgoing metadata, leaving the rest of the context as it was; its key
    is the [authorization] key the interceptor looks up, and a call that
    arrives with the pair's value as its first [authorization] value
    yields the very credential back. *)
Theorem bearer_header_round_trip (ctx : Context) (tok : string) :
  exists v,
    outgoing (sso.contextWithAccessToken ctx tok) = outgoing ctx ++ [("authorization"%string, v)] /\
    incoming (sso.contextWithAccessToken ctx tok) = incoming ctx /\
    values (sso.contextWithAccessToken ctx tok) = values ctx /\
    deadline (sso.contextWithAccessToken ctx tok) = deadline ctx /\
    forall arriving md rest,
      incoming arriving = Some md ->
      MD_Get md "authorization" = v :: rest ->
      extractAccessToken arriving = Ok tok.
Proof.
  exists (sso.BearerPrefix ++ tok)%string. repeat split.
  intros arriving md rest Hmd Hget.
  unfold extractAccessToken, FromIncomingContext. rewrite Hmd, Hget.
  unfold sso.BearerPrefix.
  assert (Hp : HasPrefix ("Bearer " ++ tok) "Bearer " = true)
    by (apply HasPrefix_spec; eauto).
  rewrite Hp. simpl negb. cbv iota. now rewrite TrimPrefix_app.
Qed.

End InterceptorMore.

(** * More on the chain builders: composition and the first interceptor *)

Module ChainMore.
Import effects observe grpcapp chain_contract ChainFacts.

Section Composition.
Context {Ctx Req Info Srv Stream R : Type}.

Lemma chainUnary_eq (l : list (@UnaryServerInterceptor Ctx Req Info R))
    (ctx : Ctx) (req : Req) (info : Info) (H : UnaryHandler) :
  chainUnaryInterceptors l ctx req info H = nestedUnary l info H ctx req.
Proof.
  unfold chainUnaryInterceptors. rewrite unaryLoop_nested by lia. now rewrite firstn_all.
Qed.

Lemma chainStream_eq (l : list (@StreamServerInterceptor Info Srv Stream R))
    (srv : Srv) (stream : Stream) (info : Info) (H : StreamHandler) :
  chainStreamInterceptors l srv stream info H = nestedStream l info H srv stream.
Proof.
  unfold chainStreamInterceptors. rewrite streamLoop_nested by lia. now rewrite firstn_all.
Qed.

Lemma chainUnary_nested (l : list (@UnaryServerInterceptor Ctx Req Info R))
    (info : Info) (H : UnaryHandler) :
  (fun ctx req => chainUnaryInterceptors l ctx req info H) = nestedUnary l info H.
Proof.
  unfold chainUnaryInterceptors.
  change (unaryLoop l info (length l) H = nestedUnary l info H).
  rewrite unaryLoop_nested by lia. now rewrite firstn_all.
Qed.

Lemma chainStream_nested (l : list (@StreamServerInterceptor Info Srv Stream R))
    (info : Info) (H : StreamHandler) :
  (fun srv stream => chainStreamInterceptors l srv stream info H) = nestedStream l info H.
Proof.
  unfold chainStreamInterceptors.
  change (streamLoop l info (length l) H = nestedStream l info H).
  rewrite streamLoop_nested by lia. now rewrite firstn_all.
Qed.

(** X12. Chains compose.  The interceptor built from no interceptor
    calls the handler with the call as it is, the one built from a single
    interceptor is that interceptor, and the one built from a
    concatenation is the chain of the first list around the chain of the
    second: a built chain can itself be put in a list and chained again,
    with the result of chaining the flattened list.  The same holds of
    the stream builder. *)
Theorem chains_compose :
  (forall (ctx : Ctx) (req : Req) (info : Info) (H : @UnaryHandler Ctx Req R),
     @chainUnaryInterceptors Ctx Req Info R [] ctx req info H = H ctx req) /\
  (forall (I : @UnaryServerInterceptor Ctx Req Info R) ctx req info
          (H : @UnaryHandler Ctx Req R),
     chainUnaryInterceptors [I] ctx req info H = I ctx req info H) /\
  (forall (l1 l2 : list (@UnaryServerInterceptor Ctx Req Info R)) ctx req info
          (H : @UnaryHandler Ctx Req R),
     chainUnaryInterceptors (l1 ++ l2) ctx req info H
     = chainUnaryInterceptors l1 ctx req info
         (fun c r => chainUnaryInterceptors l2 c r info H)) /\
  (forall (l1 l2 l3 : list (@UnaryServerInterceptor Ctx Req Info R)) ctx req info
          (H : @UnaryHandler Ctx Req R),
     chainUnaryInterceptors (l1 ++ chainUnaryInterceptors l2 :: l3) ctx req info H
     = chainUnaryInterceptors (l1 ++ l2 ++ l3) ctx req info H) /\
  (forall (srv : Srv) (stream : Stream) (info : Info) (H : @StreamHandler Srv Stream R),
     @chainStreamInterceptors Info Srv Stream R [] srv stream info H = H srv stream) /\
  (forall (I : @StreamServerInterceptor Info Srv Stream R) srv stream info
          (H : @StreamHandler Srv Stream R),
     chainStreamInterceptors [I] srv stream info H = I srv stream info H) /\
  (forall (l1 l2 : list (@StreamServerInterceptor Info Srv Stream R)) srv stream info
          (H : @StreamHandler Srv Stream R),
     chainStreamInterceptors (l1 ++ l2) srv stream info H
     = chainStreamInterceptors l1 srv stream info
         (fun v t => chainStreamInterceptors l2 v t info H)) /\
  (forall (l1 l2 l3 : list (@StreamServerInterceptor Info Srv Stream R)) srv stream info
          (H : @StreamHandler Srv Stream R),
     chainStreamInterceptors (l1 ++ chainStreamInterceptors l2 :: l3) srv stream info H
     = chainStreamInterceptors (l1 ++ l2 ++ l3) srv stream info H).
Proof.
  repeat split.
  - intros l1 l2 ctx req info H.
    rewrite !chainUnary_eq, nestedUnary_app. now rewrite (chainUnary_nested l2).
  - intros l1 l2 l3 ctx req info H.
    rewrite !chainUnary_eq, !nestedUnary_app. cbn [nestedUnary].
    now rewrite (chainUnary_nested l2).
  - intros l1 l2 srv stream info H.
    rewrite !chainStream_eq, nestedStream_app. now rewrite (chainStream_nested l2).
  - intros l1 l2 l3 srv stream info H.
    rewrite !chainStream_eq, !nestedStream_app. cbn [nestedStream].
    now rewrite (chainStream_nested l2).
Qed.

End Composition.

Section FirstInterceptor.
Context {Ctx Req Info A : Type}.

(** X13. A chain follows its first interceptor.  When the first
    interceptor of the list answers a call without its handler, the chain
    answers the same, with the same store and events, whatever the rest of
    the list and the terminal handler are: nothing after it runs.  When it
    hands the call on, with a context and a request of its choice, the
    rest of the list, chained, runs on exactly those, from the store the
    first interceptor left and after its events. *)
Theorem chain_follows_its_first_interceptor
    (I : @UnaryServerInterceptor Ctx Req Info (M A))
    (rest : list (@UnaryServerInterceptor Ctx Req Info (M A)))
    (ctx : Ctx) (req : Req) (info : Info) (s : Store) :
  (forall r s1 ev,
     rejects (I ctx req info) s r s1 ev ->
     rejects (chainUnaryInterceptors (I :: rest) ctx req info) s r s1 ev) /\
  (forall c q s1 ev,
     forwards (I ctx req info) s c q s1 ev ->
     forall H,
       chainUnaryInterceptors (I :: rest) ctx req info H s
       = (((chainUnaryInterceptors rest c q info H s1).1.1,
           (chainUnaryInterceptors rest c q info H s1).1.2),
          ev ++ (chainUnaryInterceptors rest c q info H s1).2)).
Proof.
  assert (Hhead : forall H,
            chainUnaryInterceptors (I :: rest) ctx req info H
            = I ctx req info (fun c r => chainUnaryInterceptors rest c r info H)).
  { intros H. rewrite chainUnary_eq. cbn [nestedUnary].
    now rewrite (chainUnary_nested rest). }
  split.
  - intros r s1 ev Hrej H. rewrite Hhead. apply Hrej.
  - intros c q s1 ev Hfwd H. rewrite Hhead. apply Hfwd.
Qed.

End FirstInterceptor.

End ChainMore.

(** * Properties of the application: the server it builds, the connection
      to the identity service *)

Module AppFacts.
Import GoNum transport effects grpcInt grpcCtx grpcserver observe app appObserve.

Lemma sso_New_Err (dial : sso.Dialer) (cfg : Config) (s : Store) (err : error) :
  attempt dial cfg (clock s) = Err err ->
  sso.New dial Background (ssoConfig cfg) s
  = ((Err (Wrapped "clients.sso.New: failed to connect to SSO service" err), s),
     [EvDial (attempt_ctx (SSO_timeout cfg) (clock s)) (SSO_address cfg)]).
Proof.
  unfold attempt, attempt_ctx, attempt_opts. intros H.
  unfold sso.New, sso.DialContext, bind, ret, emit, slog, time_Now, ssoConfig.
  cbn [sso.Insecure sso.Timeout sso.Address]. cbv beta iota zeta.
  rewrite H. reflexivity.
Qed.

Lemma sso_New_Ok (dial : sso.Dialer) (cfg : Config) (s : Store) (cc : sso.ClientConn) :
  attempt dial cfg (clock s) = Ok cc ->
  sso.New dial Background (ssoConfig cfg) s
  = ((Ok (client_of cc), s),
     [EvDial (attempt_ctx (SSO_timeout cfg) (clock s)) (SSO_address cfg);
      EvLog LevelInfo "SSO client connected" [AttrString "address" (SSO_address cfg)]]).
Proof.
  unfold attempt, attempt_ctx, attempt_opts. intros H.
  unfold sso.New, sso.DialContext, bind, ret, emit, slog, time_Now, ssoConfig.
  cbn [sso.Insecure sso.Timeout sso.Address]. cbv beta iota zeta.
  rewrite H. reflexivity.
Qed.

Lemma configured_public_methods (client : sso.Client) (m : string) :
  isPublic (SetPublicMethods (NewAuthInterceptor client) [ListPlans; GetPlan]) m = true
  <-> m = ListPlans \/ m = GetPlan.
Proof.
  unfold isPublic, SetPublicMethods, NewAuthInterceptor. cbn [publicMethods fold_left].
  destruct (decide (GetPlan = m)) as [<- | Hg].
  - rewrite lookup_insert_eq. simpl. tauto.
  - rewrite lookup_insert_ne by exact Hg.
    destruct (decide (ListPlans = m)) as [<- | Hl].
    + rewrite lookup_insert_eq. simpl. tauto.
    + rewrite lookup_insert_ne by exact Hl. rewrite lookup_empty. simpl.
      split; [discriminate | intros [-> | ->]; congruence].
Qed.

Section Application.
Context {Req Resp Srv Raw : Type}.

Lemma grpcapp_New_None (port : Z) (s : Store) :
  @grpcapp_server.New Req Resp Srv Raw port None s
  = ((Returns {| grpcapp_server.gRPCServer :=
                   {| unaryInt := None; streamInt := None;
                      services := [reflection_Register; RegisterManagementServer] |};
                 grpcapp_server.port := port;
                 grpcapp_server.authInterceptor := None |}, s),
     [EvLog LevelWarn "auth interceptor disabled - SSO client not available" [];
      EvLog LevelInfo "management service registered" []]).
Proof. reflexivity. Qed.

Lemma grpcapp_New_Some (port : Z) (client : sso.Client) (s : Store) :
  let i := SetPublicMethods (NewAuthInterceptor client) [ListPlans; GetPlan] in
  @grpcapp_server.New Req Resp Srv Raw port (Some client) s
  = ((Returns {| grpcapp_server.gRPCServer :=
                   {| unaryInt := Some (UnaryInterceptor i);
                      streamInt := Some (StreamInterceptor i);
                      services := [reflection_Register; RegisterManagementServer] |};
                 grpcapp_server.port := port;
                 grpcapp_server.authInterceptor := Some i |}, s),
     [EvLog LevelInfo "auth interceptor enabled with rate limiting" [];
      EvLog LevelInfo "management service registered" []]).
Proof. reflexivity. Qed.

(** X14. [grpcapp.New] protects the server exactly when it is given an
    identity client.  It always returns (no interceptor is set twice),
    leaves the store alone, keeps the configured port and registers
    reflection and then the management service.  Without a client the
    server has no interceptor: every handler, unary or stream, runs
    directly on the call as it arrived.  With a client both kinds of call
    go through one interceptor, built on that client, whose Public-Method
    Set is exactly [ListPlans] and [GetPlan]. *)
Theorem grpcapp_New_protects_iff_connected (port : Z) (client : option sso.Client)
    (s : Store) :
  exists a ev,
    @grpcapp_server.New Req Resp Srv Raw port client s = ((Returns a, s), ev) /\
    grpcapp_server.port a = port /\
    services (grpcapp_server.gRPCServer a) = [reflection_Register; RegisterManagementServer] /\
    match client with
    | None =>
        grpcapp_server.authInterceptor a = None /\
        unprotected (grpcapp_server.gRPCServer a)
    | Some c =>
        exists i,
          grpcapp_server.authInterceptor a = Some i /\
          ssoClient i = c /\
          (forall m, isPublic i m = true <-> m = ListPlans \/ m = GetPlan) /\
          protected_by (grpcapp_server.gRPCServer a) i
    end.
Proof.
  destruct client as [c |].
  - eexists _, _. split; [apply grpcapp_New_Some |].
    split; [reflexivity |]. split; [reflexivity |].
    eexists. split; [reflexivity |]. split; [reflexivity |].
    split; [apply configured_public_methods |]. split; reflexivity.
  - eexists _, _. split; [apply grpcapp_New_None |].
    split; [reflexivity |]. split; [reflexivity |]. split; [reflexivity |].
    split; reflexivity.
Qed.

Lemma app_New_Err (dial : sso.Dialer) (cfg : Config) (s : Store) (err : error) :
  attempt dial cfg (clock s) = Err err ->
  exists ev,
    @New Req Resp Srv Raw dial cfg s
    = ((Returns {| GRPCSrv :=
                     {| grpcapp_server.gRPCServer :=
                          {| unaryInt := None; streamInt := None;
                             services := [reflection_Register; RegisterManagementServer] |};
                        grpcapp_server.port := GRPC_Port cfg;
                        grpcapp_server.authInterceptor := None |};
                   SSOClient := None |},
        {| rateLimiter := Some (ratelimiter.New (RateLimiter cfg)); clock := clock s |}), ev) /\
    List.filter is_Dial ev = [EvDial (attempt_ctx (SSO_timeout cfg) (clock s)) (SSO_address cfg)].
Proof.
  intros H. eexists. split.
  - unfold New. unfold bind at 1. unfold new_rateLimiter at 1.
    unfold bind at 1. unfold slog at 1, emit at 1.
    unfold bind at 1.
    rewrite (sso_New_Err dial cfg {| rateLimiter := _; clock := clock s |} err) by exact H.
    unfold bind at 1. unfold bind at 1. unfold slog at 1, emit at 1. unfold ret at 1.
    unfold bind at 1. rewrite grpcapp_New_None. reflexivity.
  - reflexivity.
Qed.

Lemma app_New_Ok (dial : sso.Dialer) (cfg : Config) (s : Store) (cc : sso.ClientConn) :
  attempt dial cfg (clock s) = Ok cc ->
  let i := SetPublicMethods (NewAuthInterceptor (client_of cc)) [ListPlans; GetPlan] in
  exists ev,
    @New Req Resp Srv Raw dial cfg s
    = ((Returns {| GRPCSrv :=
                     {| grpcapp_server.gRPCServer :=
                          {| unaryInt := Some (UnaryInterceptor i);
                             streamInt := Some (StreamInterceptor i);
                             services := [reflection_Register; RegisterManagementServer] |};
                        grpcapp_server.port := GRPC_Port cfg;
                        grpcapp_server.authInterceptor := Some i |};
                   SSOClient := Some (client_of cc) |},
        {| rateLimiter := Some (ratelimiter.New (RateLimiter cfg)); clock := clock s |}), ev) /\
    List.filter is_Dial ev = [EvDial (attempt_ctx (SSO_timeout cfg) (clock s)) (SSO_address cfg)].
Proof.
  intros H i. eexists. split.
  - unfold New. unfold bind at 1. unfold new_rateLimiter at 1.
    unfold bind at 1. unfold slog at 1, emit at 1.
    unfold bind at 1.
    rewrite (sso_New_Ok dial cfg {| rateLimiter := _; clock := clock s |} cc) by exact H.
    unfold bind at 1. unfold ret at 1.
    unfold bind at 1. rewrite grpcapp_New_Some. reflexivity.
  - reflexivity.
Qed.

(** X15. [app.New] fails open.  It installs a limiter built from the
    configuration, dials the identity service exactly once, under a
    context whose deadline is the configured timeout after the clock
    reading, and always returns an application.  When that dial fails the
    application has no identity client and its server no interceptor:
    every handler runs directly on the call as it arrived, with no
    credential asked for and no limiter consulted.  When the dial
    succeeds the application holds the client of that connection and its
    server runs every call through an interceptor built on that client,
    with [ListPlans] and [GetPlan] as the only public methods. *)
Theorem app_New_fails_open (dial : sso.Dialer) (cfg : Config) (s : Store) :
  exists a ev,
    @New Req Resp Srv Raw dial cfg s
    = ((Returns a,
        {| rateLimiter := Some (ratelimiter.New (RateLimiter cfg)); clock := clock s |}), ev) /\
    List.filter is_Dial ev
      = [EvDial (attempt_ctx (SSO_timeout cfg) (clock s)) (SSO_address cfg)] /\
    deadline (attempt_ctx (SSO_timeout cfg) (clock s)) = Some (clock s + SSO_timeout cfg) /\
    grpcapp_server.port (GRPCSrv a) = GRPC_Port cfg /\
    match attempt dial cfg (clock s) with
    | Err _ =>
        SSOClient a = None /\
        grpcapp_server.authInterceptor (GRPCSrv a) = None /\
        unprotected (grpcapp_server.gRPCServer (GRPCSrv a))
    | Ok cc =>
        SSOClient a = Some (client_of cc) /\
        exists i,
          grpcapp_server.authInterceptor (GRPCSrv a) = Some i /\
          ssoClient i = client_of cc /\
          (forall m, isPublic i m = true <-> m = ListPlans \/ m = GetPlan) /\
          protected_by (grpcapp_server.gRPCServer (GRPCSrv a)) i
    end.
Proof.
  destruct (attempt dial cfg (clock s)) as [cc | err] eqn:Hdial.
  - destruct (app_New_Ok dial cfg s cc Hdial) as (ev & Hrun & Hev).
    eexists _, ev. split; [exact Hrun |]. split; [exact Hev |].
    split; [reflexivity |]. split; [reflexivity |]. split; [reflexivity |].
    eexists. split; [reflexivity |]. split; [reflexivity |].
    split; [apply configured_public_methods |]. split; reflexivity.
  - destruct (app_New_Err dial cfg s err Hdial) as (ev & Hrun & Hev).
    eexists _, ev. split; [exact Hrun |]. split; [exact Hev |].
    split; [reflexivity |]. split; [reflexivity |]. split; [reflexivity |].
    split; [reflexivity |]. split; reflexivity.
Qed.

End Application.

Ltac conjuncts := repeat match goal with |- _ /\ _ => split end.

Lemma time_Sleep_run (late : Time -> Duration -> N) (d : Duration) (s : Store) :
  time_Sleep late d s = ((tt, after_Sleep late d s), []).
Proof.
  unfold after_Sleep, store_of, time_Sleep. now destruct (d <=? 0).
Qed.

Lemma after_Sleep_frame (late : Time -> Duration -> N) (d : Duration) (s : Store) :
  rateLimiter (after_Sleep late d s) = rateLimiter s /\
  clock s <= clock (after_Sleep late d s) /\
  (0 < d -> clock s + d <= clock (after_Sleep late d s)) /\
  (0 < d -> (forall t x, late t x = 0%N) -> clock (after_Sleep late d s) = clock s + d).
Proof.
  unfold after_Sleep, store_of, time_Sleep.
  destruct (Z.leb_spec d 0); simpl.
  - repeat split; lia.
  - repeat split; try lia. intros _ Hl. rewrite Hl. lia.
Qed.

Lemma backoff_exact (i : Z) :
  0 <= i -> i + 1 <= 9223372036 ->
  wrap_int (Second * wrap_int (i + 1)) = Second * (i + 1).
Proof.
  intros H0 H1. unfold wrap_int, Second.
  rewrite (Z.mod_small (i + 1 + 2 ^ 63)) by lia.
  replace (i + 1 + 2 ^ 63 - 2 ^ 63) with (i + 1) by lia.
  rewrite Z.mod_small by lia. lia.
Qed.

Section Reconnection.
Context {Req Resp Srv Raw : Type}.
Variables (dial : sso.Dialer) (late : Time -> Duration -> N) (cfg : Config).
Variables (a : @App Req Resp Srv Raw) (maxRetries : Z).

Lemma connectLoop_O (i : Z) (s : Store) :
  connectLoop dial late cfg a maxRetries O i s
  = ((a, s), [EvLog LevelError "failed to connect to SSO service after all retries" []]).
Proof. reflexivity. Qed.

Lemma connectLoop_Ok (n : nat) (i : Z) (s : Store) (cc : sso.ClientConn) :
  attempt dial cfg (clock s) = Ok cc ->
  connectLoop dial late cfg a maxRetries (S n) i s
  = (({| GRPCSrv := GRPCSrv a; SSOClient := Some (client_of cc) |}, s),
     [EvDial (attempt_ctx (SSO_timeout cfg) (clock s)) (SSO_address cfg);
      EvLog LevelInfo "SSO client connected" [AttrString "address" (SSO_address cfg)];
      EvLog LevelInfo "SSO client connected successfully" []]).
Proof.
  intros H. cbn [connectLoop]. unfold bind at 1.
  rewrite (sso_New_Ok dial cfg s cc H). reflexivity.
Qed.

Lemma connectLoop_Err (n : nat) (i : Z) (s : Store) (err : error) :
  attempt dial cfg (clock s) = Err err ->
  let s1 := after_Sleep late (wrap_int (Second * wrap_int (i + 1))) s in
  let r := connectLoop dial late cfg a maxRetries n (i + 1) s1 in
  connectLoop dial late cfg a maxRetries (S n) i s
  = ((r.1.1, r.1.2),
     [EvDial (attempt_ctx (SSO_timeout cfg) (clock s)) (SSO_address cfg);
      EvLog LevelWarn "SSO connection attempt failed"
        [AttrInt "attempt" (wrap_int (i + 1)); AttrInt "max_retries" maxRetries;
         AttrString "error"
           (Error (Wrapped "clients.sso.New: failed to connect to SSO service" err))]]
     ++ r.2).
Proof.
  intros H s1 r. cbn [connectLoop]. unfold bind at 1.
  rewrite (sso_New_Err dial cfg s err H).
  unfold bind at 1. unfold slog at 1, emit at 1.
  unfold bind at 1. rewrite time_Sleep_run. fold s1. fold r.
  destruct r as [[a1 s2] ev]. reflexivity.
Qed.

(** What every run of the loop keeps. *)
Lemma connectLoop_frame (n : nat) :
  forall (i : Z) (s : Store),
    let r := connectLoop dial late cfg a maxRetries n i s in
    GRPCSrv r.1.1 = GRPCSrv a /\
    rateLimiter r.1.2 = rateLimiter s /\
    clock s <= clock r.1.2 /\
    (dials r.2 <= n)%nat /\
    (SSOClient a = None -> SSOClient r.1.1 = None -> r.1.1 = a /\ dials r.2 = n) /\
    (SSOClient a = None -> forall c, SSOClient r.1.1 = Some c ->
       exists cc, attempt dial cfg (clock r.1.2) = Ok cc /\ c = client_of cc).
Proof.
  induction n as [| k IH]; intros i s.
  - rewrite connectLoop_O. cbn [fst snd]. unfold dials. cbn [List.filter is_Dial length].
    conjuncts; try lia; auto. intros Ha c Hc. congruence.
  - destruct (attempt dial cfg (clock s)) as [cc | err] eqn:Hdial.
    + rewrite (connectLoop_Ok k i s cc Hdial). cbn [fst snd GRPCSrv SSOClient].
      unfold dials. cbn [List.filter is_Dial length].
      conjuncts; try lia; try discriminate; auto.
      intros _ c [= <-]. eauto.
    + rewrite (connectLoop_Err k i s err Hdial). cbv zeta.
      set (s1 := after_Sleep late (wrap_int (Second * wrap_int (i + 1))) s).
      specialize (IH (i + 1) s1). cbv zeta in IH.
      destruct (connectLoop dial late cfg a maxRetries k (i + 1) s1) as [[a1 s2] ev].
      cbn [fst snd] in *.
      destruct (after_Sleep_frame late (wrap_int (Second * wrap_int (i + 1))) s)
        as (Hrl & Hclk & _).
      fold s1 in Hrl, Hclk.
      destruct IH as (H1 & H2 & H3 & H4 & H5 & H6).
      unfold dials in *. cbn [app List.filter is_Dial length].
      conjuncts; try congruence; try lia.
      * intros Ha Ha1. destruct (H5 Ha Ha1). split; [assumption | lia].
      * exact H6.
Qed.

(** X16. [MustConnectSSO] touches nothing but the identity client.
    Whatever the dialler answers, the server of the application (and so
    its interceptor, or the lack of one) and the limiter are as before,
    the clock has not run backwards, and at most [maxRetries] connection
    attempts were made.  An application that already has a client is
    returned as it is, with no attempt and no event; so is one asked for
    no retry, but for the report of failure.  An application still
    without a client afterwards has made all [maxRetries] attempts; one
    that gained a client holds the client of a connection the dialler
    answered at the final clock reading. *)
Theorem MustConnectSSO_only_sets_the_client (s : Store) :
  let m := MustConnectSSO dial late a cfg maxRetries in
  GRPCSrv (result_of m s) = GRPCSrv a /\
  rateLimiter (store_of m s) = rateLimiter s /\
  clock s <= clock (store_of m s) /\
  (dials (events_of m s) <= Z.to_nat maxRetries)%nat /\
  (forall c, SSOClient a = Some c -> m s = ((a, s), [])) /\
  (maxRetries <= 0 ->
   result_of m s = a /\ store_of m s = s /\ dials (events_of m s) = 0%nat) /\
  (SSOClient (result_of m s) = None ->
   result_of m s = a /\ dials (events_of m s) = Z.to_nat maxRetries) /\
  (SSOClient a = None -> forall c, SSOClient (result_of m s) = Some c ->
     exists cc, attempt dial cfg (clock (store_of m s)) = Ok cc /\ c = client_of cc).
Proof.
  intros m. subst m. unfold MustConnectSSO, result_of, store_of, events_of.
  destruct (SSOClient a) as [c0 |] eqn:Ha.
  - cbn [ret fst snd]. unfold dials. cbn [List.filter length].
    conjuncts; try lia; try congruence; auto.
  - destruct (connectLoop_frame (Z.to_nat maxRetries) 0 s) as (H1 & H2 & H3 & H4 & H5 & H6).
    conjuncts; auto; try discriminate.
    + intros Hle. replace (Z.to_nat maxRetries) with 0%nat by lia.
      rewrite connectLoop_O. auto.
Qed.

(** The loop when the service never answers. *)
Lemma connectLoop_never_up (n : nat) :
  never_up dial cfg ->
  forall (i : Z) (s : Store),
    0 <= i -> i + Z.of_nat n <= 9223372036 ->
    let r := connectLoop dial late cfg a maxRetries n i s in
    r.1.1 = a /\
    dials r.2 = n /\
    last r.2 = Some (EvLog LevelError "failed to connect to SSO service after all retries" []) /\
    Second * (Z.of_nat n * (2 * i + Z.of_nat n + 1)) <= 2 * (clock r.1.2 - clock s) /\
    ((forall t x, late t x = 0%N) ->
     2 * (clock r.1.2 - clock s) = Second * (Z.of_nat n * (2 * i + Z.of_nat n + 1))).
Proof.
  intros Hdown. induction n as [| k IH]; intros i s Hi Hn.
  - rewrite connectLoop_O. cbn [fst snd]. unfold dials. cbn. repeat split; lia.
  - destruct (Hdown (clock s)) as [err Hdial].
    rewrite (connectLoop_Err k i s err Hdial). cbv zeta.
    rewrite backoff_exact by lia.
    set (s1 := after_Sleep late (Second * (i + 1)) s).
    specialize (IH (i + 1) s1 ltac:(lia) ltac:(lia)). cbv zeta in IH.
    destruct (connectLoop dial late cfg a maxRetries k (i + 1) s1) as [[a1 s2] ev].
    cbn [fst snd] in *.
    destruct (after_Sleep_frame late (Second * (i + 1)) s) as (_ & _ & Hge & Heq).
    fold s1 in Hge, Heq.
    assert (Hpos : 0 < Second * (i + 1)) by (unfold Second; lia).
    specialize (Hge Hpos). specialize (Heq Hpos).
    destruct IH as (H1 & H2 & H3 & H4 & H5).
    unfold dials in *. cbn [app List.filter is_Dial length].
    split; [exact H1 |]. split; [now rewrite H2 |]. split.
    + destruct ev as [| e ev]; [discriminate | exact H3].
    + unfold Second in *. split.
      * nia.
      * intros Hl. specialize (Heq Hl). specialize (H5 Hl). nia.
Qed.

(** The loop when the service answers from [T] on. *)
Lemma connectLoop_up_from (T : Time) (n : nat) :
  up_from dial cfg T ->
  forall (i : Z) (s : Store),
    0 <= i -> i + Z.of_nat (S n) <= 9223372036 ->
    2 * (T - clock s) <= Second * (Z.of_nat n * (2 * i + Z.of_nat n + 1)) ->
    exists cc,
      SSOClient (connectLoop dial late cfg a maxRetries (S n) i s).1.1
      = Some (client_of cc).
Proof.
  intros Hup. induction n as [| k IH]; intros i s Hi Hn HT.
  - destruct (Hup (clock s)) as [cc Hdial]; [lia |].
    rewrite (connectLoop_Ok 0 i s cc Hdial). eauto.
  - destruct (attempt dial cfg (clock s)) as [cc | err] eqn:Hdial.
    + rewrite (connectLoop_Ok (S k) i s cc Hdial). eauto.
    + rewrite (connectLoop_Err (S k) i s err Hdial). cbv zeta.
      rewrite backoff_exact by lia.
      set (s1 := after_Sleep late (Second * (i + 1)) s).
      destruct (after_Sleep_frame late (Second * (i + 1)) s) as (_ & _ & Hge & _).
      fold s1 in Hge.
      assert (Hpos : 0 < Second * (i + 1)) by (unfold Second; lia).
      specialize (Hge Hpos).
      destruct (IH (i + 1) s1) as [cc Hcc]; [lia | lia | unfold Second in *; nia |].
      exists cc. exact Hcc.
Qed.

(** X17. Against a service that never answers, [MustConnectSSO] backs off
    linearly and gives up.  For a retry count the back-off cannot
    overflow on, it makes exactly [maxRetries] attempts and sleeps after
    each failure, the last one included: the clock has moved on by at
    least [1 + 2 + ... + maxRetries] seconds (exactly that when no sleep
    overruns); it reports the failure as its last event and returns the
    application as it was. *)
Theorem MustConnectSSO_backs_off_linearly (s : Store) :
  SSOClient a = None ->
  never_up dial cfg ->
  0 <= maxRetries <= 9223372036 ->
  let m := MustConnectSSO dial late a cfg maxRetries in
  result_of m s = a /\
  dials (events_of m s) = Z.to_nat maxRetries /\
  last (events_of m s)
    = Some (EvLog LevelError "failed to connect to SSO service after all retries" []) /\
  Second * (maxRetries * (maxRetries + 1)) <= 2 * (clock (store_of m s) - clock s) /\
  ((forall t x, late t x = 0%N) ->
   2 * (clock (store_of m s) - clock s) = Second * (maxRetries * (maxRetries + 1))).
Proof.
  intros Ha Hdown Hmax m. subst m.
  unfold MustConnectSSO, result_of, store_of, events_of. rewrite Ha.
  destruct (connectLoop_never_up (Z.to_nat maxRetries) Hdown 0 s ltac:(lia) ltac:(lia))
    as (H1 & H2 & H3 & H4 & H5).
  rewrite Z2Nat.id in H4, H5 by lia.
  replace (2 * 0 + maxRetries + 1) with (maxRetries + 1) in H4, H5 by lia.
  auto.
Qed.

(** X18. [MustConnectSSO] connects when the service comes up in time.
    If the service answers every attempt made at [T] or later, and the
    sleeps after the first [maxRetries - 1] failures, of
    [1 + 2 + ... + (maxRetries - 1)] seconds in all, reach from the
    present clock reading to [T], then the application comes back with an
    identity client. *)
Theorem MustConnectSSO_connects_in_time (T : Time) (s : Store) :
  SSOClient a = None ->
  up_from dial cfg T ->
  1 <= maxRetries <= 9223372036 ->
  2 * (T - clock s) <= Second * ((maxRetries - 1) * maxRetries) ->
  exists cc,
    SSOClient (result_of (MustConnectSSO dial late a cfg maxRetries) s)
    = Some (client_of cc).
Proof.
  intros Ha Hup Hmax HT. unfold MustConnectSSO, result_of. rewrite Ha.
  destruct (Z.to_nat maxRetries) as [| k] eqn:Hk; [lia |].
  apply (connectLoop_up_from T k Hup 0 s); [lia | lia |].
  replace (Z.of_nat k) with (maxRetries - 1) by lia.
  replace (2 * 0 + (maxRetries - 1) + 1) with maxRetries by lia. exact HT.
Qed.

End Reconnection.

Section Restart.
Context {Req Resp Srv Raw : Type}.

(** X19. Reconnecting does not switch authentication on.  An application
    that [app.New] built while the identity service was unreachable, and
    that [MustConnectSSO] later connects, holds an identity client but
    still serves every call unprotected: its server has no interceptor,
    so every handler runs directly on the call as it arrived, with no
    credential asked for and no limiter consulted. *)
Theorem reconnecting_leaves_the_server_unprotected (first dial : sso.Dialer)
    (late : Time -> Duration -> N) (cfg : Config) (maxRetries : Z) (s : Store)
    (err : error) (cc : sso.ClientConn) :
  attempt first cfg (clock s) = Err err ->
  attempt dial cfg (clock s) = Ok cc ->
  1 <= maxRetries ->
  exists a0 s1 ev,
    @New Req Resp Srv Raw first cfg s = ((Returns a0, s1), ev) /\
    SSOClient a0 = None /\
    let a1 := result_of (MustConnectSSO dial late a0 cfg maxRetries) s1 in
    SSOClient a1 = Some (client_of cc) /\
    grpcapp_server.authInterceptor (GRPCSrv a1) = None /\
    unprotected (grpcapp_server.gRPCServer (GRPCSrv a1)).
Proof.
  intros Hfirst Hdial Hmax.
  destruct (app_New_Err (Req:=Req) (Resp:=Resp) (Srv:=Srv) (Raw:=Raw) first cfg s err Hfirst)
    as (ev & Hrun & _).
  eexists _, _, ev. split; [exact Hrun |]. split; [reflexivity |].
  unfold MustConnectSSO, result_of. cbn [SSOClient].
  destruct (Z.to_nat maxRetries) as [| k] eqn:Hk; [lia |].
  rewrite (connectLoop_Ok dial late cfg _ maxRetries k 0 _ cc) by exact Hdial.
  cbn [fst GRPCSrv SSOClient grpcapp_server.authInterceptor grpcapp_server.gRPCServer].
  split; [reflexivity |]. split; [reflexivity |]. split; reflexivity.
Qed.

End Restart.

Lemma reconnecting_leaves_the_server_unprotected_witness :
  exists a0 s1 ev,
    @New unit unit unit unit unreachable sample_config fresh_store = ((Returns a0, s1), ev) /\
    SSOClient a0 = None /\
    let a1 := result_of (MustConnectSSO reachable on_time a0 sample_config 3) s1 in
    SSOClient a1
    = Some (client_of {| sso.target := "sso:44044";
                         sso.invoke_ValidateJWT := sample_remote |}) /\
    grpcapp_server.authInterceptor (GRPCSrv a1) = None /\
    unprotected (grpcapp_server.gRPCServer (GRPCSrv a1)).
Proof.
  apply (reconnecting_leaves_the_server_unprotected (Req:=unit) (Resp:=unit) (Srv:=unit)
           (Raw:=unit) unreachable reachable on_time sample_config 3 fresh_store
           (StatusError Unavailable "connection refused")
           {| sso.target := "sso:44044"; sso.invoke_ValidateJWT := sample_remote |}).
  - reflexivity.
  - reflexivity.
  - lia.
Defined.

Lemma MustConnectSSO_backs_off_linearly_witness :
  let m := MustConnectSSO unreachable on_time sample_unconnected sample_config 3 in
  result_of m fresh_store = sample_unconnected /\
  dials (events_of m fresh_store) = 3%nat /\
  last (events_of m fresh_store)
    = Some (EvLog LevelError "failed to connect to SSO service after all retries" []) /\
  Second * (3 * (3 + 1)) <= 2 * (clock (store_of m fresh_store) - clock fresh_store) /\
  ((forall t x, on_time t x = 0%N) ->
   2 * (clock (store_of m fresh_store) - clock fresh_store) = Second * (3 * (3 + 1))).
Proof.
  apply (MustConnectSSO_backs_off_linearly unreachable on_time sample_config
           sample_unconnected 3 fresh_store).
  - reflexivity.
  - intros now. eexists. reflexivity.
  - lia.
Defined.

Lemma comes_up_at_up_from (T : Time) : up_from (comes_up_at T) sample_config T.
Proof.
  intros now Hnow. unfold attempt, comes_up_at, attempt_ctx, WithTimeout, Background, Add.
  cbn [deadline SSO_timeout sample_config].
  destruct (Z.leb_spec (T + 5 * Second) (now + 5 * Second)); [eauto | lia].
Qed.

Lemma MustConnectSSO_connects_in_time_witness :
  exists cc,
    SSOClient (result_of (MustConnectSSO (comes_up_at 2500000000) on_time sample_unconnected
                            sample_config 3) fresh_store)
    = Some (client_of cc).
Proof.
  apply (MustConnectSSO_connects_in_time (comes_up_at 2500000000) on_time sample_config
           sample_unconnected 3 2500000000 fresh_store).
  - reflexivity.
  - apply comes_up_at_up_from.
  - lia.
  - vm_compute. discriminate.
Defined.

End AppFacts.

(** * Properties of the plan layers: validation, errors, statements *)

Module PlanFacts.
Import GoNum goerrors models planM repository planObserve.
Import effects(LevelDebug, LevelInfo, LevelWarn, LevelError).
Import transport(Internal, NotFound).

Ltac run_plan :=
  unfold planService.through, log_at, bind, ret, emit; cbn [fst snd].

Ltac finish_run := cbn [fst snd]; rewrite ?app_nil_r; reflexivity.

Lemma quiet_nil : quiet [].
Proof. split; reflexivity. Qed.

Lemma quiet_log (l : effects.Level) (msg : string) (attrs : list Attr) (ev : list Event) :
  quiet ev -> quiet (EvLog l msg attrs :: ev).
Proof. intros [H1 H2]. split; cbn; assumption. Qed.

Create HintDb plan.
#[local] Hint Resolve quiet_nil quiet_log : plan.

Lemma repo_calls_app (e1 e2 : list Event) :
  repo_calls (e1 ++ e2) = repo_calls e1 ++ repo_calls e2.
Proof. unfold repo_calls. apply omap_app. Qed.

Lemma statements_app (e1 e2 : list Event) :
  statements (e1 ++ e2) = statements e1 ++ statements e2.
Proof. unfold statements. apply List.filter_app. Qed.

Section Service.
Context {DB : Type}.
Variable text : Sentinel -> string.
Variable ctx : transport.Context.

Section Repo.
Variable planRepo : PlanRepository DB.

Lemma Create_valid_run (req : CreatePlanRequest.t) (w : World DB) :
  valid_create req ->
  let back := repo_Create planRepo ctx req w in
  around RepoCreate back
    (match back.1.1 with
     | Ok plan => Ok plan
     | Err err => Err (Wrap "service.plan.Create" err)
     end)
    (planService.Create text planRepo ctx req w).
Proof.
  intros (Hn & Hc & Hr & Hd & Hp) back. subst back. unfold around, planService.Create.
  apply String.eqb_neq in Hn.
  run_plan. rewrite Hn.
  rewrite (proj2 (Z.leb_gt _ _) Hc), (proj2 (Z.leb_gt _ _) Hr), (proj2 (Z.leb_gt _ _) Hd), Hp.
  destruct (repo_Create planRepo ctx req w) as [[[plan | err] w1] ev]; cbn [fst snd];
    eexists [_], [_]; (split; [reflexivity | split; auto with plan]).
Qed.

Lemma GetByID_run (id : Z) (w : World DB) :
  let back := repo_GetByID planRepo ctx id w in
  around RepoGetByID back
    (match back.1.1 with
     | Ok plan => Ok plan
     | Err err => Err (normalised "service.plan.GetByID" err)
     end)
    (planService.GetByID text planRepo ctx id w).
Proof.
  intros back. subst back. unfold around, planService.GetByID, normalised. run_plan.
  destruct (repo_GetByID planRepo ctx id w) as [[[plan | err] w1] ev]; cbn [fst snd].
  - eexists [_], []. split; [reflexivity | split; auto with plan].
  - destruct (Is err ErrPlanNotFound); cbn [fst snd];
      eexists [_], [_]; (split; [reflexivity | split; auto with plan]).
Qed.

Lemma present_and_valid {A : Type} (p : option A) (bad : A -> bool) :
  (forall v, p = Some v -> bad v = false) -> planService.present_and p bad = false.
Proof. destruct p as [v |]; cbn; auto. Qed.

Lemma Update_valid_run (req : UpdatePlanRequest.t) (w : World DB) :
  valid_update req ->
  let back := repo_Update planRepo ctx req w in
  around RepoUpdate back
    (match back.1.1 with
     | Ok plan => Ok plan
     | Err err => Err (normalised "service.plan.Update" err)
     end)
    (planService.Update text planRepo ctx req w).
Proof.
  intros (Hid & Hn & Hc & Hr & Hd & Hp) back. subst back.
  unfold around, planService.Update, normalised. run_plan.
  rewrite (proj2 (Z.leb_gt _ _) Hid).
  rewrite (present_and_valid (UpdatePlanRequest.Name req))
    by (intros v Hv; apply String.eqb_neq; eauto).
  rewrite (present_and_valid (UpdatePlanRequest.CPU req))
    by (intros v Hv; apply Z.leb_gt; eauto).
  rewrite (present_and_valid (UpdatePlanRequest.RAMMB req))
    by (intros v Hv; apply Z.leb_gt; eauto).
  rewrite (present_and_valid (UpdatePlanRequest.DiskGB req))
    by (intros v Hv; apply Z.leb_gt; eauto).
  rewrite (present_and_valid (UpdatePlanRequest.PriceMonth req)) by exact Hp.
  destruct (repo_Update planRepo ctx req w) as [[[plan | err] w1] ev]; cbn [fst snd].
  - eexists [_], [_]. split; [reflexivity | split; auto with plan].
  - destruct (Is err ErrPlanNotFound); cbn [fst snd];
      eexists [_], [_]; (split; [reflexivity | split; auto with plan]).
Qed.

Lemma Delete_valid_run (id : Z) (w : World DB) :
  0 < id ->
  let back := repo_Delete planRepo ctx id w in
  around RepoDelete back
    (match back.1.1 with
     | None => None
     | Some err => Some (normalised "service.plan.Delete" err)
     end)
    (planService.Delete text planRepo ctx id w).
Proof.
  intros Hid back. subst back. unfold around, planService.Delete, normalised. run_plan.
  rewrite (proj2 (Z.leb_gt _ _) Hid).
  destruct (repo_Delete planRepo ctx id w) as [[[err |] w1] ev]; cbn [fst snd].
  - destruct (Is err ErrPlanNotFound); cbn [fst snd];
      eexists [_], [_]; (split; [reflexivity | split; auto with plan]).
  - eexists [_], [_]. split; [reflexivity | split; auto with plan].
Qed.

Lemma List_run (activeOnly : bool) (w : World DB) :
  let back := repo_List planRepo ctx activeOnly w in
  around RepoList back
    (match back.1.1 with
     | Ok plans => Ok plans
     | Err err => Err (Wrap "service.plan.List" err)
     end)
    (planService.List text planRepo ctx activeOnly w).
Proof.
  intros back. subst back. unfold around, planService.List. run_plan.
  destruct (repo_List planRepo ctx activeOnly w) as [[[plans | err] w1] ev]; cbn [fst snd];
    eexists [_], [_]; (split; [reflexivity | split; auto with plan]).
Qed.

End Repo.

Lemma Create_invalid_run (req : CreatePlanRequest.t) (w : World DB) :
  ~ valid_create req ->
  exists msg, forall planRepo : PlanRepository DB,
    planService.Create text planRepo ctx req w
    = ((Err (New msg), w),
       [EvLog LevelInfo "creating new plan"
          [slog_String "op" "service.plan.Create";
           slog_String "name" (CreatePlanRequest.Name req)]]).
Proof.
  intros Hbad. unfold planService.Create. run_plan.
  destruct (String.eqb_spec (CreatePlanRequest.Name req) ""); [eexists; intros planRepo; reflexivity |].
  destruct (Z.leb_spec (CreatePlanRequest.CPU req) 0); [eexists; intros planRepo; reflexivity |].
  destruct (Z.leb_spec (CreatePlanRequest.RAMMB req) 0); [eexists; intros planRepo; reflexivity |].
  destruct (Z.leb_spec (CreatePlanRequest.DiskGB req) 0); [eexists; intros planRepo; reflexivity |].
  destruct (Float_ltz (CreatePlanRequest.PriceMonth req)) eqn:Hp; [eexists; intros planRepo; reflexivity |].
  exfalso. apply Hbad. unfold valid_create. auto.
Qed.

Lemma present_and_invalid {A : Type} (p : option A) (bad : A -> bool) :
  planService.present_and p bad = false -> forall v, p = Some v -> bad v = false.
Proof. intros H v ->. exact H. Qed.

Lemma Update_invalid_run (req : UpdatePlanRequest.t) (w : World DB) :
  ~ valid_update req ->
  exists msg, forall planRepo : PlanRepository DB,
    planService.Update text planRepo ctx req w
    = ((Err (New msg), w),
       [EvLog LevelInfo "updating plan"
          [slog_String "op" "service.plan.Update";
           slog_Int "id" (UpdatePlanRequest.ID req)]]).
Proof.
  intros Hbad. unfold planService.Update. run_plan.
  destruct (Z.leb_spec (UpdatePlanRequest.ID req) 0); [eexists; intros planRepo; reflexivity |].
  destruct (planService.present_and (UpdatePlanRequest.Name req) _) eqn:Hn;
    [eexists; intros planRepo; reflexivity |].
  destruct (planService.present_and (UpdatePlanRequest.CPU req) _) eqn:Hc;
    [eexists; intros planRepo; reflexivity |].
  destruct (planService.present_and (UpdatePlanRequest.RAMMB req) _) eqn:Hr;
    [eexists; intros planRepo; reflexivity |].
  destruct (planService.present_and (UpdatePlanRequest.DiskGB req) _) eqn:Hd;
    [eexists; intros planRepo; reflexivity |].
  destruct (planService.present_and (UpdatePlanRequest.PriceMonth req) _) eqn:Hp;
    [eexists; intros planRepo; reflexivity |].
  exfalso. apply Hbad. unfold valid_update. repeat split; try assumption.
  - intros v Hv. apply String.eqb_neq. exact (present_and_invalid _ _ Hn v Hv).
  - intros v Hv. apply Z.leb_gt. exact (present_and_invalid _ _ Hc v Hv).
  - intros v Hv. apply Z.leb_gt. exact (present_and_invalid _ _ Hr v Hv).
  - intros v Hv. apply Z.leb_gt. exact (present_and_invalid _ _ Hd v Hv).
  - exact (present_and_invalid _ _ Hp).
Qed.

Lemma Delete_invalid_run (planRepo : PlanRepository DB) (id : Z) (w : World DB) :
  id <= 0 ->
  planService.Delete text planRepo ctx id w
  = ((Some (New "service.plan.Delete: invalid plan id"), w),
     [EvLog LevelInfo "deleting plan"
        [slog_String "op" "service.plan.Delete"; slog_Int "id" id]]).
Proof.
  intros Hid. unfold planService.Delete. run_plan.
  now rewrite (proj2 (Z.leb_le _ _) Hid).
Qed.

(** X20. [Service.Create] validates before it stores.  A request with a
    name, positive CPU, RAM and disk sizes and a price that is not
    negative reaches the repository: exactly one [Create] call is made
    through the interface, after the opening log record, the world is
    the one that call leaves, and the plan comes back as it is, or the
    repository's error wrapped under the operation's name.  Any other
    request is answered with an error text of the service's own,
    whatever the repository: no call is made, the world is untouched, and
    the opening log record is all that happens. *)
Theorem Create_validates_before_storing (planRepo : PlanRepository DB)
    (req : CreatePlanRequest.t) (w : World DB) :
  (valid_create req ->
   let back := repo_Create planRepo ctx req w in
   around RepoCreate back
     (match back.1.1 with
      | Ok plan => Ok plan
      | Err err => Err (Wrap "service.plan.Create" err)
      end)
     (planService.Create text planRepo ctx req w)) /\
  (~ valid_create req ->
   exists msg, forall other : PlanRepository DB,
     planService.Create text other ctx req w
     = ((Err (New msg), w),
        [EvLog LevelInfo "creating new plan"
           [slog_String "op" "service.plan.Create";
            slog_String "name" (CreatePlanRequest.Name req)]])).
Proof.
  split.
  - apply Create_valid_run.
  - apply Create_invalid_run.
Qed.

(** X21. [Update] and [Delete] validate the identifier, [GetByID] does
    not.  [Update] reaches the repository exactly for a positive
    identifier whose present fields are a non-empty name, positive sizes
    and a price that is not negative, and [Delete] exactly for a positive
    identifier; otherwise they answer with an error text of their own,
    whatever the repository, and touch nothing.  [GetByID] and [List]
    call the repository for every argument, a zero or negative identifier
    included.  When the call is made it is made once, and its error comes
    back as the bare not-found sentinel or wrapped under the operation's
    name. *)
Theorem Update_and_Delete_validate_the_identifier (planRepo : PlanRepository DB)
    (w : World DB) :
  (forall req,
     (valid_update req ->
      let back := repo_Update planRepo ctx req w in
      around RepoUpdate back
        (match back.1.1 with
         | Ok plan => Ok plan
         | Err err => Err (normalised "service.plan.Update" err)
         end)
        (planService.Update text planRepo ctx req w)) /\
     (~ valid_update req ->
      exists msg, forall other : PlanRepository DB,
        planService.Update text other ctx req w
        = ((Err (New msg), w),
           [EvLog LevelInfo "updating plan"
              [slog_String "op" "service.plan.Update";
               slog_Int "id" (UpdatePlanRequest.ID req)]]))) /\
  (forall id,
     (0 < id ->
      let back := repo_Delete planRepo ctx id w in
      around RepoDelete back
        (match back.1.1 with
         | None => None
         | Some err => Some (normalised "service.plan.Delete" err)
         end)
        (planService.Delete text planRepo ctx id w)) /\
     (id <= 0 ->
      forall other : PlanRepository DB,
        planService.Delete text other ctx id w
        = ((Some (New "service.plan.Delete: invalid plan id"), w),
           [EvLog LevelInfo "deleting plan"
              [slog_String "op" "service.plan.Delete"; slog_Int "id" id]]))) /\
  (forall id,
     let back := repo_GetByID planRepo ctx id w in
     around RepoGetByID back
       (match back.1.1 with
        | Ok plan => Ok plan
        | Err err => Err (normalised "service.plan.GetByID" err)
        end)
       (planService.GetByID text planRepo ctx id w)) /\
  (forall activeOnly,
     let back := repo_List planRepo ctx activeOnly w in
     around RepoList back
       (match back.1.1 with
        | Ok plans => Ok plans
        | Err err => Err (Wrap "service.plan.List" err)
        end)
       (planService.List text planRepo ctx activeOnly w)).
Proof.
  split; [| split; [| split]].
  - intros req. split.
    + apply Update_valid_run.
    + apply Update_invalid_run.
  - intros id. split.
    + apply Delete_valid_run.
    + intros Hid other. now apply Delete_invalid_run.
  - intros id. apply GetByID_run.
  - intros activeOnly. apply List_run.
Qed.

Lemma valid_create_dec (req : CreatePlanRequest.t) : valid_create req \/ ~ valid_create req.
Proof.
  unfold valid_create.
  destruct (String.eqb_spec (CreatePlanRequest.Name req) ""); [right; tauto |].
  destruct (Z.leb_spec (CreatePlanRequest.CPU req) 0); [right; lia |].
  destruct (Z.leb_spec (CreatePlanRequest.RAMMB req) 0); [right; lia |].
  destruct (Z.leb_spec (CreatePlanRequest.DiskGB req) 0); [right; lia |].
  destruct (Float_ltz (CreatePlanRequest.PriceMonth req)); [right | left]; intuition congruence.
Qed.

Lemma valid_update_dec (req : UpdatePlanRequest.t) : valid_update req \/ ~ valid_update req.
Proof.
  unfold valid_update.
  destruct (Z.leb_spec (UpdatePlanRequest.ID req) 0); [right; lia |].
  destruct (planService.present_and (UpdatePlanRequest.Name req) (fun v => String.eqb v ""))
    eqn:Hn.
  { right. intros (_ & Hv & _). destruct (UpdatePlanRequest.Name req) as [v |]; [| discriminate].
    cbn in Hn. apply String.eqb_eq in Hn. exact (Hv v eq_refl Hn). }
  destruct (planService.present_and (UpdatePlanRequest.CPU req) (fun v => v <=? 0)) eqn:Hc.
  { right. intros (_ & _ & Hv & _). destruct (UpdatePlanRequest.CPU req) as [v |];
      [| discriminate]. cbn in Hc. apply Z.leb_le in Hc. specialize (Hv v eq_refl). lia. }
  destruct (planService.present_and (UpdatePlanRequest.RAMMB req) (fun v => v <=? 0)) eqn:Hr.
  { right. intros (_ & _ & _ & Hv & _). destruct (UpdatePlanRequest.RAMMB req) as [v |];
      [| discriminate]. cbn in Hr. apply Z.leb_le in Hr. specialize (Hv v eq_refl). lia. }
  destruct (planService.present_and (UpdatePlanRequest.DiskGB req) (fun v => v <=? 0)) eqn:Hd.
  { right. intros (_ & _ & _ & _ & Hv & _). destruct (UpdatePlanRequest.DiskGB req) as [v |];
      [| discriminate]. cbn in Hd. apply Z.leb_le in Hd. specialize (Hv v eq_refl). lia. }
  destruct (planService.present_and (UpdatePlanRequest.PriceMonth req) Float_ltz) eqn:Hp.
  { right. intros (_ & _ & _ & _ & _ & Hv). destruct (UpdatePlanRequest.PriceMonth req) as [v |];
      [| discriminate]. cbn in Hp. specialize (Hv v eq_refl). congruence. }
  left. repeat split; try assumption.
  - intros v Hv. apply String.eqb_neq. exact (present_and_invalid _ _ Hn v Hv).
  - intros v Hv. apply Z.leb_gt. exact (present_and_invalid _ _ Hc v Hv).
  - intros v Hv. apply Z.leb_gt. exact (present_and_invalid _ _ Hr v Hv).
  - intros v Hv. apply Z.leb_gt. exact (present_and_invalid _ _ Hd v Hv).
  - exact (present_and_invalid _ _ Hp).
Qed.

Lemma Is_normalised (op : string) (e0 : error) :
  Is (normalised op e0) ErrPlanNotFound = Is e0 ErrPlanNotFound.
Proof.
  unfold normalised. destruct (Is e0 ErrPlanNotFound) eqn:H; [reflexivity | exact H].
Qed.

Lemma around_result {A B : Type} (method : Method) (back : (A * World DB) * list Event)
    (result : B) (out : (B * World DB) * list Event) :
  around method back result out -> out.1.1 = result /\ out.1.2 = back.1.2.
Proof. intros (before & after & -> & _). split; reflexivity. Qed.

(** X22. The service never hides and never invents a not-found.  An
    error of any of its five methods satisfies
    [errors.Is(err, ErrPlanNotFound)] exactly when the repository was
    called and its error did: validation errors never do.  [GetByID],
    [Update] and [Delete] then return the sentinel itself, so that a
    caller comparing with [==] finds it too, while [Create] and [List]
    return it wrapped. *)
Theorem service_keeps_not_found (planRepo : PlanRepository DB) (w : World DB) :
  (forall req e,
     error_of (planService.Create text planRepo ctx req w).1.1 = Some e ->
     (Is e ErrPlanNotFound = true <->
      valid_create req /\
      exists e0, error_of (repo_Create planRepo ctx req w).1.1 = Some e0 /\
                 Is e0 ErrPlanNotFound = true) /\
     e <> Sentinel_error ErrPlanNotFound) /\
  (forall activeOnly e,
     error_of (planService.List text planRepo ctx activeOnly w).1.1 = Some e ->
     (Is e ErrPlanNotFound = true <->
      exists e0, error_of (repo_List planRepo ctx activeOnly w).1.1 = Some e0 /\
                 Is e0 ErrPlanNotFound = true) /\
     e <> Sentinel_error ErrPlanNotFound) /\
  (forall id e,
     error_of (planService.GetByID text planRepo ctx id w).1.1 = Some e ->
     (Is e ErrPlanNotFound = true <->
      exists e0, error_of (repo_GetByID planRepo ctx id w).1.1 = Some e0 /\
                 Is e0 ErrPlanNotFound = true) /\
     (Is e ErrPlanNotFound = true -> e = Sentinel_error ErrPlanNotFound)) /\
  (forall req e,
     error_of (planService.Update text planRepo ctx req w).1.1 = Some e ->
     (Is e ErrPlanNotFound = true <->
      valid_update req /\
      exists e0, error_of (repo_Update planRepo ctx req w).1.1 = Some e0 /\
                 Is e0 ErrPlanNotFound = true) /\
     (Is e ErrPlanNotFound = true -> e = Sentinel_error ErrPlanNotFound)) /\
  (forall id e,
     (planService.Delete text planRepo ctx id w).1.1 = Some e ->
     (Is e ErrPlanNotFound = true <->
      0 < id /\
      exists e0, (repo_Delete planRepo ctx id w).1.1 = Some e0 /\
                 Is e0 ErrPlanNotFound = true) /\
     (Is e ErrPlanNotFound = true -> e = Sentinel_error ErrPlanNotFound)).
Proof.
  split; [| split; [| split; [| split]]].
  - intros req e He. destruct (valid_create_dec req) as [Hv | Hv].
    + destruct (around_result _ _ _ _ (Create_valid_run planRepo req w Hv)) as [Hr _].
      rewrite Hr in He.
      destruct (repo_Create planRepo ctx req w).1.1 as [plan | e0]; [discriminate |].
      injection He as <-. cbn [Is error_of]. split; [| discriminate]. split.
      * intros H. split; [exact Hv | eauto].
      * intros (_ & e1 & [= <-] & H). exact H.
    + destruct (Create_invalid_run req w Hv) as [msg Hrun]. rewrite Hrun in He.
      injection He as <-. cbn [Is]. split; [| discriminate]. split; [discriminate | tauto].
  - intros activeOnly e He.
    destruct (around_result _ _ _ _ (List_run planRepo activeOnly w)) as [Hr _].
    rewrite Hr in He.
    destruct (repo_List planRepo ctx activeOnly w).1.1 as [plans | e0]; [discriminate |].
    injection He as <-. cbn [Is error_of]. split; [| discriminate]. split.
    + eauto.
    + intros (e1 & [= <-] & H). exact H.
  - intros id e He.
    destruct (around_result _ _ _ _ (GetByID_run planRepo id w)) as [Hr _].
    rewrite Hr in He.
    destruct (repo_GetByID planRepo ctx id w).1.1 as [plan | e0]; [discriminate |].
    injection He as <-. rewrite Is_normalised. cbn [error_of]. split.
    + split; [eauto | intros (e1 & [= <-] & H); exact H].
    + unfold normalised. now destruct (Is e0 ErrPlanNotFound).
  - intros req e He. destruct (valid_update_dec req) as [Hv | Hv].
    + destruct (around_result _ _ _ _ (Update_valid_run planRepo req w Hv)) as [Hr _].
      rewrite Hr in He.
      destruct (repo_Update planRepo ctx req w).1.1 as [plan | e0]; [discriminate |].
      injection He as <-. rewrite Is_normalised. cbn [error_of]. split.
      * split; [eauto | intros (_ & e1 & [= <-] & H); exact H].
      * unfold normalised. now destruct (Is e0 ErrPlanNotFound).
    + destruct (Update_invalid_run req w Hv) as [msg Hrun]. rewrite Hrun in He.
      injection He as <-. cbn [Is]. split; [| discriminate]. split; [discriminate | tauto].
  - intros id e He. destruct (Z.leb_spec id 0) as [Hid | Hid].
    + rewrite Delete_invalid_run in He by exact Hid. injection He as <-. cbn [Is].
      split; [| discriminate]. split; [discriminate | lia].
    + destruct (around_result _ _ _ _ (Delete_valid_run planRepo id w Hid)) as [Hr _].
      rewrite Hr in He.
      destruct (repo_Delete planRepo ctx id w).1.1 as [e0 |]; [| discriminate].
      injection He as <-. rewrite Is_normalised. split.
      * split; [eauto | intros (_ & e1 & [= <-] & H); exact H].
      * unfold normalised. now destruct (Is e0 ErrPlanNotFound).
Qed.

End Service.

Section Handlers.
Context {DB : Type}.
Variable text : Sentinel -> string.
Variable ctx : transport.Context.

Lemma copy_if_set_id {A : Type} (p : option A) : planAPI.copy_if_set p = p.
Proof. now destruct p. Qed.

Lemma CreatePlan_run (svc : PlanService DB) (req : managementv1.CreatePlanRequest.t)
    (w : World DB) :
  let back := svc_Create svc ctx (domain_create req) w in
  planAPI.CreatePlan text svc ctx req w
  = ((match back.1.1 with
      | Ok plan => Ok (planAPI.planToProto plan)
      | Err err => Err (Status Internal ("failed to create plan: " ++ Error text err))
      end, back.1.2), back.2).
Proof.
  intros back. subst back. unfold planAPI.CreatePlan, domain_create. run_plan.
  destruct (svc_Create svc ctx _ w) as [[[plan | err] w1] ev]; cbn [fst snd];
    now rewrite app_nil_r.
Qed.

Lemma UpdatePlan_run (svc : PlanService DB) (req : managementv1.UpdatePlanRequest.t)
    (w : World DB) :
  let back := svc_Update svc ctx (domain_update req) w in
  planAPI.UpdatePlan text svc ctx req w
  = ((match back.1.1 with
      | Ok plan => Ok (planAPI.planToProto plan)
      | Err err =>
          if Is err ErrPlanNotFound then Err (Status NotFound "plan not found")
          else Err (Status Internal ("failed to update plan: " ++ Error text err))
      end, back.1.2), back.2).
Proof.
  intros back. subst back. unfold planAPI.UpdatePlan, domain_update. run_plan.
  rewrite !copy_if_set_id.
  destruct (svc_Update svc ctx _ w) as [[[plan | err] w1] ev]; cbn [fst snd];
    [| destruct (Is err ErrPlanNotFound)]; now rewrite app_nil_r.
Qed.

Lemma DeletePlan_run (svc : PlanService DB) (req : managementv1.GetPlanRequest)
    (w : World DB) :
  let back := svc_Delete svc ctx (managementv1.Id req) w in
  planAPI.DeletePlan text svc ctx req w
  = ((match back.1.1 with
      | None => Ok managementv1.mkEmpty
      | Some err =>
          if Is err ErrPlanNotFound then Err (Status NotFound "plan not found")
          else Err (Status Internal ("failed to delete plan: " ++ Error text err))
      end, back.1.2), back.2).
Proof.
  intros back. subst back. unfold planAPI.DeletePlan. run_plan.
  destruct (svc_Delete svc ctx _ w) as [[[err |] w1] ev]; cbn [fst snd];
    [destruct (Is err ErrPlanNotFound) |]; now rewrite app_nil_r.
Qed.

Lemma GetPlan_run (svc : PlanService DB) (req : managementv1.GetPlanRequest)
    (w : World DB) :
  let back := svc_GetByID svc ctx (managementv1.Id req) w in
  planAPI.GetPlan text svc ctx req w
  = ((match back.1.1 with
      | Ok plan => Ok (planAPI.planToProto plan)
      | Err err =>
          if Is err ErrPlanNotFound then Err (Status NotFound "plan not found")
          else Err (Status Internal ("failed to get plan: " ++ Error text err))
      end, back.1.2), back.2).
Proof.
  intros back. subst back. unfold planAPI.GetPlan. run_plan.
  destruct (svc_GetByID svc ctx _ w) as [[[plan | err] w1] ev]; cbn [fst snd];
    [| destruct (Is err ErrPlanNotFound)]; now rewrite app_nil_r.
Qed.

Lemma ListPlans_run (svc : PlanService DB) (req : managementv1.ListPlansRequest)
    (w : World DB) :
  let back := svc_List svc ctx (managementv1.ActiveOnly req) w in
  planAPI.ListPlans text svc ctx req w
  = ((match back.1.1 with
      | Ok plans => Ok {| managementv1.Plans := map planAPI.planToProto plans |}
      | Err err => Err (Status Internal ("failed to list plans: " ++ Error text err))
      end, back.1.2),
     EvLog LevelInfo "ListPlans called"
       [slog_Bool "active_only" (managementv1.ActiveOnly req)] :: back.2).
Proof.
  intros back. subst back. unfold planAPI.ListPlans. run_plan.
  destruct (svc_List svc ctx _ w) as [[[plans | err] w1] ev]; cbn [fst snd];
    now rewrite app_nil_r.
Qed.

(** X23. The handlers answer errors with [Internal] or [NotFound], and
    nothing else.  Over the plan service on any repository:
    [CreatePlan] and [ListPlans] answer every error with [Internal], a
    request that fails validation and a not-found of the repository
    included; [GetPlan], [UpdatePlan] and [DeletePlan] answer [NotFound]
    exactly when the repository was called and its error is a not-found,
    and [Internal] for every other error, so that an invalid identifier
    or field is an [Internal] error too. *)
Theorem handlers_answer_Internal_or_NotFound (planRepo : PlanRepository DB) (w : World DB) :
  let svc := planService.New text planRepo in
  (forall req e,
     error_of (planAPI.CreatePlan text svc ctx req w).1.1 = Some e ->
     status_code e = Some Internal) /\
  (forall req e,
     error_of (planAPI.ListPlans text svc ctx req w).1.1 = Some e ->
     status_code e = Some Internal) /\
  (forall req e,
     error_of (planAPI.GetPlan text svc ctx req w).1.1 = Some e ->
     (status_code e = Some NotFound \/ status_code e = Some Internal) /\
     (status_code e = Some NotFound <->
      exists e0,
        error_of (repo_GetByID planRepo ctx (managementv1.Id req) w).1.1 = Some e0 /\
        Is e0 ErrPlanNotFound = true)) /\
  (forall req e,
     error_of (planAPI.UpdatePlan text svc ctx req w).1.1 = Some e ->
     (status_code e = Some NotFound \/ status_code e = Some Internal) /\
     (status_code e = Some NotFound <->
      valid_update (domain_update req) /\
      exists e0,
        error_of (repo_Update planRepo ctx (domain_update req) w).1.1 = Some e0 /\
        Is e0 ErrPlanNotFound = true)) /\
  (forall req e,
     error_of (planAPI.DeletePlan text svc ctx req w).1.1 = Some e ->
     (status_code e = Some NotFound \/ status_code e = Some Internal) /\
     (status_code e = Some NotFound <->
      0 < managementv1.Id req /\
      exists e0,
        (repo_Delete planRepo ctx (managementv1.Id req) w).1.1 = Some e0 /\
        Is e0 ErrPlanNotFound = true)).
Proof.
  intros svc. subst svc. split; [| split; [| split; [| split]]].
  - intros req e. rewrite CreatePlan_run. cbn [fst snd planService.New svc_Create].
    destruct (planService.Create text planRepo ctx (domain_create req) w).1.1;
      cbn; [discriminate | now intros [= <-]].
  - intros req e. rewrite ListPlans_run. cbn [fst snd planService.New svc_List].
    destruct (planService.List text planRepo ctx (managementv1.ActiveOnly req) w).1.1;
      cbn; [discriminate | now intros [= <-]].
  - intros req e. rewrite GetPlan_run. cbn [fst snd planService.New svc_GetByID].
    destruct (around_result _ _ _ _ (GetByID_run text ctx planRepo (managementv1.Id req) w))
      as [Hr _].
    rewrite Hr.
    destruct (repo_GetByID planRepo ctx (managementv1.Id req) w).1.1 as [plan | e0];
      [discriminate |].
    rewrite Is_normalised. cbn [error_of].
    destruct (Is e0 ErrPlanNotFound) eqn:H0; intros [= <-]; cbn [status_code].
    + split; [now left |]. split; [eauto | reflexivity].
    + split; [now right |]. split; [discriminate |].
      intros (e1 & [= <-] & H). congruence.
  - intros req e. rewrite UpdatePlan_run. cbn [fst snd planService.New svc_Update].
    destruct (valid_update_dec (domain_update req)) as [Hv | Hv].
    + destruct (around_result _ _ _ _ (Update_valid_run text ctx planRepo _ w Hv)) as [Hr _].
      rewrite Hr.
      destruct (repo_Update planRepo ctx (domain_update req) w).1.1 as [plan | e0];
        [discriminate |].
      rewrite Is_normalised. cbn [error_of].
      destruct (Is e0 ErrPlanNotFound) eqn:H0; intros [= <-]; cbn [status_code].
      * split; [now left |]. split; [eauto | reflexivity].
      * split; [now right |]. split; [discriminate |].
        intros (_ & e1 & [= <-] & H). congruence.
    + destruct (Update_invalid_run text ctx (domain_update req) w Hv) as [msg Hrun].
      rewrite Hrun. cbn [fst snd error_of Is]. intros [= <-]. cbn [status_code].
      split; [now right |]. split; [discriminate | tauto].
  - intros req e. rewrite DeletePlan_run. cbn [fst snd planService.New svc_Delete].
    destruct (Z.leb_spec (managementv1.Id req) 0) as [Hid | Hid].
    + rewrite Delete_invalid_run by exact Hid. cbn [fst snd error_of Is].
      intros [= <-]. cbn [status_code].
      split; [now right |]. split; [discriminate | lia].
    + destruct (around_result _ _ _ _ (Delete_valid_run text ctx planRepo _ w Hid)) as [Hr _].
      rewrite Hr.
      destruct (repo_Delete planRepo ctx (managementv1.Id req) w).1.1 as [e0 |];
        [| discriminate].
      rewrite Is_normalised. cbn [error_of].
      destruct (Is e0 ErrPlanNotFound) eqn:H0; intros [= <-]; cbn [status_code].
      * split; [now left |]. split; [eauto | reflexivity].
      * split; [now right |]. split; [discriminate |].
        intros (_ & e1 & [= <-] & H). congruence.
Qed.

End Handlers.

Section Postgres.
Context {DB : Type}.
Variable text : Sentinel -> string.
Variable ctx : transport.Context.
Variable pool : postgresPlans.Pool DB.

Lemma around_statements {A B : Type} (method : Method) (back : (A * World DB) * list Event)
    (result : B) (out : (B * World DB) * list Event) :
  around method back result out -> statements out.2 = statements back.2.
Proof.
  intros (before & after & -> & [_ Hb] & [_ Ha]). cbn [snd].
  rewrite statements_app. cbn [statements List.filter is_statement].
  fold (statements (back.2 ++ after)). rewrite statements_app, Hb, Ha.
  now rewrite app_nil_r.
Qed.

Lemma pg_Create_run (req : CreatePlanRequest.t) (w : World DB) :
  exists q,
    let args := [ArgString (CreatePlanRequest.Name req);
                 ArgInt32 (CreatePlanRequest.CPU req);
                 ArgInt32 (CreatePlanRequest.RAMMB req);
                 ArgInt32 (CreatePlanRequest.DiskGB req);
                 ArgFloat (CreatePlanRequest.PriceMonth req);
                 ArgTime (wall w)] in
    let ans := postgresPlans.pool_QueryRow pool ctx q args (db w) in
    postgresPlans.Create pool ctx req w
    = ((match ans.1 with
        | Ok plan => Ok plan
        | Err e => Err (Wrap "repository.postgres.PlanRepository.Create" e)
        end, {| db := ans.2; wall := wall w |}), [EvQueryRow q args]).
Proof.
  unfold postgresPlans.Create, postgresPlans.QueryRow, time_Now. run_plan.
  match goal with
  | |- context [postgresPlans.pool_QueryRow pool ctx ?q0 _ (db w)] => exists q0
  end. cbv zeta.
  destruct (postgresPlans.pool_QueryRow pool ctx _ _ (db w)) as [[plan | e] d]; finish_run.
Qed.

Lemma pg_GetByID_run (id : Z) (w : World DB) :
  exists q,
    let ans := postgresPlans.pool_QueryRow pool ctx q [ArgInt32 id] (db w) in
    postgresPlans.GetByID pool ctx id w
    = ((match ans.1 with
        | Ok plan => Ok plan
        | Err e =>
            Err (if Is e ErrNoRows then Sentinel_error ErrPlanNotFound
                 else Wrap "repository.postgres.PlanRepository.GetByID" e)
        end, {| db := ans.2; wall := wall w |}), [EvQueryRow q [ArgInt32 id]]).
Proof.
  unfold postgresPlans.GetByID, postgresPlans.QueryRow. run_plan.
  match goal with
  | |- context [postgresPlans.pool_QueryRow pool ctx ?q0 _ (db w)] => exists q0
  end. cbv zeta.
  destruct (postgresPlans.pool_QueryRow pool ctx _ _ (db w)) as [[plan | e] d];
    cbn [fst snd]; [| destruct (Is e ErrNoRows)]; finish_run.
Qed.

Lemma add_clause_lengths (column : string) (field : option Arg)
    (b : postgresPlans.Building) :
  length (postgresPlans.setClauses b) = length (postgresPlans.args b) ->
  length (postgresPlans.setClauses (postgresPlans.add_clause column field b))
  = length (postgresPlans.args (postgresPlans.add_clause column field b)).
Proof.
  intros H. unfold postgresPlans.add_clause. destruct field; [| exact H].
  cbn [postgresPlans.setClauses postgresPlans.args]. rewrite !length_app. cbn. lia.
Qed.

Lemma build_lengths (req : UpdatePlanRequest.t) :
  length (postgresPlans.setClauses (postgresPlans.build req))
  = length (postgresPlans.args (postgresPlans.build req)).
Proof.
  unfold postgresPlans.build. repeat apply add_clause_lengths. reflexivity.
Qed.

Lemma pg_Update_run (req : UpdatePlanRequest.t) (w : World DB) :
  exists q op,
    let args := postgresPlans.args (postgresPlans.build req)
                ++ [ArgInt32 (UpdatePlanRequest.ID req)] in
    let ans := postgresPlans.pool_QueryRow pool ctx q args (db w) in
    postgresPlans.Update pool ctx req w
    = ((match ans.1 with
        | Ok plan => Ok plan
        | Err e => Err (if Is e ErrNoRows then Sentinel_error ErrPlanNotFound else Wrap op e)
        end, {| db := ans.2; wall := wall w |}), [EvQueryRow q args]).
Proof.
  unfold postgresPlans.Update.
  destruct (Nat.eqb_spec (length (postgresPlans.setClauses (postgresPlans.build req))) 0)
    as [Hempty | Hsome].
  - destruct (pg_GetByID_run (UpdatePlanRequest.ID req) w) as [q Hq].
    exists q, "repository.postgres.PlanRepository.GetByID"%string. cbv zeta in *.
    assert (Hargs : postgresPlans.args (postgresPlans.build req) = []).
    { apply length_zero_iff_nil. now rewrite <- build_lengths. }
    rewrite Hargs. exact Hq.
  - unfold postgresPlans.QueryRow. run_plan.
    match goal with
    | |- context [postgresPlans.pool_QueryRow pool ctx ?q0 _ (db w)] =>
        exists q0, "repository.postgres.PlanRepository.Update"%string
    end. cbv zeta.
    destruct (postgresPlans.pool_QueryRow pool ctx _ _ (db w)) as [[plan | e] d];
      cbn [fst snd]; [| destruct (Is e ErrNoRows)]; finish_run.
Qed.

Lemma pg_Delete_run (id : Z) (w : World DB) :
  exists q,
    let ans := postgresPlans.pool_Exec pool ctx q [ArgInt32 id] (db w) in
    postgresPlans.Delete pool ctx id w
    = ((match ans.1 with
        | Ok rowsAffected =>
            if rowsAffected =? 0 then Some (Sentinel_error ErrPlanNotFound) else None
        | Err e => Some (Wrap "repository.postgres.PlanRepository.Delete" e)
        end, {| db := ans.2; wall := wall w |}), [EvExec q [ArgInt32 id]]).
Proof.
  unfold postgresPlans.Delete, postgresPlans.Exec. run_plan.
  match goal with
  | |- context [postgresPlans.pool_Exec pool ctx ?q0 _ (db w)] => exists q0
  end. cbv zeta.
  destruct (postgresPlans.pool_Exec pool ctx _ _ (db w)) as [[n | e] d];
    cbn [fst snd]; [destruct (n =? 0) |]; finish_run.
Qed.

Lemma pg_List_run (activeOnly : bool) (w : World DB) :
  exists q r,
    let ans := postgresPlans.pool_Query pool ctx q [] (db w) in
    postgresPlans.List pool ctx activeOnly w
    = ((r, {| db := ans.2; wall := wall w |}), [EvQuery q []]).
Proof.
  unfold postgresPlans.List, postgresPlans.Query. run_plan.
  match goal with
  | |- context [postgresPlans.pool_Query pool ctx ?q0 _ (db w)] => exists q0
  end.
  destruct (postgresPlans.pool_Query pool ctx _ _ (db w)) as [[rows | e] d]; cbn [fst snd].
  - destruct (postgresPlans.scan_all _ _ _); [destruct (postgresPlans.rows_Err rows) |];
      eexists; finish_run.
  - eexists; finish_run.
Qed.

(** X24. A call sends at most one statement.  Over the plan service on
    the postgres repository, every handler sends the pool one statement
    or none and leaves the wall clock alone: [CreatePlan] one [QueryRow]
    for a valid request, with the request's five fields and the
    application's own clock reading as the creation time; [UpdatePlan]
    one [QueryRow] for a valid request, with the present fields and then
    the identifier; [DeletePlan] one [Exec] for a positive identifier;
    and none of the three sends anything, or touches the database, for a
    request that fails validation.  [GetPlan] sends one [QueryRow] with
    the identifier, whatever it is, and [ListPlans] one [Query] without
    arguments. *)
Theorem each_call_sends_at_most_one_statement (w : World DB) :
  let svc := planService.New text (postgresPlans.NewPlanRepository pool) in
  (forall req,
     let out := planAPI.CreatePlan text svc ctx req w in
     wall out.1.2 = wall w /\
     (valid_create (domain_create req) ->
      exists q,
        statements out.2
        = [EvQueryRow q [ArgString (managementv1.CreatePlanRequest.Name req);
                         ArgInt32 (managementv1.CreatePlanRequest.Cpu req);
                         ArgInt32 (managementv1.CreatePlanRequest.RamMb req);
                         ArgInt32 (managementv1.CreatePlanRequest.DiskGb req);
                         ArgFloat (managementv1.CreatePlanRequest.PriceMonth req);
                         ArgTime (wall w)]]) /\
     (~ valid_create (domain_create req) -> statements out.2 = [] /\ out.1.2 = w)) /\
  (forall req,
     let out := planAPI.UpdatePlan text svc ctx req w in
     wall out.1.2 = wall w /\
     (valid_update (domain_update req) ->
      exists q,
        statements out.2
        = [EvQueryRow q (postgresPlans.args (postgresPlans.build (domain_update req))
                         ++ [ArgInt32 (managementv1.UpdatePlanRequest.Id req)])]) /\
     (~ valid_update (domain_update req) -> statements out.2 = [] /\ out.1.2 = w)) /\
  (forall req,
     let out := planAPI.DeletePlan text svc ctx req w in
     wall out.1.2 = wall w /\
     (0 < managementv1.Id req ->
      exists q, statements out.2 = [EvExec q [ArgInt32 (managementv1.Id req)]]) /\
     (managementv1.Id req <= 0 -> statements out.2 = [] /\ out.1.2 = w)) /\
  (forall req,
     let out := planAPI.GetPlan text svc ctx req w in
     wall out.1.2 = wall w /\
     exists q, statements out.2 = [EvQueryRow q [ArgInt32 (managementv1.Id req)]]) /\
  (forall req,
     let out := planAPI.ListPlans text svc ctx req w in
     wall out.1.2 = wall w /\
     exists q, statements out.2 = [EvQuery q []]).
Proof.
  intros svc. subst svc. split; [| split; [| split; [| split]]].
  - intros req out. subst out. rewrite CreatePlan_run.
    cbn [fst snd planService.New svc_Create].
    destruct (valid_create_dec (domain_create req)) as [Hv | Hv].
    + pose proof (Create_valid_run text ctx (postgresPlans.NewPlanRepository pool) _ w Hv)
        as Har.
      cbv zeta in Har. cbn [repo_Create postgresPlans.NewPlanRepository] in Har.
      destruct (pg_Create_run (domain_create req) w) as [q Hq]. cbv zeta in Hq.
      rewrite (around_statements _ _ _ _ Har).
      destruct (around_result _ _ _ _ Har) as [_ ->]. rewrite Hq. cbn [fst snd wall].
      split; [reflexivity |]. split; [| tauto]. intros _. exists q. reflexivity.
    + destruct (Create_invalid_run text ctx (domain_create req) w Hv) as [msg Hrun].
      rewrite Hrun. cbn [fst snd]. split; [reflexivity |]. split; [tauto |].
      intros _. split; reflexivity.
  - intros req out. subst out. rewrite UpdatePlan_run.
    cbn [fst snd planService.New svc_Update].
    destruct (valid_update_dec (domain_update req)) as [Hv | Hv].
    + pose proof (Update_valid_run text ctx (postgresPlans.NewPlanRepository pool) _ w Hv)
        as Har.
      cbv zeta in Har. cbn [repo_Update postgresPlans.NewPlanRepository] in Har.
      destruct (pg_Update_run (domain_update req) w) as (q & op & Hq).
      cbv zeta in Hq.
      rewrite (around_statements _ _ _ _ Har).
      destruct (around_result _ _ _ _ Har) as [_ ->]. rewrite Hq. cbn [fst snd wall].
      split; [reflexivity |]. split; [| tauto]. intros _. exists q. reflexivity.
    + destruct (Update_invalid_run text ctx (domain_update req) w Hv) as [msg Hrun].
      rewrite Hrun. cbn [fst snd]. split; [reflexivity |]. split; [tauto |].
      intros _. split; reflexivity.
  - intros req out. subst out. rewrite DeletePlan_run.
    cbn [fst snd planService.New svc_Delete].
    destruct (Z.leb_spec (managementv1.Id req) 0) as [Hid | Hid].
    + rewrite Delete_invalid_run by exact Hid. cbn [fst snd].
      split; [reflexivity |]. split; [lia |]. intros _. split; reflexivity.
    + pose proof (Delete_valid_run text ctx (postgresPlans.NewPlanRepository pool) _ w Hid)
        as Har.
      cbv zeta in Har. cbn [repo_Delete postgresPlans.NewPlanRepository] in Har.
      destruct (pg_Delete_run (managementv1.Id req) w) as [q Hq]. cbv zeta in Hq.
      rewrite (around_statements _ _ _ _ Har).
      destruct (around_result _ _ _ _ Har) as [_ ->]. rewrite Hq. cbn [fst snd wall].
      split; [reflexivity |]. split; [| lia]. intros _. exists q. reflexivity.
  - intros req out. subst out. rewrite GetPlan_run.
    cbn [fst snd planService.New svc_GetByID].
    pose proof (GetByID_run text ctx (postgresPlans.NewPlanRepository pool)
                  (managementv1.Id req) w) as Har.
    cbv zeta in Har. cbn [repo_GetByID postgresPlans.NewPlanRepository] in Har.
    destruct (pg_GetByID_run (managementv1.Id req) w) as [q Hq]. cbv zeta in Hq.
    rewrite (around_statements _ _ _ _ Har).
    destruct (around_result _ _ _ _ Har) as [_ ->]. rewrite Hq. cbn [fst snd wall].
    split; [reflexivity |]. exists q. reflexivity.
  - intros req out. subst out. rewrite ListPlans_run.
    cbn [fst snd planService.New svc_List].
    pose proof (List_run text ctx (postgresPlans.NewPlanRepository pool)
                  (managementv1.ActiveOnly req) w) as Har.
    cbv zeta in Har. cbn [repo_List postgresPlans.NewPlanRepository] in Har.
    destruct (pg_List_run (managementv1.ActiveOnly req) w) as (q & r & Hq).
    cbv zeta in Hq.
    change (statements (EvLog LevelInfo "ListPlans called"
                          [slog_Bool "active_only" (managementv1.ActiveOnly req)]
                        :: (planService.List text (postgresPlans.NewPlanRepository pool) ctx
                              (managementv1.ActiveOnly req) w).2))
      with (statements (planService.List text (postgresPlans.NewPlanRepository pool) ctx
                          (managementv1.ActiveOnly req) w).2).
    rewrite (around_statements _ _ _ _ Har).
    destruct (around_result _ _ _ _ Har) as [_ ->]. rewrite Hq. cbn [fst snd wall].
    split; [reflexivity |]. exists q. reflexivity.
Qed.

(** X25. Not-found, end to end.  Over the plan service on the postgres
    repository: [GetPlan], and [UpdatePlan] for a valid request, answer
    the plan the pool scanned, [NotFound] when the pool's error is (or
    wraps) no-rows or a not-found, and [Internal] for any other error of
    the pool; [DeletePlan], for a positive identifier, answers [NotFound]
    when the statement affected no row, the empty message when it
    affected some, and for an error of the pool [NotFound] if that is a
    not-found and [Internal] otherwise, no-rows included.  The database
    is left as the pool left it. *)
Theorem not_found_end_to_end (w : World DB) :
  let svc := planService.New text (postgresPlans.NewPlanRepository pool) in
  (forall req,
     exists q,
       let ans := postgresPlans.pool_QueryRow pool ctx q [ArgInt32 (managementv1.Id req)]
                    (db w) in
       let out := planAPI.GetPlan text svc ctx req w in
       db out.1.2 = ans.2 /\
       match ans.1 with
       | Ok plan => out.1.1 = Ok (planAPI.planToProto plan)
       | Err e =>
           exists msg,
             out.1.1
             = Err (Status (if Is e ErrNoRows || Is e ErrPlanNotFound
                            then NotFound else Internal) msg)
       end) /\
  (forall req,
     valid_update (domain_update req) ->
     exists q,
       let ans := postgresPlans.pool_QueryRow pool ctx q
                    (postgresPlans.args (postgresPlans.build (domain_update req))
                     ++ [ArgInt32 (managementv1.UpdatePlanRequest.Id req)]) (db w) in
       let out := planAPI.UpdatePlan text svc ctx req w in
       db out.1.2 = ans.2 /\
       match ans.1 with
       | Ok plan => out.1.1 = Ok (planAPI.planToProto plan)
       | Err e =>
           exists msg,
             out.1.1
             = Err (Status (if Is e ErrNoRows || Is e ErrPlanNotFound
                            then NotFound else Internal) msg)
       end) /\
  (forall req,
     0 < managementv1.Id req ->
     exists q,
       let ans := postgresPlans.pool_Exec pool ctx q [ArgInt32 (managementv1.Id req)]
                    (db w) in
       let out := planAPI.DeletePlan text svc ctx req w in
       db out.1.2 = ans.2 /\
       match ans.1 with
       | Ok rowsAffected =>
           out.1.1 = if rowsAffected =? 0 then Err (Status NotFound "plan not found")
                     else Ok managementv1.mkEmpty
       | Err e => exists msg, out.1.1 = Err (Status (code_for e) msg)
       end).
Proof.
  intros svc. subst svc. split; [| split].
  - intros req.
    destruct (pg_GetByID_run (managementv1.Id req) w) as [q Hq]. cbv zeta in Hq.
    exists q. cbv zeta. rewrite GetPlan_run. cbn [fst snd planService.New svc_GetByID].
    pose proof (GetByID_run text ctx (postgresPlans.NewPlanRepository pool)
                  (managementv1.Id req) w) as Har.
    cbv zeta in Har. cbn [repo_GetByID postgresPlans.NewPlanRepository] in Har.
    destruct (around_result _ _ _ _ Har) as [-> ->]. rewrite Hq. cbn [fst snd db].
    split; [reflexivity |].
    destruct (postgresPlans.pool_QueryRow pool ctx q _ (db w)).1 as [plan | e];
      [reflexivity |].
    rewrite Is_normalised.
    destruct (Is e ErrNoRows); cbn [Is orb]; [rewrite bool_decide_eq_true_2 by reflexivity |
      destruct (Is e ErrPlanNotFound)]; eexists; reflexivity.
  - intros req Hv.
    destruct (pg_Update_run (domain_update req) w) as (q & op & Hq).
    cbv zeta in Hq.
    exists q. cbv zeta. rewrite UpdatePlan_run. cbn [fst snd planService.New svc_Update].
    pose proof (Update_valid_run text ctx (postgresPlans.NewPlanRepository pool) _ w Hv)
      as Har.
    cbv zeta in Har. cbn [repo_Update postgresPlans.NewPlanRepository] in Har.
    destruct (around_result _ _ _ _ Har) as [-> ->]. rewrite Hq. cbn [fst snd db].
    split; [reflexivity |].
    destruct (postgresPlans.pool_QueryRow pool ctx q _ (db w)).1 as [plan | e];
      [reflexivity |].
    rewrite Is_normalised.
    destruct (Is e ErrNoRows); cbn [Is orb]; [rewrite bool_decide_eq_true_2 by reflexivity |
      destruct (Is e ErrPlanNotFound)]; eexists; reflexivity.
  - intros req Hid.
    destruct (pg_Delete_run (managementv1.Id req) w) as [q Hq]. cbv zeta in Hq.
    exists q. cbv zeta. rewrite DeletePlan_run. cbn [fst snd planService.New svc_Delete].
    pose proof (Delete_valid_run text ctx (postgresPlans.NewPlanRepository pool) _ w Hid)
      as Har.
    cbv zeta in Har. cbn [repo_Delete postgresPlans.NewPlanRepository] in Har.
    destruct (around_result _ _ _ _ Har) as [-> ->]. rewrite Hq. cbn [fst snd db].
    split; [reflexivity |].
    destruct (postgresPlans.pool_Exec pool ctx q _ (db w)).1 as [n | e].
    + destruct (n =? 0); [| reflexivity].
      rewrite Is_normalised. cbn [Is]. now rewrite bool_decide_eq_true_2 by reflexivity.
    + rewrite Is_normalised. cbn [Is]. unfold code_for.
      destruct (Is e ErrPlanNotFound); eexists; reflexivity.
Qed.

End Postgres.

Lemma add_clause_lined_up (req : UpdatePlanRequest.t) (n : nat) (column : string)
    (field : option Arg) (b : postgresPlans.Building) :
  field_of req column = field ->
  lined_up req n b ->
  lined_up req (S n) (postgresPlans.add_clause column field b).
Proof.
  intros Hf (Hlen & Hle & Hidx & Hk). unfold postgresPlans.add_clause.
  destruct field as [v |].
  - unfold lined_up. cbn [postgresPlans.setClauses postgresPlans.args postgresPlans.argIndex].
    rewrite !length_app. cbn [length].
    split; [lia |]. split; [lia |]. split; [lia |].
    intros k clause Hc.
    destruct (decide (k < length (postgresPlans.setClauses b))%nat) as [Hlt | Hge].
    + rewrite lookup_app_l in Hc by exact Hlt.
      destruct (Hk k clause Hc) as (col & v0 & H1 & H2 & H3).
      exists col, v0. split; [exact H1 |]. split; [| exact H3].
      rewrite lookup_app_l by lia. exact H2.
    + rewrite lookup_app_r in Hc by lia.
      destruct (k - length (postgresPlans.setClauses b))%nat as [| j] eqn:Hj;
        [| destruct j; discriminate Hc].
      injection Hc as <-. exists column, v.
      assert (k = length (postgresPlans.args b)) as -> by lia.
      split; [| split; [| exact Hf]].
      * rewrite Hidx. reflexivity.
      * rewrite lookup_app_r by lia. now rewrite Nat.sub_diag.
  - split; [exact Hlen |]. split; [lia |]. split; [exact Hidx | exact Hk].
Qed.

Lemma add_clause_nil (column : string) (field : option Arg) (b : postgresPlans.Building) :
  postgresPlans.setClauses (postgresPlans.add_clause column field b) = [] <->
  field = None /\ postgresPlans.setClauses b = [].
Proof.
  unfold postgresPlans.add_clause. destruct field as [v |]; cbn.
  - split; [| intros [H _]; discriminate H].
    intros H. apply app_eq_nil in H. destruct H as [_ H]. discriminate H.
  - tauto.
Qed.

(** X26. The placeholders of [Update] line up with its arguments.  The
    [k]-th SET clause names a column and the placeholder [$k], and the
    [k]-th argument is the value the request carries for that very
    column; the identifier is the argument after them, the one the
    placeholder of the WHERE clause numbers.  There are as many clauses
    as arguments, six at most, and none exactly when the request sets no
    field, in which case [Update] is [GetByID]. *)
Theorem Update_placeholders_line_up (req : UpdatePlanRequest.t) :
  let b := postgresPlans.build req in
  length (postgresPlans.setClauses b) = length (postgresPlans.args b) /\
  (length (postgresPlans.args b) <= 6)%nat /\
  postgresPlans.argIndex b = Z.of_nat (length (postgresPlans.args b)) + 1 /\
  (forall k clause,
     postgresPlans.setClauses b !! k = Some clause ->
     exists column v,
       clause = (column ++ " = $" ++ pretty (Z.of_nat k + 1))%string /\
       postgresPlans.args b !! k = Some v /\
       field_of req column = Some v) /\
  (postgresPlans.args b ++ [ArgInt32 (UpdatePlanRequest.ID req)])
    !! Z.to_nat (postgresPlans.argIndex b - 1)
  = Some (ArgInt32 (UpdatePlanRequest.ID req)) /\
  (postgresPlans.setClauses b = [] <-> nothing_to_update req) /\
  (nothing_to_update req ->
   forall (DB : Type) (pool : postgresPlans.Pool DB) ctx,
     postgresPlans.Update pool ctx req
     = postgresPlans.GetByID pool ctx (UpdatePlanRequest.ID req)).
Proof.
  intros b. subst b.
  assert (Hinv : lined_up req 6 (postgresPlans.build req)).
  { unfold postgresPlans.build.
    repeat (apply add_clause_lined_up; [reflexivity |]).
    unfold lined_up. cbn. repeat split; try lia. intros k clause H. discriminate H. }
  destruct Hinv as (Hlen & Hle & Hidx & Hk).
  split; [exact Hlen |]. split; [exact Hle |]. split; [exact Hidx |].
  split; [exact Hk |]. split; [| split].
  - rewrite Hidx. replace (Z.to_nat (Z.of_nat (length (postgresPlans.args
      (postgresPlans.build req))) + 1 - 1)) with (length (postgresPlans.args
      (postgresPlans.build req))) by lia.
    rewrite lookup_app_r by lia. now rewrite Nat.sub_diag.
  - unfold postgresPlans.build, nothing_to_update.
    rewrite !add_clause_nil, !fmap_None. cbn [postgresPlans.setClauses]. tauto.
  - intros (Hn & Hc & Hr & Hd & Hp & Ha) DB pool ctx.
    unfold postgresPlans.Update, postgresPlans.build.
    rewrite Hn, Hc, Hr, Hd, Hp, Ha. reflexivity.
Qed.

(** X27. [planToProto] loses nothing.  Two plans with the same message
    are the same plan; the creation time is split into whole seconds and
    a count of nanoseconds below one second that add up to it, for
    times before the epoch as well; and [ListPlans] answers one message
    per plan the service returned, in the same order. *)
Theorem planToProto_loses_nothing :
  (forall p1 p2, planAPI.planToProto p1 = planAPI.planToProto p2 -> p1 = p2) /\
  (forall p,
     let ts := managementv1.Plan.CreatedAt (planAPI.planToProto p) in
     0 <= managementv1.Nanos ts < 1000000000 /\
     managementv1.Seconds ts * 1000000000 + managementv1.Nanos ts = Plan.CreatedAt p) /\
  (forall (DB : Type) text (svc : PlanService DB) ctx req w plans,
     (svc_List svc ctx (managementv1.ActiveOnly req) w).1.1 = Ok plans ->
     exists resp,
       (planAPI.ListPlans text svc ctx req w).1.1 = Ok resp /\
       length (managementv1.Plans resp) = length plans /\
       forall k p, plans !! k = Some p ->
                   managementv1.Plans resp !! k = Some (planAPI.planToProto p)).
Proof.
  split; [| split].
  - intros [i1 n1 c1 r1 d1 p1 a1 t1] [i2 n2 c2 r2 d2 p2 a2 t2].
    unfold planAPI.planToProto, planAPI.timestamppb_New. cbn.
    intros [= -> -> -> -> -> -> -> Hs Hn]. f_equal.
    rewrite (Z.div_mod t1 1000000000), (Z.div_mod t2 1000000000) by lia.
    now rewrite Hs, Hn.
  - intros p. cbn. split.
    + apply Z.mod_pos_bound. lia.
    + rewrite (Z.div_mod (Plan.CreatedAt p) 1000000000) at 3 by lia. lia.
  - intros DB text svc ctx req w plans Hl. rewrite ListPlans_run. cbn [fst snd].
    rewrite Hl. eexists. split; [reflexivity |]. cbn. split.
    + apply length_map.
    + intros k p Hk. now rewrite list_lookup_fmap, Hk.
Qed.

End PlanFacts.

(** * Properties of the pool's configuration *)

Module ConfigFacts.
Import GoNum.

Lemma fill_idem (x d : Z) :
  d <> 0 ->
  (if (if x =? 0 then d else x) =? 0 then d else (if x =? 0 then d else x))
  = (if x =? 0 then d else x).
Proof.
  intros Hd. destruct (Z.eqb_spec x 0) as [-> | Hx].
  - now rewrite (proj2 (Z.eqb_neq d 0) Hd).
  - now rewrite (proj2 (Z.eqb_neq x 0) Hx).
Qed.

Lemma fill_nonzero (x d : Z) : d <> 0 -> (if x =? 0 then d else x) <> 0.
Proof. intros Hd. now destruct (Z.eqb_spec x 0). Qed.

Lemma fill_keeps (x d : Z) : x <> 0 -> (if x =? 0 then d else x) = x.
Proof. intros Hx. now rewrite (proj2 (Z.eqb_neq x 0) Hx). Qed.

Lemma fill_text_idem (s : string) :
  (if String.eqb (if String.eqb s "" then "disable" else s) ""
   then "disable" else (if String.eqb s "" then "disable" else s))
  = (if String.eqb s "" then "disable" else s).
Proof.
  destruct (String.eqb_spec s "") as [-> | Hs]; [reflexivity |].
  now rewrite (proj2 (String.eqb_neq s "") Hs).
Qed.

Lemma fill_text_nonempty (s : string) : (if String.eqb s "" then "disable" else s) <> "".
Proof. now destruct (String.eqb_spec s ""). Qed.

Lemma fill_text_keeps (s : string) :
  s <> "" -> (if String.eqb s "" then "disable" else s) = s.
Proof. intros Hs. now rewrite (proj2 (String.eqb_neq s "") Hs). Qed.

(** X28. [setDefaults] fills every gap, once.  Afterwards no pool
    setting is zero and the SSL mode is not empty; a setting that was
    not zero, a negative one included, and every other field are as
    before, so that applying the defaults a second time changes nothing.
    The defaults are set field by field: a configuration that asks for
    fewer than five connections at most and leaves the minimum unset
    ends with a minimum above its maximum. *)
Theorem setDefaults_fills_every_gap (c : pgconfig.Config) :
  let d := pgconfig.setDefaults c in
  pgconfig.setDefaults d = d /\
  (pgconfig.MaxConns d <> 0 /\ pgconfig.MinConns d <> 0 /\
   pgconfig.MaxConnLifetime d <> 0 /\ pgconfig.MaxConnIdleTime d <> 0 /\
   pgconfig.HealthCheckPeriod d <> 0 /\ pgconfig.ConnectTimeout d <> 0 /\
   pgconfig.SSLMode d <> "") /\
  ((pgconfig.MaxConns c <> 0 -> pgconfig.MaxConns d = pgconfig.MaxConns c) /\
   (pgconfig.MinConns c <> 0 -> pgconfig.MinConns d = pgconfig.MinConns c) /\
   (pgconfig.MaxConnLifetime c <> 0 ->
    pgconfig.MaxConnLifetime d = pgconfig.MaxConnLifetime c) /\
   (pgconfig.MaxConnIdleTime c <> 0 ->
    pgconfig.MaxConnIdleTime d = pgconfig.MaxConnIdleTime c) /\
   (pgconfig.HealthCheckPeriod c <> 0 ->
    pgconfig.HealthCheckPeriod d = pgconfig.HealthCheckPeriod c) /\
   (pgconfig.ConnectTimeout c <> 0 ->
    pgconfig.ConnectTimeout d = pgconfig.ConnectTimeout c) /\
   (pgconfig.SSLMode c <> "" -> pgconfig.SSLMode d = pgconfig.SSLMode c)) /\
  (pgconfig.Host d = pgconfig.Host c /\ pgconfig.Port d = pgconfig.Port c /\
   pgconfig.User d = pgconfig.User c /\ pgconfig.Password d = pgconfig.Password c /\
   pgconfig.DBName d = pgconfig.DBName c) /\
  (0 < pgconfig.MaxConns c < 5 -> pgconfig.MinConns c = 0 ->
   pgconfig.MaxConns d < pgconfig.MinConns d).
Proof.
  intros d. subst d. unfold pgconfig.setDefaults.
  cbn [pgconfig.Host pgconfig.Port pgconfig.User pgconfig.Password pgconfig.DBName
    pgconfig.SSLMode pgconfig.MaxConns pgconfig.MinConns pgconfig.MaxConnLifetime
    pgconfig.MaxConnIdleTime pgconfig.HealthCheckPeriod pgconfig.ConnectTimeout].
  assert (D1 : pgconfig.defaultMaxConns <> 0) by discriminate.
  assert (D2 : pgconfig.defaultMinConns <> 0) by discriminate.
  assert (D3 : pgconfig.defaultMaxConnLifetime <> 0) by discriminate.
  assert (D4 : pgconfig.defaultMaxConnIdleTime <> 0) by discriminate.
  assert (D5 : pgconfig.defaultHealthCheckPeriod <> 0) by discriminate.
  assert (D6 : pgconfig.defaultConnectTimeout <> 0) by discriminate.
  split; [| split; [| split; [| split]]].
  - f_equal; auto using fill_idem, fill_text_idem.
  - repeat split; auto using fill_nonzero, fill_text_nonempty.
  - repeat split; auto using fill_keeps, fill_text_keeps.
  - repeat split; reflexivity.
  - intros Hmx Hmn. rewrite Hmn. rewrite fill_keeps by lia.
    change (0 =? 0) with true. cbv iota. unfold pgconfig.defaultMinConns. lia.
Qed.

(** X30. [postgres.New] never leaks a pool.  Whatever the driver
    answers, [New] sets the defaults in the caller's configuration first,
    so that the caller sees them even when [New] fails, and parses the
    address of the configuration with the defaults set.  When it returns
    a database, one pool was created, with those settings, pinged once
    and not closed.  When it returns an error, that is the driver's error
    wrapped under the name of the stage that failed, and every pool that
    was created has been closed: none is when parsing or creating fails,
    and the one a failed ping leaves is closed before [New] returns. *)
Theorem postgres_New_never_leaks_a_pool (driver : pgpool.Driver) (ctx : transport.Context)
    (c : pgconfig.Config) :
  let out := pgpool.New driver ctx c in
  out.1.2 = pgconfig.setDefaults c /\
  head out.2 = Some (pgpool.EvParseConfig (pgconfig.DSN (pgconfig.setDefaults c))) /\
  match out.1.1 with
  | goerrors.Ok db =>
      pgpool.cfg db = pgconfig.setDefaults c /\
      pgpool.pools_created driver ctx out.2 = 1%nat /\
      pgpool.pools_closed out.2 = 0%nat /\
      pgpool.EvNewWithConfig (pgconfig.setDefaults c) ∈ out.2 /\
      pgpool.EvPing ∈ out.2
  | goerrors.Err e =>
      pgpool.pools_created driver ctx out.2 = pgpool.pools_closed out.2 /\
      exists stage e0,
        e = goerrors.Wrap stage e0 /\
        (pgpool.ParseConfig driver (pgconfig.DSN (pgconfig.setDefaults c)) = Some e0 \/
         pgpool.NewWithConfig driver ctx (pgconfig.setDefaults c) = Some e0 \/
         pgpool.Ping driver ctx = Some e0)
  end.
Proof.
  intros out. subst out. unfold pgpool.New.
  destruct (pgpool.ParseConfig driver _) as [e1 |] eqn:H1.
  - cbn [fst snd head]. split; [reflexivity |]. split; [reflexivity |].
    split; [reflexivity |]. eexists _, _. split; [reflexivity | auto].
  - destruct (pgpool.NewWithConfig driver ctx _) as [e2 |] eqn:H2.
    + cbn [fst snd head]. split; [reflexivity |]. split; [reflexivity |]. split.
      * unfold pgpool.pools_created, pgpool.pools_closed. cbn [List.filter].
           rewrite H2. reflexivity.
      * eexists _, _. split; [reflexivity | auto].
    + destruct (pgpool.Ping driver ctx) as [e3 |] eqn:H3.
      * cbn [fst snd head]. split; [reflexivity |]. split; [reflexivity |]. split.
        -- unfold pgpool.pools_created, pgpool.pools_closed. cbn [List.filter].
           rewrite H2. reflexivity.
        -- eexists _, _. split; [reflexivity | auto].
      * cbn [fst snd head pgpool.cfg]. split; [reflexivity |]. split; [reflexivity |].
        split; [reflexivity |]. split.
        -- unfold pgpool.pools_created. cbn [List.filter]. rewrite H2. reflexivity.
        -- split; [reflexivity |]. split; set_solver.
Qed.

Section Parse.
Variable ParseDuration : string -> option Duration.

Lemma effective_duration (s : string) (dflt : Duration) :
  dflt <> 0 ->
  (if config.parseDuration ParseDuration s dflt =? 0 then dflt
   else config.parseDuration ParseDuration s dflt)
  = default dflt (config.configured ParseDuration s).
Proof.
  intros Hd. unfold config.parseDuration, config.configured.
  destruct (String.eqb s "").
  - cbn. now rewrite (proj2 (Z.eqb_neq dflt 0) Hd).
  - destruct (ParseDuration s) as [x |].
    + destruct (Z.eqb_spec x 0); reflexivity.
    + cbn. now rewrite (proj2 (Z.eqb_neq dflt 0) Hd).
Qed.

(** X29. No duration of the pool can be configured to zero.  In the
    configuration [postgres.New] works with, each of the four durations
    is the parsed setting when the text is not empty, parses, and is not
    zero, and the default otherwise: one hour, thirty minutes, one
    minute and five seconds; so a setting of zero, like an empty or an
    unreadable one, gives the default, and no duration is ever zero.
    Host, port, user, password and database name are the configured
    ones. *)
Theorem no_duration_is_configured_to_zero (c : config.DatabaseConfig) :
  let eff := config.effective ParseDuration c in
  pgconfig.MaxConnLifetime eff
    = default (3600 * Second) (config.configured ParseDuration (config.MaxConnLifetime c)) /\
  pgconfig.MaxConnIdleTime eff
    = default (1800 * Second) (config.configured ParseDuration (config.MaxConnIdleTime c)) /\
  pgconfig.HealthCheckPeriod eff
    = default (60 * Second) (config.configured ParseDuration (config.HealthCheckPeriod c)) /\
  pgconfig.ConnectTimeout eff
    = default (5 * Second) (config.configured ParseDuration (config.ConnectTimeout c)) /\
  (pgconfig.MaxConnLifetime eff <> 0 /\ pgconfig.MaxConnIdleTime eff <> 0 /\
   pgconfig.HealthCheckPeriod eff <> 0 /\ pgconfig.ConnectTimeout eff <> 0) /\
  (forall s d, config.configured ParseDuration s = Some d ->
               s <> "" /\ ParseDuration s = Some d /\ d <> 0) /\
  (pgconfig.Host eff = config.Host c /\ pgconfig.Port eff = config.Port c /\
   pgconfig.User eff = config.User c /\ pgconfig.Password eff = config.Password c /\
   pgconfig.DBName eff = config.DBName c).
Proof.
  intros eff. subst eff. unfold config.effective, pgconfig.setDefaults, config.ToPostgresConfig.
  cbn [pgconfig.Host pgconfig.Port pgconfig.User pgconfig.Password pgconfig.DBName
    pgconfig.SSLMode pgconfig.MaxConns pgconfig.MinConns pgconfig.MaxConnLifetime
    pgconfig.MaxConnIdleTime pgconfig.HealthCheckPeriod pgconfig.ConnectTimeout].
  assert (Hconf : forall s d, config.configured ParseDuration s = Some d ->
                              s <> "" /\ ParseDuration s = Some d /\ d <> 0).
  { intros s d. unfold config.configured.
    destruct (String.eqb_spec s ""); [discriminate |].
    destruct (ParseDuration s) as [x |]; [| discriminate].
    destruct (Z.eqb_spec x 0); [discriminate |]. intros [= <-]. auto. }
  assert (Hnz : forall s dflt, dflt <> 0 ->
                               default dflt (config.configured ParseDuration s) <> 0).
  { intros s dflt Hd. destruct (config.configured ParseDuration s) as [x |] eqn:Hx; cbn.
    - now destruct (Hconf s x Hx) as (_ & _ & H).
    - exact Hd. }
  unfold pgconfig.defaultMaxConnLifetime, pgconfig.defaultMaxConnIdleTime,
    pgconfig.defaultHealthCheckPeriod, pgconfig.defaultConnectTimeout.
  rewrite !effective_duration by (unfold pgconfig.Hour, Minute, Second; lia).
  change pgconfig.Hour with (3600 * Second).
  change (Minute * 30) with (1800 * Second).
  change Minute with (60 * Second).
  change (Second * 5) with (5 * Second).
  split; [reflexivity |]. split; [reflexivity |]. split; [reflexivity |].
  split; [reflexivity |]. split.
  - repeat split; apply Hnz; unfold Second; lia.
  - split; [exact Hconf |]. repeat split; reflexivity.
Qed.

End Parse.

End ConfigFacts.
